(** * ts-nestjs-logger: a shallow embedding of the contextual logger

    The development follows the TypeScript sources of the package:
    - [logger.context]  : [LoggerContextService], [extractTraceContext],
                          [getCallerContext];
    - [log-utils]       : [formatStackTrace], [sanitizeObject], [isBaseError],
                          [isValidContextValue], [cleanLogData], [formatCause];
    - [logger.service]  : [LoggerService] and its seven logging operations;
    - the exception filter [BaseErrorExceptionFilter].

    JavaScript values are a small inductive type; objects used as records
    (the CLS store, the structured fields of a log record, response bodies)
    are finite maps from property names to values; [Object.entries] of a
    caller-supplied metadata object is the list of its entries in insertion
    order.  Everything that mutates (the CLS store, the logging engine, the
    stack walker's invocation count) is threaded explicitly in a [World]. *)

From Stdlib Require Import ZArith Ascii String List Bool Lia.
From stdpp Require Import gmap strings list fin_maps.

Set Warnings "-register-all".

Local Open Scope string_scope.
Local Open Scope list_scope.

(** ** Strings, the way the JavaScript string methods behave *)

Module Str.

Definition code (c : ascii) : N := N_of_ascii c.

Definition in_range (lo hi : ascii) (c : ascii) : bool :=
  ((code lo <=? code c) && (code c <=? code hi))%N.

Definition is_upper (c : ascii) : bool := in_range "A" "Z" c.
Definition is_lower (c : ascii) : bool := in_range "a" "z" c.
Definition is_digit (c : ascii) : bool := in_range "0" "9" c.

(** [[a-zA-Z0-9_$]] *)
Definition is_ident (c : ascii) : bool :=
  is_lower c || is_upper c || is_digit c
  || Ascii.eqb c "_" || Ascii.eqb c "$".

(** [\w] *)
Definition is_word (c : ascii) : bool :=
  is_lower c || is_upper c || is_digit c || Ascii.eqb c "_".

(** The one-byte line terminators are LF and CR. *)
Definition is_dot (c : ascii) : bool :=
  negb ((code c =? 10) || (code c =? 13))%N.

Definition lower (c : ascii) : ascii :=
  if is_upper c then ascii_of_N (code c + 32) else c.

Fixpoint toLowerCase (s : string) : string :=
  match s with
  | EmptyString => EmptyString
  | String c r => String (lower c) (toLowerCase r)
  end.

Definition startsWith (s p : string) : bool := String.prefix p s.

Fixpoint includes (s needle : string) : bool :=
  String.prefix needle s
  || match s with
     | EmptyString => false
     | String _ r => includes r needle
     end.

(** [s.split(sep)] for a one-character separator: never the empty list. *)
Fixpoint split (sep : ascii) (s : string) : list string :=
  match s with
  | EmptyString => [EmptyString]
  | String c r =>
      if Ascii.eqb c sep then EmptyString :: split sep r
      else match split sep r with
           | [] => [String c EmptyString]
           | w :: ws => String c w :: ws
           end
  end.

(** A string is the sequence of its UTF-8 bytes. *)
Definition bytes (codes : list N) : string :=
  fold_right (fun n s => String (ascii_of_N n) s) EmptyString codes.

(** The UTF-8 bytes of a code point of the basic plane. *)
Definition utf8 (cp : N) : string :=
  (if cp <? 128 then bytes [cp]
   else if cp <? 2048 then bytes [192 + cp / 64; 128 + cp mod 64]
   else bytes [224 + cp / 4096; 128 + (cp / 64) mod 64; 128 + cp mod 64])%N.

(** The white space of the language, line terminators included: what
    [trim] strips and [\s] matches.  U+0009 to U+000D, U+0020, U+00A0,
    U+1680, U+2000 to U+200A, U+2028, U+2029, U+202F, U+205F, U+3000 and
    U+FEFF. *)
Definition WHITE_SPACE : list string :=
  List.map utf8
    [ 9; 10; 11; 12; 13; 32; 160; 5760;
      8192; 8193; 8194; 8195; 8196; 8197; 8198; 8199; 8200; 8201; 8202;
      8232; 8233; 8239; 8287; 12288; 65279 ]%N.

Definition white (s : string) : bool := existsb (String.eqb s) WHITE_SPACE.

Fixpoint rev (s : string) : string :=
  match s with
  | EmptyString => EmptyString
  | String c r => String.append (rev r) (String c EmptyString)
  end.

(** Drops the leading characters [w] accepts; a character is one, two
    or three bytes long. *)
Fixpoint dropWhite (w : string -> bool) (s : string) : string :=
  match s with
  | EmptyString => EmptyString
  | String c1 r1 =>
      if w (String c1 EmptyString) then dropWhite w r1
      else
        match r1 with
        | EmptyString => s
        | String c2 r2 =>
            if w (String c1 (String c2 EmptyString)) then dropWhite w r2
            else
              match r2 with
              | EmptyString => s
              | String c3 r3 =>
                  if w (String c1 (String c2 (String c3 EmptyString)))
                  then dropWhite w r3
                  else s
              end
        end
  end.

Definition trimStart (s : string) : string := dropWhite white s.

(** Reading from the right: the same on the reversed bytes. *)
Definition trimEnd (s : string) : string :=
  rev (dropWhite (fun t => white (rev t)) (rev s)).

Definition trim (s : string) : string := trimEnd (trimStart s).

Definition nonempty (s : string) : bool :=
  match s with EmptyString => false | _ => true end.

Definition LF : ascii := ascii_of_N 10.

End Str.

(** ** JavaScript values *)

(** An [Error] instance carries what [lib.es] declares for it ([name],
    [message], [stack?], [cause?]), and any further members reachable
    by the [in] operator ([code], [loggable], [statusCode], methods, ...). *)
Inductive value : Type :=
| VUndefined
| VNull
| VBool (b : bool)
| VNum (n : Z)
| VStr (s : string)
| VFun (name : string)
| VArr (items : list value)
| VObj (props : list (string * value))
| VError (name message : string) (stack : option string) (cause : value)
         (members : list (string * value)).

Abbreviation record := (gmap string value).

Module Js.

(** ToBoolean *)
Definition truthy (v : value) : bool :=
  match v with
  | VUndefined | VNull => false
  | VBool b => b
  | VNum n => negb (n =? 0)%Z
  | VStr s => Str.nonempty s
  | VFun _ | VArr _ | VObj _ | VError _ _ _ _ _ => true
  end.

(** [a || b] *)
Definition or (a b : value) : value := if truthy a then a else b.

Definition is_undefined (v : value) : bool :=
  match v with VUndefined => true | _ => false end.

(** [v === 'lit'] *)
Definition is_string (lit : string) (v : value) : bool :=
  match v with VStr s => String.eqb s lit | _ => false end.

Definition typeof (v : value) : string :=
  match v with
  | VUndefined => "undefined"
  | VBool _ => "boolean"
  | VNum _ => "number"
  | VStr _ => "string"
  | VFun _ => "function"
  | VNull | VArr _ | VObj _ | VError _ _ _ _ _ => "object"
  end.

Fixpoint assoc (k : string) (l : list (string * value)) : option value :=
  match l with
  | [] => None
  | (k', v) :: r => if String.eqb k k' then Some v else assoc k r
  end.

(** The members of an [Error] seen through property access. *)
Definition error_member (k : string) (name message : string)
           (stack : option string) (cause : value)
           (members : list (string * value)) : option value :=
  if String.eqb k "name" then Some (VStr name)
  else if String.eqb k "message" then Some (VStr message)
  else if String.eqb k "stack" then VStr <$> stack
  else if String.eqb k "cause" then
    (if is_undefined cause then None else Some cause)
  else assoc k members.

Definition member (k : string) (v : value) : option value :=
  match v with
  | VObj props => assoc k props
  | VError n m s c ms => error_member k n m s c ms
  | _ => None
  end.

(** [k in v] *)
Definition has (k : string) (v : value) : bool :=
  match member k v with Some _ => true | None => false end.

(** [v.k], also [v?.k]: [undefined] when there is no such member. *)
Definition prop (k : string) (v : value) : value :=
  default VUndefined (member k v).

(** [v instanceof Error] *)
Definition instanceofError (v : value) : bool :=
  match v with VError _ _ _ _ _ => true | _ => false end.

Definition ofString (o : option string) : value :=
  match o with Some s => VStr s | None => VUndefined end.

(** [r[k]] on a record *)
Definition field (k : string) (r : record) : value :=
  default VUndefined (r !! k).

End Js.

(** ** logger.context: trace headers *)

(** A header is [string | string[] | undefined]; an absent key and a key
    bound to [undefined] read the same, so a header map is a finite map. *)
Inductive header : Type :=
| HStr (s : string)
| HArr (l : list string).

Record TraceContext : Type := {
  traceId : option string;
  spanId : option string;
  parentSpanId : option string;
  traceFlags : option string;
}.

Module Headers.

Definition truthy (h : option header) : bool :=
  match h with
  | None => false
  | Some (HStr s) => Str.nonempty s
  | Some (HArr _) => true
  end.

(** [headers[a] || headers[b]] *)
Definition either (hs : gmap string header) (a b : string) : option header :=
  if truthy (hs !! a) then hs !! a else hs !! b.

(** [Array.isArray(h) ? h[0] : h] *)
Definition first (h : option header) : option string :=
  match h with
  | None => None
  | Some (HStr s) => Some s
  | Some (HArr l) => head l
  end.

End Headers.

Definition noTrace : TraceContext :=
  {| traceId := None; spanId := None; parentSpanId := None; traceFlags := None |}.

Definition extractTraceContext (headers : gmap string header) : TraceContext :=
  let traceparent := Headers.either headers "traceparent" "x-traceparent" in
  let tracestate := Headers.either headers "tracestate" "x-tracestate" in
  match traceparent with
  | Some (HStr tp) =>
      if Str.nonempty tp then
        let parts := Str.split "-" tp in
        if (4 <=? List.length parts)%nat then
          {| traceId := parts !! 1; spanId := None;
             parentSpanId := parts !! 2; traceFlags := parts !! 3 |}
        else noTrace
      else
        {| traceId := Headers.first (Headers.either headers "x-trace-id" "x-traceid");
           spanId := Headers.first (Headers.either headers "x-span-id" "x-spanid");
           parentSpanId :=
             Headers.first (Headers.either headers "x-parent-span-id" "x-parent-spanid");
           traceFlags := Headers.first tracestate |}
  | _ =>
      {| traceId := Headers.first (Headers.either headers "x-trace-id" "x-traceid");
         spanId := Headers.first (Headers.either headers "x-span-id" "x-spanid");
         parentSpanId :=
           Headers.first (Headers.either headers "x-parent-span-id" "x-parent-spanid");
         traceFlags := Headers.first tracestate |}
  end.

(** ** logger.context: the context accessor over the CLS store

    The store of the active scope is a finite map; [cls.set] binds a key,
    [cls.get(key)] reads it ([undefined] when unbound).  The CLS library
    takes a key with a dot in it for a path into nested objects: [set] and
    [get] are what it does with the [plain] keys, the only ones the
    package itself uses. *)

Module Cls.
Definition set (key : string) (v : value) (store : record) : record :=
  <[key := v]> store.
Definition get (key : string) (store : record) : value :=
  Js.field key store.
Definition plain (key : string) : bool := negb (Str.includes key ".").
End Cls.

Module LoggerContextService.

Definition set (key : string) (v : value) (store : record) : record :=
  if Js.is_undefined v then store else Cls.set key v store.

(** The seeding loop of [run]: [Object.entries(context).forEach]. *)
Definition seed (context : list (string * value)) (store : record) : record :=
  fold_left (fun st kv => if Js.is_undefined kv.2 then st else Cls.set kv.1 kv.2 st)
            context store.

(** [run(context, callback)]: seed, then run the callback on the store. *)
Definition run {A : Type} (context : list (string * value))
           (callback : record -> A) (store : record) : A :=
  callback (seed context store).

(** [get()] within a scope: every key of the store whose value is defined. *)
Definition get (store : record) : option record :=
  Some (filter (fun kv => Js.is_undefined kv.2 = false) store).

Definition getValue (key : string) (store : record) : value :=
  Cls.get key store.

(** [getAll() = get() || {}] *)
Definition getAll (store : record) : record :=
  default ∅ (get store).

End LoggerContextService.

(** ** constants/log-constants *)

Definition SENSITIVE_KEYS : list string :=
  ["password"; "token"; "authorization"; "secret"; "apiKey"; "apikey";
   "cookie"; "session"; "set-cookie"].


Definition INTERNAL_CLASSES : gset string :=
  list_to_set
    ["Array"; "Object"; "Function"; "Promise"; "Logger"; "LoggerService";
     "NestLogger"; "Console"; "Module"; "InstanceLoader"; "NestFactory";
     "NestApplication"; "NestApplicationContext"; "Router"; "RouterExplorer";
     "RoutesResolver"; "Injector"; "ModuleRef"; "Reflector"; "MetadataScanner";
     "DependenciesScanner"; "ModuleCompiler"; "NestContainer";
     "ContextIdFactory"; "ContextId"; "ModuleTokenFactory"; "ModuleDefinition";
     "UnknownModule"; "UndefinedModule"; "DynamicModule"; "StaticModule";
     "AsyncLocalStorage"; "AsyncResource"; "EventEmitter"; "Stream";
     "Readable"; "Writable"; "Transform"; "Duplex"; "PassThrough";
     "OperatorSubscriber"; "Subscriber"; "Observable"].

Definition INTERNAL_METHODS : gset string :=
  list_to_set
    ["forEach"; "map"; "filter"; "reduce"; "find"; "some"; "every"; "call";
     "apply"; "bind"; "toString"; "valueOf"; "hasOwnProperty";
     "isPrototypeOf"; "propertyIsEnumerable"; "toLocaleString"; "constructor";
     "__defineGetter__"; "__defineSetter__"; "__lookupGetter__";
     "__lookupSetter__"; "__proto__"; "next"; "error"; "complete";
     "subscribe"; "pipe"; "tap"; "catchError"].

Definition INVALID_CONTEXT_VALUES : gset string :=
  list_to_set ["Array"; "forEach"; "Object"; "OperatorSubscriber"; "Subscriber"].

(** [set.has(v)]: only a string can be a member of a set of strings. *)
Definition set_has (v : value) (s : gset string) : bool :=
  match v with
  | VStr x => bool_decide (x ∈ s)
  | _ => false
  end.

(** ** utils/log-utils *)

Definition formatStackTrace (stack : string) : list string :=
  List.filter Str.nonempty (List.map Str.trim (Str.split Str.LF stack)).

Definition REDACTED : value := VStr "[REDACTED]".

Definition is_sensitive (sensitiveKeys : list string) (key : string) : bool :=
  existsb (fun sensitive =>
             Str.includes (Str.toLowerCase key) (Str.toLowerCase sensitive))
          sensitiveKeys.

Definition sanitizeObject (obj : record) (sensitiveKeys : list string) : record :=
  map_imap (fun key v => Some (if is_sensitive sensitiveKeys key then REDACTED else v))
           obj.

Definition isBaseError (error : value) : bool :=
  Js.instanceofError error
  && Js.has "code" error
  && Js.has "loggable" error
  && Js.has "setTransportIfUnset" error
  && String.eqb (Js.typeof (Js.prop "code" error)) "string"
  && String.eqb (Js.typeof (Js.prop "loggable" error)) "boolean".

Definition isValidContextValue (v : value) (key : option string) : bool :=
  match key with
  | Some "context" => false
  | _ => negb (set_has v INVALID_CONTEXT_VALUES)
  end.

Definition cleanLogData (logData : record) : record :=
  filter (fun kv => isValidContextValue kv.2 (Some kv.1) = true) logData.

Definition stackLines (stack : string) : value :=
  VArr (List.map VStr (formatStackTrace stack)).

Definition formatCause (cause : value) : value :=
  match cause with
  | VError name message stack _ _ =>
      VObj ([("name", VStr name); ("message", VStr message)]
            ++ match stack with
               | Some s => if Str.nonempty s then [("stack", stackLines s)] else []
               | None => []
               end)
  | _ => cause
  end.

(** ** Regular expressions of the sources

    A backtracking matcher with the priorities of the JavaScript engine:
    alternatives left to right, greedy repetition, leftmost match. *)

Module Regex.

Inductive t : Type :=
| Eps
| Bol
| Eol
| Class (p : ascii -> bool)
| Seq (a b : t)
| Alt (a b : t)
| Star (a : t)
| Group (a : t).

Fixpoint Lit (s : string) : t :=
  match s with
  | EmptyString => Eps
  | String c r => Seq (Class (Ascii.eqb c)) (Lit r)
  end.

Definition Plus (a : t) : t := Seq a (Star a).
Definition Opt (a : t) : t := Alt a Eps.

Fixpoint seq (l : list t) : t :=
  match l with
  | [] => Eps
  | [a] => a
  | a :: r => Seq a (seq r)
  end.

(** [run r s bol caps k]: match [r] at the head of [s]; [bol] says
    whether [s] is the whole input; [k] continues on the rest. *)
Fixpoint run {R : Type} (r : t) (s : string) (bol : bool) (caps : list string)
         (k : string -> bool -> list string -> option R) : option R :=
  match r with
  | Eps => k s bol caps
  | Bol => if bol then k s bol caps else None
  | Eol => match s with EmptyString => k s bol caps | _ => None end
  | Class p =>
      match s with
      | String c s' => if p c then k s' false caps else None
      | EmptyString => None
      end
  | Seq a b => run a s bol caps (fun s' bol' caps' => run b s' bol' caps' k)
  | Alt a b =>
      match run a s bol caps k with
      | Some x => Some x
      | None => run b s bol caps k
      end
  | Star a =>
      (fix loop (fuel : nat) (s : string) (bol : bool) (caps : list string)
         : option R :=
         match fuel with
         | O => k s bol caps
         | S fuel' =>
             match run a s bol caps
                       (fun s' bol' caps' =>
                          if (String.length s' <? String.length s)%nat
                          then loop fuel' s' bol' caps' else None) with
             | Some x => Some x
             | None => k s bol caps
             end
         end) (String.length s) s bol caps
  | Group a =>
      run a s bol caps
          (fun s' bol' caps' =>
             k s' bol'
               (caps' ++ [substring 0 (String.length s - String.length s') s]))
  end.

Fixpoint search (r : t) (s : string) (bol : bool) : option (list string) :=
  match run r s bol [] (fun _ _ caps => Some caps) with
  | Some caps => Some caps
  | None =>
      match s with
      | EmptyString => None
      | String _ s' => search r s' false
      end
  end.

(** [s.match(r)] without the [g] flag: the captured groups, in order. *)
Definition exec (r : t) (s : string) : option (list string) := search r s true.

(** [r.test(s)] *)
Definition test (r : t) (s : string) : bool :=
  match exec r s with Some _ => true | None => false end.

(** [\s]: one character of white space, of one byte or more. *)
Definition space : t :=
  fold_right (fun token r => Alt (Lit token) r)
             (Class (fun _ => false)) Str.WHITE_SPACE.

(** [.] without the [s] flag: one character that is no line terminator.
    Besides LF and CR these are U+2028 and U+2029, in UTF-8 the bytes
    226 128 168 and 226 128 169. *)
Definition dot : t :=
  let byte (n : N) (c : ascii) : bool := (Str.code c =? n)%N in
  Alt (Class (fun c => Str.is_dot c && negb (byte 226%N c)))
      (Seq (Class (byte 226%N))
           (Alt (Class (fun c => Str.is_dot c && negb (byte 128%N c)))
                (Seq (Class (byte 128%N))
                     (Class (fun c =>
                               Str.is_dot c
                               && negb (byte 168%N c)
                               && negb (byte 169%N c)))))).

Definition ident : t := Class Str.is_ident.

End Regex.

(** ** logger.context: the caller resolver *)

Module Caller.
Import Regex.

(** [/^Error\s*$/], [/getCallerContext/],
    [/LoggerService\.(log|error|warn|info|debug|verbose|fatal)/],
    [/getAutoContext/] *)
Definition skipPatterns : list Regex.t :=
  [ seq [Bol; Lit "Error"; Star space; Eol];
    Lit "getCallerContext";
    Seq (Lit "LoggerService.")
        (Group (Alt (Lit "log") (Alt (Lit "error") (Alt (Lit "warn")
               (Alt (Lit "info") (Alt (Lit "debug") (Alt (Lit "verbose")
               (Lit "fatal"))))))));
    Lit "getAutoContext" ].

(** [at], [\s+], an optional [async\s+], an optional [new\s+], the group
    (an upper-case letter, then identifier characters, greedy), a dot,
    and at least one identifier character. *)
Definition methodCall : Regex.t :=
  seq [ Lit "at"; Plus space;
        Opt (Seq (Lit "async") (Plus space));
        Opt (Seq (Lit "new") (Plus space));
        Group (Seq (Class Str.is_upper) (Star ident));
        Lit "."; Plus ident ].

(** [/\.([a-zA-Z0-9_$]+)\s*\(/] *)
Definition methodName : Regex.t :=
  seq [ Lit "."; Group (Plus ident); Star space; Lit "(" ].

(** [/at\s+new\s+([A-Z][a-zA-Z0-9_$]+)\s*\(/] *)
Definition constructorCall : Regex.t :=
  seq [ Lit "at"; Plus space; Lit "new"; Plus space;
        Group (Seq (Class Str.is_upper) (Plus ident));
        Star space; Lit "(" ].

Definition shouldSkip (line : string) : bool :=
  existsb (fun pattern => test pattern line) skipPatterns.

(** The first loop: the index after the last leading frame to skip. *)
Fixpoint findStart (lines : list string) (i startIndex : nat) : nat :=
  match lines with
  | [] => startIndex
  | line :: rest =>
      if negb (Str.nonempty line) then findStart rest (S i) startIndex
      else if shouldSkip line then findStart rest (S i) (S i)
      else startIndex
  end.

Definition empty : value := VObj [].

Definition found (service : string) (method : option string) : value :=
  VObj [("service", VStr service); ("method", Js.ofString method)].

(** One iteration of the second loop: [Some] is a [return]. *)
Definition inspect (line : string) : option value :=
  if negb (Str.nonempty line) then None
  else if Str.includes line "node_modules" && negb (Str.includes line "code-hive")
  then None
  else
    let constructorCase :=
      match exec constructorCall line with
      | Some (className :: _) =>
          if Str.nonempty className
             && negb (bool_decide (className ∈ INTERNAL_CLASSES))
             && negb (Str.includes className "Internal")
             && negb (Str.includes className "Operator")
          then Some (found className (Some "constructor"))
          else None
      | _ => None
      end in
    match exec methodCall line with
    | Some (className :: _) =>
        if Str.nonempty className then
          if bool_decide (className ∈ INTERNAL_CLASSES) then None
          else
            let method :=
              match exec methodName line with
              | Some (m :: _) => Some m
              | _ => None
              end in
            if match method with
               | Some m => Str.nonempty m && bool_decide (m ∈ INTERNAL_METHODS)
               | None => false
               end
            then None
            else if Str.includes className "Internal"
                    || Str.includes className "Abstract"
                    || Str.includes className "Operator"
            then None
            else Some (found className method)
        else constructorCase
    | _ => constructorCase
    end.

Fixpoint scan (lines : list string) : value :=
  match lines with
  | [] => empty
  | line :: rest =>
      match inspect line with
      | Some caller => caller
      | None => scan rest
      end
  end.

(** [getCallerContext()], as a function of what [new Error().stack]
    holds at the point of the call. *)
Definition getCallerContext (stack : option string) : value :=
  match stack with
  | None => empty
  | Some stack =>
      if negb (Str.nonempty stack) then empty
      else
        let stackLines := Str.split Str.LF stack in
        let startIndex := findStart (take 10 stackLines) 0 0 in
        scan (drop startIndex (take 20 stackLines))
  end.

End Caller.

(** ** logger.service *)

Inductive Level : Type := LTrace | LDebug | LInfo | LWarn | LError | LFatal.

(** One call into the logging engine: [logger.<level>(fields, msg)]. *)
Record EngineCall : Type := {
  ec_level : Level;
  ec_fields : record;
  ec_msg : string;
}.

(** What the OpenTelemetry API reports for the active span. *)
Record SpanContext : Type := {
  sc_traceId : option string;
  sc_spanId : option string;
}.

(** What the surroundings of one call provide: the stack that
    [new Error().stack] captures there, and the active span, if any. *)
Record CallSite : Type := {
  cs_stack : option string;
  cs_span : option SpanContext;
}.

(** The mutable world of one unit of work. *)
Record World : Type := {
  cls : record;                  (* the CLS store of the scope *)
  emitted : list EngineCall;     (* calls into the engine, oldest first *)
  stackWalks : nat;              (* invocations of getCallerContext *)
}.

Definition with_cls (f : record -> record) (w : World) : World :=
  {| cls := f (cls w); emitted := emitted w; stackWalks := stackWalks w |}.

Definition emit (level : Level) (fields : record) (msg : string) (w : World) : World :=
  {| cls := cls w;
     emitted := emitted w ++ [{| ec_level := level; ec_fields := fields; ec_msg := msg |}];
     stackWalks := stackWalks w |}.

Definition walked (w : World) : World :=
  {| cls := cls w; emitted := emitted w; stackWalks := S (stackWalks w) |}.

(** The platform's serializer, as TypeScript declares it: a string for
    every value.  At run time [JSON.stringify] yields [undefined] instead
    for [undefined], for a function, and for an object whose [toJSON]
    says so; see [Logger.formattable]. *)
Class JsRuntime : Type := {
  JSON_stringify : value -> string;
  (** [String(v)] *)
  String_of : value -> string;
}.

(** A logger instance: the default label given to the constructor, and
    whether a context service was injected. *)
Record LoggerService : Type := {
  lg_context : option string;
  lg_contextService : bool;
}.

(** The second argument of [warn]. *)
Inductive MetaOrContext : Type :=
| Meta (entries : list (string * value))
| Context (label : string).

Module Logger.
Section Logger.
Context `{RT : JsRuntime}.
Variable this : LoggerService.

(** [this.loggerContextService?.getAll() || {}] and friends *)
Definition svc_getAll (w : World) : record :=
  if lg_contextService this then LoggerContextService.getAll (cls w) else ∅.

Definition svc_getValue (key : string) (w : World) : value :=
  if lg_contextService this then LoggerContextService.getValue key (cls w)
  else VUndefined.

Definition svc_set (key : string) (v : value) (w : World) : World :=
  if lg_contextService this then with_cls (LoggerContextService.set key v) w
  else w.

Definition opt_truthy (o : option string) : bool :=
  match o with Some s => Str.nonempty s | None => false end.

Definition getOpenTelemetryContext (site : CallSite) (existingContext : record)
  : record :=
  match cs_span site with
  | None => ∅
  | Some spanContext =>
      let c1 : record :=
        if negb (Js.truthy (Js.field "traceId" existingContext))
           && opt_truthy (sc_traceId spanContext)
        then <["traceId" := Js.ofString (sc_traceId spanContext)]> ∅ else ∅ in
      if negb (Js.truthy (Js.field "spanId" existingContext))
         && opt_truthy (sc_spanId spanContext)
      then <["spanId" := Js.ofString (sc_spanId spanContext)]> c1 else c1
  end.

Definition shouldIncludeServiceMethod (context : record) : bool :=
  negb (Js.is_string "http" (Js.field "component" context)).

(** The guard of the caller-resolution step:
    [shouldIncludeServiceMethod(context) && !context.service && !context.method] *)
Definition needsCaller (context : record) : bool :=
  shouldIncludeServiceMethod context
  && negb (Js.truthy (Js.field "service" context))
  && negb (Js.truthy (Js.field "method" context)).

(** The caller-resolution step of [getAutoContext]: the caller in effect
    ([undefined] when none is looked for) and the world afterwards. *)
Definition resolveCaller (site : CallSite) (context : record) (w : World)
  : value * World :=
  if needsCaller context
  then
    let cachedCaller := svc_getValue "_cachedCaller" w in
    if Js.truthy cachedCaller then (cachedCaller, w)
    else
      let caller := Caller.getCallerContext (cs_stack site) in
      let w := walked w in
      if Js.truthy (Js.prop "service" caller) || Js.truthy (Js.prop "method" caller)
      then (caller, svc_set "_cachedCaller" caller w)
      else (caller, w)
  else (VUndefined, w).

(** The two guarded assignments [autoContext.service = caller.service] and
    [autoContext.method = caller.method]. *)
Definition withCaller (caller : value) (context autoContext : record) : record :=
  let autoContext : record :=
    if Js.truthy (Js.prop "service" caller)
       && negb (Js.truthy (Js.field "service" context))
       && shouldIncludeServiceMethod context
       && negb (set_has (Js.prop "service" caller) INTERNAL_CLASSES)
    then <["service" := Js.prop "service" caller]> autoContext
    else autoContext in
  if Js.truthy (Js.prop "method" caller)
     && negb (Js.truthy (Js.field "method" context))
     && shouldIncludeServiceMethod context
     && negb (set_has (Js.prop "method" caller) INTERNAL_METHODS)
  then <["method" := Js.prop "method" caller]> autoContext
  else autoContext.

Definition getAutoContext (site : CallSite) (w : World) : record * World :=
  let context := svc_getAll w in
  let '(caller, w) := resolveCaller site context w in
  let otelTraceContext := getOpenTelemetryContext site context in
  (* { ...context, ...otelTraceContext } *)
  let autoContext : record := otelTraceContext ∪ context in
  (cleanLogData (withCaller caller context autoContext), w).

Definition formatMessage (message : value) (context : option record) : string :=
  let formatted :=
    match message with
    | VStr s => s
    | VError _ m _ _ _ => m
    | _ => JSON_stringify message
    end in
  match context with
  | Some context =>
      match Js.field "context" context with
      | VStr logContext =>
          if Str.nonempty logContext then
            let contextPrefix := "[" +:+ logContext +:+ "]" in
            if Str.startsWith formatted contextPrefix then formatted
            else contextPrefix +:+ " " +:+ formatted
          else formatted
      | _ => formatted
      end
  | None => formatted
  end.

(** The messages [formatMessage] has a text for: strings, errors, and
    the values the serializer turns into a string.  For the others
    [formatted] is [undefined] at run time, and under a label
    [formatted.startsWith] throws before the engine is called. *)
Definition formattable (message : value) : bool :=
  match message with
  | VUndefined | VFun _ => false
  | VObj props => negb (Js.has "toJSON" (VObj props))
  | _ => true
  end.

(** [context || this.context || autoContext.service] *)
Definition label (context : option string) (autoContext : record) : value :=
  Js.or (Js.ofString context)
        (Js.or (Js.ofString (lg_context this)) (Js.field "service" autoContext)).

(** [{ ...logData, context: logContext }] *)
Definition labelled (logData : record) (logContext : value) : option record :=
  Some (<["context" := logContext]> logData).

(** [Object.entries(meta).forEach] of [error] and [warn] *)
Definition mergeMeta (meta : list (string * value)) (logData : record) : record :=
  fold_left (fun acc kv =>
               if isValidContextValue kv.2 (Some kv.1) then <[kv.1 := kv.2]> acc
               else acc)
            meta logData.

(** [(\w+Module|InstanceLoader|NestApplication|NestFactory)\s+(.+)] *)
Definition lifecycle : Regex.t :=
  Regex.seq
    [ Regex.Group
        (Regex.Alt (Regex.Seq (Regex.Plus (Regex.Class Str.is_word)) (Regex.Lit "Module"))
           (Regex.Alt (Regex.Lit "InstanceLoader")
              (Regex.Alt (Regex.Lit "NestApplication") (Regex.Lit "NestFactory"))));
      Regex.Plus Regex.space;
      Regex.Group (Regex.Plus Regex.dot) ].

Definition log (message : value) (context : option string)
           (site : CallSite) (w : World) : World :=
  let '(autoContext, w) := getAutoContext site w in
  let rawMessage :=
    match message with VStr s => s | _ => formatMessage message None end in
  let logContext := label context autoContext in
  let logContext :=
    match Regex.exec lifecycle rawMessage with
    | Some (m :: _) => VStr m
    | _ =>
        if Str.includes rawMessage "Starting Nest application" then VStr "NestFactory"
        else if Str.includes rawMessage "successfully started" then VStr "NestApplication"
        else logContext
    end in
  let logData := delete "context" autoContext in
  emit LInfo logData (formatMessage message (labelled logData logContext)) w.

(** The fields [error] and [fatal] add for an [Error] message. *)
Definition withErrorFields (name : string) (stack : option string)
           (cause : value) (base : record) : record :=
  let r := <["errorName" := VStr name]> base in
  let r :=
    match stack with
    | Some s => if Str.nonempty s then <["stack" := stackLines s]> r else r
    | None => r
    end in
  if Js.is_undefined cause then r else <["cause" := formatCause cause]> r.

Definition error (message : value) (meta : option (list (string * value)))
           (context : option string) (site : CallSite) (w : World) : World :=
  let '(autoContext, w) := getAutoContext site w in
  let logContext := label context autoContext in
  let baseErrorContext := cleanLogData autoContext in
  let errorContext :=
    match meta with
    | Some entries => mergeMeta entries baseErrorContext
    | None => baseErrorContext
    end in
  match message with
  | VError name msg stack cause _ =>
      let errorMeta := withErrorFields name stack cause errorContext in
      emit LError errorMeta (formatMessage (VStr msg) (labelled errorMeta logContext)) w
  | _ =>
      emit LError errorContext
           (formatMessage message (labelled errorContext logContext)) w
  end.

Definition warn (message : value) (metaOrContext : option MetaOrContext)
           (context : option string) (site : CallSite) (w : World) : World :=
  let '(autoContext, w) := getAutoContext site w in
  let '(logContext, meta) :=
    match metaOrContext with
    | Some (Context c) =>
        if Str.nonempty c then (Some c, None) else (context, None)
    | Some (Meta entries) => (context, Some entries)
    | None => (context, None)
    end in
  let logContext := label logContext autoContext in
  let logData := cleanLogData autoContext in
  let logData :=
    match meta with
    | Some entries => mergeMeta entries logData
    | None => logData
    end in
  emit LWarn logData (formatMessage message (labelled logData logContext)) w.

Definition debug (message : value) (context : option string)
           (site : CallSite) (w : World) : World :=
  let '(autoContext, w) := getAutoContext site w in
  let logContext := label context autoContext in
  let logData := cleanLogData autoContext in
  emit LDebug logData (formatMessage message (labelled logData logContext)) w.

Definition verbose (message : value) (context : option string)
           (site : CallSite) (w : World) : World :=
  let '(autoContext, w) := getAutoContext site w in
  let logContext := label context autoContext in
  let logData := cleanLogData autoContext in
  emit LTrace logData (formatMessage message (labelled logData logContext)) w.

(** The metadata loop of [info]: the guard reads the record being built. *)
Definition mergeMetaInfo (meta : list (string * value)) (logData : record) : record :=
  fold_left (fun acc kv =>
               if isValidContextValue kv.2 (Some kv.1)
                  && (shouldIncludeServiceMethod acc
                      || (negb (String.eqb kv.1 "service")
                          && negb (String.eqb kv.1 "method")))
               then <[kv.1 := kv.2]> acc
               else acc)
            meta logData.

Definition info (message : value) (meta : option (list (string * value)))
           (context : option string) (site : CallSite) (w : World) : World :=
  let '(autoContext, w) := getAutoContext site w in
  let logContext := label context autoContext in
  let logData := cleanLogData autoContext in
  let logData :=
    if negb (shouldIncludeServiceMethod logData)
    then delete "method" (delete "service" logData)
    else logData in
  let logData :=
    match meta with
    | Some entries => mergeMetaInfo entries logData
    | None => logData
    end in
  let logData := cleanLogData logData in
  emit LInfo logData (formatMessage message (labelled logData logContext)) w.

Definition fatal (message : value) (context : option string)
           (site : CallSite) (w : World) : World :=
  let '(autoContext, w) := getAutoContext site w in
  let logContext := label context autoContext in
  let logData := cleanLogData autoContext in
  match message with
  | VError name msg stack cause _ =>
      emit LFatal (withErrorFields name stack cause logData)
           (formatMessage (VStr msg) (labelled logData logContext)) w
  | _ => emit LFatal logData (formatMessage message (labelled logData logContext)) w
  end.

End Logger.
End Logger.

(** ** The exception filter *)

(** [host.getType()] *)
Inductive ContextType : Type := Http | Rpc | Ws | OtherContext (name : string).

(** What the filter reads from its [ArgumentsHost] and from the clock. *)
Record ArgumentsHost : Type := {
  h_type : ContextType;
  h_url : string;              (* request.url *)
  h_now : string;              (* new Date().toISOString() *)
  h_newErrorStack : option string;  (* the stack a [new Error] gets in [catch] *)
}.

(** [response.setHeader(..); response.status(status).json(body)] *)
Record HttpReply : Type := {
  rp_headers : list (string * string);
  rp_status : value;
  rp_body : record;
}.

Inductive TransportException : Type :=
| RpcException (error : value)
| WsException (error : value).

(** How [catch] ends: a reply written, an exception thrown to the
    transport, or neither (an unknown context type). *)
Inductive Outcome : Type :=
| Replied (reply : HttpReply)
| Thrown (exn : TransportException)
| Nothing.

(** The members of [BaseError], a class of the error package.  The filter
    only calls them; [setTransportIfUnset] mutates the error it is called
    on, which is the error returned here, and touches its transport tag only. *)
Class BaseErrorApi : Type := {
  setTransportIfUnset : string -> value -> value;
  getClientSafeError : value -> record;
  getRpcError : value -> value;
  setTransportIfUnset_frame :
    forall (transport : string) (e : value) (k : string),
      k <> "transport" ->
      Js.prop k (setTransportIfUnset transport e) = Js.prop k e;
}.

Definition HttpStatus_INTERNAL_SERVER_ERROR : value := VNum 500.

Module Filter.
Section Filter.
Context `{RT : JsRuntime} `{BE : BaseErrorApi}.
Variable logger : LoggerService.

Definition relevantKeys : list string :=
  ["requestId"; "correlationId"; "traceId"; "spanId"; "userId"; "component";
   "service"; "method"].

Definition extractClsContext (w : World) : record :=
  fold_left (fun clsContext key =>
               let v := Cls.get key (cls w) in
               if Js.is_undefined v then clsContext else <[key := v]> clsContext)
            relevantKeys ∅.

(** [...(v && { key: f v })] *)
Definition spreadIf (key : string) (v shown : value) (r : record) : record :=
  if Js.truthy v then <[key := shown]> r else r.

Definition errorStack (e : value) : option value :=
  match Js.prop "stack" e with
  | VStr s => if Str.nonempty s then Some (stackLines s) else None
  | _ => None
  end.

Definition withStack (e : value) (r : record) : record :=
  match errorStack e with
  | Some lines => <["stack" := lines]> r
  | None => r
  end.

Definition buildErrorContext (exception : value) (w : World) : record :=
  let context : record :=
    <["transport" := Js.prop "transport" exception]>
      (<["errorName" := Js.prop "name" exception]>
         (<["errorCode" := Js.prop "code" exception]> ∅)) in
  let context :=
    spreadIf "statusCode" (Js.prop "statusCode" exception)
             (Js.prop "statusCode" exception) context in
  let context :=
    spreadIf "metadata" (Js.prop "metadata" exception)
             (Js.prop "metadata" exception) context in
  let context :=
    spreadIf "cause" (Js.prop "cause" exception)
             (formatCause (Js.prop "cause" exception)) context in
  let context := withStack exception context in
  (* Object.assign(context, this.extractClsContext()) *)
  extractClsContext w ∪ context.

Definition buildErrorContextForRegularError (error : value) (w : World) : record :=
  let context : record :=
    <["errorMessage" := Js.prop "message" error]>
      (<["errorName" := Js.prop "name" error]> ∅) in
  let context := withStack error context in
  let context :=
    spreadIf "cause" (Js.prop "cause" error)
             (formatCause (Js.prop "cause" error)) context in
  extractClsContext w ∪ context.

(** The [x-request-id] header, set when the store has a non-empty string. *)
Definition requestIdHeader (w : World) : list (string * string) :=
  match Cls.get "requestId" (cls w) with
  | VStr requestId =>
      if Str.nonempty requestId then [("x-request-id", requestId)] else []
  | _ => []
  end.

Definition stamped (host : ArgumentsHost) (body : record) : record :=
  <["path" := VStr (h_url host)]> (<["timestamp" := VStr (h_now host)]> body).

Definition handleHttpException (exception : value) (host : ArgumentsHost)
           (w : World) : Outcome :=
  let status := Js.or (Js.prop "statusCode" exception)
                      HttpStatus_INTERNAL_SERVER_ERROR in
  let errorResponse := getClientSafeError exception in
  Replied {| rp_headers := requestIdHeader w;
             rp_status := status;
             rp_body := stamped host errorResponse |}.

Definition handleRpcException (exception : value) : Outcome :=
  Thrown (RpcException (getRpcError exception)).

Definition handleWsException (exception : value) : Outcome :=
  Thrown (WsException (getRpcError exception)).

Definition genericPayload (error : value) : record :=
  <["message" := Js.or (Js.prop "message" error) (VStr "An error occurred")]>
    (<["code" := VStr "INTERNAL_SERVER_ERROR"]> ∅).

Definition handleHttpExceptionForRegularError (error : value)
           (host : ArgumentsHost) (w : World) : Outcome :=
  Replied {| rp_headers := requestIdHeader w;
             rp_status := HttpStatus_INTERNAL_SERVER_ERROR;
             rp_body := stamped host (genericPayload error) |}.

Definition genericRpcPayload (error : value) : value :=
  VObj [("code", VStr "INTERNAL_SERVER_ERROR");
        ("message", Js.or (Js.prop "message" error) (VStr "An error occurred"))].

Definition handleRpcExceptionForRegularError (error : value) : Outcome :=
  Thrown (RpcException (genericRpcPayload error)).

Definition handleWsExceptionForRegularError (error : value) : Outcome :=
  Thrown (WsException (genericRpcPayload error)).

Definition tagTransport (contextType : ContextType) (e : value) : value :=
  match contextType with
  | Http => setTransportIfUnset "http" e
  | Rpc => setTransportIfUnset "rpc" e
  | Ws => setTransportIfUnset "ws" e
  | OtherContext _ => e
  end.

(** The branch of [catch] for a [BaseError]. *)
Definition catchBaseError (exception : value) (host : ArgumentsHost)
           (site : CallSite) (w : World) : Outcome * World :=
  let contextType := h_type host in
  let baseError := tagTransport contextType exception in
  let w :=
    if Js.truthy (Js.prop "loggable" baseError) then
      let errorContext := buildErrorContext baseError w in
      Logger.error logger baseError (Some (map_to_list errorContext)) None site w
    else w in
  match contextType with
  | Http => (handleHttpException baseError host w, w)
  | Rpc => (handleRpcException baseError, w)
  | Ws => (handleWsException baseError, w)
  | OtherContext _ => (Nothing, w)
  end.

(** The branch of [catch] for every other value. *)
Definition catchRegularError (exception : value) (host : ArgumentsHost)
           (site : CallSite) (w : World) : Outcome * World :=
  let contextType := h_type host in
  let error :=
    if Js.instanceofError exception then exception
    else VError "Error" (String_of exception) (h_newErrorStack host) VUndefined [] in
  let errorContext := buildErrorContextForRegularError error w in
  let w := Logger.error logger error (Some (map_to_list errorContext)) None site w in
  match contextType with
  | Http => (handleHttpExceptionForRegularError error host w, w)
  | Rpc => (handleRpcExceptionForRegularError error, w)
  | Ws => (handleWsExceptionForRegularError error, w)
  | OtherContext _ => (Nothing, w)
  end.

(** [catch(exception, host)]: the outcome, and the world afterwards. *)
Definition catch (exception : value) (host : ArgumentsHost) (site : CallSite)
           (w : World) : Outcome * World :=
  if isBaseError exception then catchBaseError exception host site w
  else catchRegularError exception host site w.

End Filter.
End Filter.

(** ** The engine configuration built by [createLogger] *)










(** ** Auxiliary definitions for the statements *)

(** The discrete headers, as the fallback branch reads them. *)
Definition discreteTrace (headers : gmap string header) : TraceContext :=
  {| traceId := Headers.first (Headers.either headers "x-trace-id" "x-traceid");
     spanId := Headers.first (Headers.either headers "x-span-id" "x-spanid");
     parentSpanId :=
       Headers.first (Headers.either headers "x-parent-span-id" "x-parent-spanid");
     traceFlags :=
       Headers.first (Headers.either headers "tracestate" "x-tracestate") |}.

(** What a W3C [traceparent] value with four parts or more yields. *)
Definition parsedTrace (traceparent : string) : TraceContext :=
  let parts := Str.split "-" traceparent in
  {| traceId := parts !! 1; spanId := None;
     parentSpanId := parts !! 2; traceFlags := parts !! 3 |}.

Definition x_traceparent_only : gmap string header :=
  <["x-traceparent" := HStr "00-4bf92f35-00f067aa-01"]>
    (<["x-trace-id" := HStr "t-1"]>
       (<["x-span-id" := HStr "s-1"]> ∅)).

Definition w3c_headers : gmap string header :=
  <["traceparent" := HStr "00-4bf92f3577b34da6a3ce929d0e0e4736-00f067aa0ba902b7-01"]> ∅.

Definition sampleRuntime : JsRuntime :=
  {| JSON_stringify := fun _ => "{}"; String_of := fun _ => "[object Object]" |}.

(** [`[${label}]`] *)
Definition bracket (label : string) : string := "[" +:+ label +:+ "]".

(** The message [m] formatted under the label [L]. *)
Definition formatUnder `{JsRuntime} (L m : string) : string :=
  Logger.formatMessage (VStr m) (Some (<["context" := VStr L]> ∅)).

(** One invocation of a logging operation of [LoggerService]. *)
Inductive LogCall : Type :=
| CallLog (message : value) (context : option string)
| CallError (message : value) (meta : option (list (string * value)))
            (context : option string)
| CallWarn (message : value) (metaOrContext : option MetaOrContext)
           (context : option string)
| CallDebug (message : value) (context : option string)
| CallVerbose (message : value) (context : option string)
| CallInfo (message : value) (meta : option (list (string * value)))
           (context : option string)
| CallFatal (message : value) (context : option string).

Definition perform `{JsRuntime} (this : LoggerService) (call : LogCall)
           (site : CallSite) (w : World) : World :=
  match call with
  | CallLog message context => Logger.log this message context site w
  | CallError message meta context => Logger.error this message meta context site w
  | CallWarn message metaOrContext context =>
      Logger.warn this message metaOrContext context site w
  | CallDebug message context => Logger.debug this message context site w
  | CallVerbose message context => Logger.verbose this message context site w
  | CallInfo message meta context => Logger.info this message meta context site w
  | CallFatal message context => Logger.fatal this message context site w
  end.

(** The fields of the record handed to the engine last. *)
Definition lastFields (w : World) : record :=
  match last (emitted w) with
  | Some call => ec_fields call
  | None => ∅
  end.

(** A logger as the module wires it: context service injected, no label. *)
Definition moduleLogger : LoggerService :=
  {| lg_context := None; lg_contextService := true |}.

Definition freshWorld (store : record) : World :=
  {| cls := store; emitted := []; stackWalks := 0 |}.

(** A stack whose first frame past the logger is a method of a class. *)
Definition serviceStack : string :=
  "Error
    at getCallerContext (/app/dist/logger/logger.context.js:120:17)
    at LoggerService.getAutoContext (/app/dist/logger/logger.service.js:141:26)
    at LoggerService.debug (/app/dist/logger/logger.service.js:300:34)
    at UserService.create (/app/dist/user/user.service.js:22:21)
    at processTicksAndRejections (node:internal/process/task_queues:95:5)".

(** A stack with plain functions only: no frame has the shape looked for. *)
Definition functionStack : string :=
  "Error
    at getCallerContext (/app/dist/logger/logger.context.js:120:17)
    at LoggerService.getAutoContext (/app/dist/logger/logger.service.js:141:26)
    at LoggerService.debug (/app/dist/logger/logger.service.js:300:34)
    at handler (/app/dist/main.js:10:5)
    at processTicksAndRejections (node:internal/process/task_queues:95:5)".

Definition siteOf (stack : string) : CallSite :=
  {| cs_stack := Some stack; cs_span := None |}.

(** Log calls made one after the other in the same scope. *)
Definition performAll `{JsRuntime} (this : LoggerService)
           (calls : list (LogCall * CallSite)) (w : World) : World :=
  fold_left (fun w cs => perform this cs.1 cs.2 w) calls w.

(** Binding [k] to [v] in a member list: in place when bound, else last. *)
Fixpoint set_assoc (k : string) (v : value) (l : list (string * value))
  : list (string * value) :=
  match l with
  | [] => [(k, v)]
  | (k', v') :: r =>
      if String.eqb k' k then (k, v) :: r else (k', v') :: set_assoc k v r
  end.

(** The same error with another [loggable] flag. *)
Definition withLoggable (b : bool) (e : value) : value :=
  match e with
  | VError n m s c ms => VError n m s c (set_assoc "loggable" (VBool b) ms)
  | _ => e
  end.

(** A [setTransportIfUnset] that does what its name says. *)
Definition tagIfUnset (transport : string) (e : value) : value :=
  match e with
  | VError n m s c ms =>
      if Js.truthy (Js.prop "transport" e) then e
      else VError n m s c (set_assoc "transport" (VStr transport) ms)
  | _ => e
  end.

(** A domain error as the error package builds one. *)
Definition userNotFound (loggable : bool) : value :=
  VError "BaseError" "User not found"
         (Some "BaseError: User not found
    at UserService.find (/app/dist/user/user.service.js:31:13)")
         VUndefined
         [("code", VStr "USER_NOT_FOUND"); ("statusCode", VNum 404);
          ("loggable", VBool loggable);
          ("setTransportIfUnset", VFun "setTransportIfUnset");
          ("getClientSafeError", VFun "getClientSafeError");
          ("getRpcError", VFun "getRpcError")].

Definition httpHost : ArgumentsHost :=
  {| h_type := Http; h_url := "/users/42"; h_now := "2024-05-01T10:00:00.000Z";
     h_newErrorStack := None |}.




(** A store as the HTTP interceptor leaves it. *)
Definition httpStore : record :=
  <["requestId" := VStr "r1"]> (<["component" := VStr "http"]> ∅).

Definition billingMeta : list (string * value) :=
  [("service", VStr "Billing"); ("method", VStr "charge")].

(** What the metadata loop of [info] keeps true on http. *)
Definition httpClean (r : record) : Prop :=
  r !! "component" = Some (VStr "http")
  /\ r !! "service" = None /\ r !! "method" = None.

(** ** logger.context: status and timing categories *)

Definition getStatusCategory (statusCode : Z) : string :=
  if ((200 <=? statusCode) && (statusCode <? 300))%Z then "2xx"
  else if ((300 <=? statusCode) && (statusCode <? 400))%Z then "3xx"
  else if ((400 <=? statusCode) && (statusCode <? 500))%Z then "4xx"
  else if (500 <=? statusCode)%Z then "5xx"
  else "unknown".

Definition getTimeBucket (durationMs : Z) : string :=
  if (durationMs <? 100)%Z then "0-100ms"
  else if (durationMs <? 500)%Z then "100-500ms"
  else if (durationMs <? 1000)%Z then "500-1000ms"
  else if (durationMs <? 5000)%Z then "1-5s"
  else "5s+".

(** ** The HTTP interceptor: what [intercept] does before the handler runs *)

Definition DEFAULT_SKIP_PATHS : list string := ["/health"; "/metrics"].

Record HttpLoggingInterceptorOptions : Type := {
  logRequestBody : option bool;
  logResponseBody : option bool;
  logQuery : option bool;
  logHeaders : option bool;
  maxBodyLength : option Z;
  skipPaths : option (list string);
  skipMethods : option (list string);
}.

(** [request.user], as the interceptor reads it *)
Record RequestUser : Type := {
  u_id : option string;
  u_userId : option string;
  u_role : option string;
}.

Record HttpRequest : Type := {
  rq_path : string;
  rq_method : string;
  rq_headers : gmap string header;
  rq_user : option RequestUser;
}.

(** What [uuid()] returns at its two call sites in [intercept]. *)
Record Uuids : Type := {
  uuid_request : string;
  uuid_span : string;
}.

Module HttpInterceptor.

(** [a || b] on [string | undefined] *)
Definition or (a b : option string) : option string :=
  match a with
  | Some s => if Str.nonempty s then a else b
  | None => b
  end.

(** [a || b] whose second operand is a string *)
Definition orElse (a : option string) (b : string) : string :=
  match a with
  | Some s => if Str.nonempty s then s else b
  | None => b
  end.

Definition truthy (a : option string) : bool :=
  match a with Some s => Str.nonempty s | None => false end.

(** The test that makes [intercept] return [next.handle()] at once. *)
Definition skipped (options : HttpLoggingInterceptorOptions)
           (request : HttpRequest) : bool :=
  let skipPaths := default DEFAULT_SKIP_PATHS (skipPaths options) in
  let skipMethods := default [] (skipMethods options) in
  existsb (fun path => Str.includes (rq_path request) path) skipPaths
  || existsb (String.eqb (rq_method request)) skipMethods.

Definition requestId (request : HttpRequest) (uuids : Uuids) : string :=
  let requestIdHeader :=
    Headers.either (rq_headers request) "x-request-id" "x-correlation-id" in
  let requestIdStr := Headers.first requestIdHeader in
  orElse requestIdStr (uuid_request uuids).

Definition finalTraceId (request : HttpRequest) (activeSpan : option SpanContext)
  : option string :=
  let traceContext := extractTraceContext (rq_headers request) in
  let otelTraceId := activeSpan ≫= sc_traceId in
  or otelTraceId (traceId traceContext).

Definition finalSpanId (request : HttpRequest) (activeSpan : option SpanContext)
           (uuids : Uuids) : string :=
  let traceContext := extractTraceContext (rq_headers request) in
  let otelSpanId := activeSpan ≫= sc_spanId in
  orElse (or otelSpanId (spanId traceContext)) (uuid_span uuids).

Definition finalParentSpanId (request : HttpRequest)
           (activeSpan : option SpanContext) : option string :=
  let traceContext := extractTraceContext (rq_headers request) in
  let otelParentSpanId :=
    match activeSpan with
    | Some _ => parentSpanId traceContext
    | None => None
    end in
  or otelParentSpanId (parentSpanId traceContext).

(** The [response.setHeader] calls, in order. *)
Definition responseHeaders (request : HttpRequest)
           (activeSpan : option SpanContext) (uuids : Uuids)
  : list (string * string) :=
  let finalSpanId := finalSpanId request activeSpan uuids in
  [("x-request-id", requestId request uuids)]
  ++ match finalTraceId request activeSpan with
     | Some finalTraceId =>
         if Str.nonempty finalTraceId then
           [("x-trace-id", finalTraceId);
            ("traceparent", "00-" +:+ finalTraceId +:+ "-" +:+ finalSpanId +:+ "-01")]
         else []
     | None => []
     end
  ++ [("x-span-id", finalSpanId)].

(** [Object.entries(loggerCtx)] *)
Definition loggerCtx (request : HttpRequest) (activeSpan : option SpanContext)
           (uuids : Uuids) : list (string * value) :=
  let traceContext := extractTraceContext (rq_headers request) in
  let userId :=
    match rq_user request with
    | Some user => or (u_id user) (u_userId user)
    | None => None
    end in
  let userRole := rq_user request ≫= u_role in
  [("requestId", VStr (requestId request uuids));
   ("userId", Js.ofString userId);
   ("userRole", Js.ofString userRole);
   ("component", VStr "http");
   ("traceId", Js.ofString (finalTraceId request activeSpan));
   ("spanId", VStr (finalSpanId request activeSpan uuids));
   ("parentSpanId", Js.ofString (finalParentSpanId request activeSpan))]
  ++ (if truthy (traceFlags traceContext)
      then [("traceFlags", Js.ofString (traceFlags traceContext))] else []).

(** The loop that copies [loggerCtx] into the CLS store. *)
Definition setContext (entries : list (string * value)) (store : record) : record :=
  fold_left (fun st kv => if Js.is_undefined kv.2 then st else Cls.set kv.1 kv.2 st)
            entries store.

(** [intercept], up to the point where the request is logged: [None]
    when the request is skipped, else the headers set on the response
    and the store of the scope. *)
Definition prepare (options : HttpLoggingInterceptorOptions) (request : HttpRequest)
           (activeSpan : option SpanContext) (uuids : Uuids) (store : record)
  : option (list (string * string) * record) :=
  if skipped options request then None
  else Some (responseHeaders request activeSpan uuids,
             setContext (loggerCtx request activeSpan uuids) store).

End HttpInterceptor.

(** ** Auxiliary definitions for the further properties *)

(** The engine method each operation calls. *)
Definition levelOf (call : LogCall) : Level :=
  match call with
  | CallLog _ _ | CallInfo _ _ _ => LInfo
  | CallError _ _ _ => LError
  | CallWarn _ _ _ => LWarn
  | CallDebug _ _ => LDebug
  | CallVerbose _ _ => LTrace
  | CallFatal _ _ => LFatal
  end.

(** The label a caller passes explicitly ([log] rewrites its own). *)
Definition explicitLabel (call : LogCall) : option string :=
  match call with
  | CallLog _ _ => None
  | CallWarn _ (Some (Context c)) context =>
      if Str.nonempty c then Some c else context
  | CallError _ _ context | CallWarn _ _ context | CallDebug _ context
  | CallVerbose _ context | CallInfo _ _ context | CallFatal _ context => context
  end.

(** The message of the call made last. *)
Definition lastMessage (w : World) : string :=
  match last (emitted w) with
  | Some call => ec_msg call
  | None => ""
  end.

(** The message text of a caught value, as the generic branch reads it. *)
Definition messageOf `{JsRuntime} (exception : value) : string :=
  match exception with
  | VError _ m _ _ _ => m
  | _ => String_of exception
  end.

Definition noOptions : HttpLoggingInterceptorOptions :=
  {| logRequestBody := None; logResponseBody := None; logQuery := None;
     logHeaders := None; maxBodyLength := None; skipPaths := None;
     skipMethods := None |}.

Definition sampleUuids : Uuids :=
  {| uuid_request := "6f1c2a3e-0000-4000-8000-000000000001";
     uuid_span := "6f1c2a3e-0000-4000-8000-000000000002" |}.

Definition sampleRequest : HttpRequest :=
  {| rq_path := "/users/42"; rq_method := "GET";
     rq_headers :=
       <["traceparent" := HStr "00-4bf92f3577b34da6a3ce929d0e0e4736-00f067aa0ba902b7-01"]>
         (<["x-request-id" := HStr "req-7"]> ∅);
     rq_user := Some {| u_id := Some "u1"; u_userId := None; u_role := Some "admin" |} |}.

(** ** The base fields of every record *)

(** What the logger reads from the process when it is constructed. *)
Record Process : Type := {
  p_env : gmap string string;        (* process.env *)
  p_hostname : string;               (* os.hostname() *)
  p_pid : Z;                         (* process.pid *)
  p_appVersion : value;              (* getAppVersion() *)
  p_packageVersion : option value;   (* the version in ./package.json;
                                        None when reading or parsing throws *)
}.

Module Infra.

(** [process.env.NAME] *)
Definition env (proc : Process) (name : string) : value :=
  Js.ofString (p_env proc !! name).

Definition getInfrastructureContext (proc : Process) : record :=
  <["deployment" := env proc "DEPLOYMENT_ID"]>
    (<["build" := Js.or (env proc "BUILD_NUMBER") (env proc "CI_BUILD_NUMBER")]>
       (<["commit" := Js.or (Js.or (env proc "GIT_COMMIT") (env proc "COMMIT_SHA"))
                            (env proc "GITHUB_SHA")]>
          (<["version" := p_appVersion proc]>
             (<["zone" := Js.or (env proc "AWS_AVAILABILITY_ZONE") (env proc "GCP_ZONE")]>
                (<["region" := Js.or (Js.or (env proc "AWS_REGION") (env proc "REGION"))
                                     (env proc "GCP_REGION")]>
                   (<["namespace" := Js.or (env proc "NAMESPACE")
                                           (env proc "KUBERNETES_NAMESPACE")]>
                      (<["node" := env proc "NODE_NAME"]>
                         (<["container" := env proc "CONTAINER_ID"]>
                            (<["pod" := env proc "POD_NAME"]>
                               (<["hostname" := VStr (p_hostname proc)]> ∅)))))))))).

(** [initializePackageVersion()] *)
Definition initializePackageVersion (serviceVersion : option string)
           (proc : Process) : value :=
  if Js.truthy (Js.ofString serviceVersion) then Js.ofString serviceVersion
  else
    match p_packageVersion proc with
    | Some version => Js.or (Js.or version (p_appVersion proc)) (VStr "unknown")
    | None => Js.or (p_appVersion proc) (VStr "unknown")
    end.

(** [getPackageVersion()] *)
Definition getPackageVersion (packageVersion : value) : value :=
  Js.or packageVersion (VStr "unknown").

(** [buildInfrastructureContext()], for the options [environment] (the
    string the enumeration stands for), [appName] and [serviceVersion];
    [DEVELOPMENT] is the string of [Environments.DEVELOPMENT]. *)
Definition buildInfrastructureContext (DEVELOPMENT : string)
           (environment appName serviceVersion : option string)
           (proc : Process) : record :=
  let packageVersion := initializePackageVersion serviceVersion proc in
  let infra := getInfrastructureContext proc in
  let baseContext : record :=
    <["version" := getPackageVersion packageVersion]>
      (<["hostname" := VStr (p_hostname proc)]>
         (<["pid" := VNum (p_pid proc)]>
            (<["app" := Js.or (Js.or (Js.ofString appName) (env proc "APP_NAME"))
                              (VStr "nestjs-app")]>
               (<["env" := Js.or (Js.or (Js.ofString environment) (env proc "NODE_ENV"))
                                 (VStr DEVELOPMENT)]> ∅)))) in
  (* { ...baseContext, ...infra } *)
  infra ∪ baseContext.

End Infra.

Definition sampleProcess : Process :=
  {| p_env := <["POD_NAME" := "api-7"]> ∅; p_hostname := "host-1"; p_pid := 4211;
     p_appVersion := VStr "1.4.0"; p_packageVersion := Some (VStr "1.4.0") |}.

(** Every field but the three an [Error] message adds is valid. *)
Definition validFields (fields : record) : Prop :=
  forall (k : string) (v : value),
    fields !! k = Some v ->
    k <> "errorName" -> k <> "stack" -> k <> "cause" ->
    isValidContextValue v (Some k) = true.

(** What the resolver accepts as a caller. *)
Definition acceptable (service : string) (method : option string) : Prop :=
  Str.nonempty service = true
  /\ (service ∉ INTERNAL_CLASSES)
  /\ Str.includes service "Internal" = false
  /\ Str.includes service "Operator" = false
  /\ (forall m, method = Some m -> Str.nonempty m = true ->
                 m ∈ INTERNAL_METHODS -> m = "constructor").

(** The message argument of an invocation. *)
Definition callMessage (call : LogCall) : value :=
  match call with
  | CallLog message _ | CallError message _ _ | CallWarn message _ _
  | CallDebug message _ | CallVerbose message _ | CallInfo message _ _
  | CallFatal message _ => message
  end.

(** The operations that take no metadata. *)
Definition bare (call : LogCall) : bool :=
  match call with
  | CallLog _ _ | CallDebug _ _ | CallVerbose _ _ | CallFatal _ _ => true
  | _ => false
  end.

(** ** Lines and white space, said without [split] and [trim] *)

(** The lines of a text, joined by line feeds. *)
Fixpoint joinLines (lines : list string) : string :=
  match lines with
  | [] => ""
  | [line] => line
  | line :: rest => line +:+ String Str.LF (joinLines rest)
  end.

(** No line feed anywhere in [s]. *)
Definition lineFeedFree (s : string) : Prop :=
  forall a b, s <> a +:+ String Str.LF b.

(** [s] is white space only. *)
Inductive blank : string -> Prop :=
| blank_nil : blank ""
| blank_cons (token rest : string) :
    In token Str.WHITE_SPACE -> blank rest -> blank (token +:+ rest).

(** No white space at either end of [s]. *)
Definition tight (s : string) : Prop :=
  forall token rest,
    In token Str.WHITE_SPACE -> s <> token +:+ rest /\ s <> rest +:+ token.

(** [line] is [raw] without the white space around it. *)
Definition strippedTo (raw line : string) : Prop :=
  exists pre post,
    blank pre /\ blank post /\ raw = pre +:+ line +:+ post /\ tight line.

(** A character of one, two or three bytes. *)
Definition short (token : string) : Prop :=
  match token with
  | String _ "" | String _ (String _ "") | String _ (String _ (String _ "")) =>
      True
  | _ => False
  end.

Section Drop.
Variable w : string -> bool.

(** Characters that [w] accepts, and nothing else. *)
Inductive blankW : string -> Prop :=
| blankW_nil : blankW ""
| blankW_cons (token rest : string) :
    w token = true -> blankW rest -> blankW (token +:+ rest).

(** No character that [w] accepts at the head of [s]. *)
Definition headFree (s : string) : Prop :=
  forall token rest, short token -> w token = true -> s <> token +:+ rest.

End Drop.

(** A stack with CR LF line ends, a tab, a blank line of no-break spaces
    and an ideographic space after the last frame. *)
Definition raggedStack : string :=
  let CR := Str.bytes [13%N] in
  let LF := Str.bytes [10%N] in
  "TypeError: boom" +:+ CR +:+ LF
  +:+ "    at UserService.create (user.service.js:22:21)  " +:+ CR +:+ LF
  +:+ Str.bytes [194; 160; 194; 160]%N +:+ LF
  +:+ Str.bytes [9%N] +:+ "at main (main.js:3:1)" +:+ Str.bytes [227; 128; 128]%N
  +:+ LF.

(** * Properties *)

(** ** The embedding on concrete inputs *)

Example split_hyphens : Str.split "-" "00-ab--01" = ["00"; "ab"; ""; "01"].
Proof. reflexivity. Qed.

Example white_space_bytes :
  Str.WHITE_SPACE
  = List.map Str.bytes
      [ [9]; [10]; [11]; [12]; [13]; [32];
        [194; 160];
        [225; 154; 128];
        [226; 128; 128]; [226; 128; 129]; [226; 128; 130]; [226; 128; 131];
        [226; 128; 132]; [226; 128; 133]; [226; 128; 134]; [226; 128; 135];
        [226; 128; 136]; [226; 128; 137]; [226; 128; 138];
        [226; 128; 168]; [226; 128; 169]; [226; 128; 175];
        [226; 129; 159];
        [227; 128; 128];
        [239; 187; 191] ]%N.
Proof. vm_compute. reflexivity. Qed.

Example trim_wide :
  Str.trim (Str.bytes [194; 160; 9]%N +:+ "at A.b" +:+ Str.bytes [226; 128; 168; 32]%N)
  = "at A.b".
Proof. vm_compute. reflexivity. Qed.

Example trim_frame : Str.trim "    at A.b (x.js:1:1)  " = "at A.b (x.js:1:1)".
Proof. reflexivity. Qed.

Example stack_lines :
  formatStackTrace "Error: boom
    at A.b (x.js:1:1)

    at C.d (y.js:2:2)"
  = ["Error: boom"; "at A.b (x.js:1:1)"; "at C.d (y.js:2:2)"].
Proof. reflexivity. Qed.

Example caller_of_service_stack :
  Caller.getCallerContext (Some serviceStack)
  = Caller.found "UserService" (Some "create").
Proof. vm_compute. reflexivity. Qed.

Example caller_of_function_stack :
  Caller.getCallerContext (Some functionStack) = Caller.empty.
Proof. vm_compute. reflexivity. Qed.

Example caller_of_constructor :
  Caller.inspect "    at new OrdersService (/app/dist/orders.js:9:5)"
  = Some (Caller.found "OrdersService" (Some "constructor")).
Proof. vm_compute. reflexivity. Qed.

Example caller_skips_vendor_frames :
  Caller.inspect "    at Subject.next (/app/node_modules/rxjs/Subject.js:1:1)" = None.
Proof. vm_compute. reflexivity. Qed.

Example caller_skips_internal_method :
  Caller.inspect "    at UserService.forEach (/app/dist/user.js:1:1)" = None.
Proof. vm_compute. reflexivity. Qed.

Example caller_async_frame :
  Caller.inspect "    at async PaymentController.pay (/app/dist/pay.js:4:9)"
  = Some (Caller.found "PaymentController" (Some "pay")).
Proof. vm_compute. reflexivity. Qed.

Example sanitize_headers :
  sanitizeObject (<["Authorization" := VStr "Bearer x"]> (<["accept" := VStr "*"]> ∅))
                 SENSITIVE_KEYS
  = <["Authorization" := VStr "[REDACTED]"]> (<["accept" := VStr "*"]> ∅).
Proof. vm_compute. reflexivity. Qed.

Example user_not_found_is_base_error :
  isBaseError (userNotFound true) = true
  /\ isBaseError (VObj [("code", VStr "E"); ("loggable", VBool false);
                        ("setTransportIfUnset", VFun "f")]) = false.
Proof. split; reflexivity. Qed.


(** ** Prefixes *)

Section Prefix.

Lemma prefix_append (p s : string) : String.prefix p (p +:+ s) = true.
Proof.
  induction p as [|c p IH]; simpl.
  - destruct s; reflexivity.
  - destruct (ascii_dec c c); [exact IH | congruence].
Qed.

Lemma prefix_append_l (p q s : string) :
  String.prefix (p +:+ q) s = true -> String.prefix p s = true.
Proof.
  revert s. induction p as [|c p IH]; intros s H.
  - destruct s; reflexivity.
  - destruct s as [|d s]; simpl in *; [discriminate|].
    destruct (ascii_dec c d); [eauto | discriminate].
Qed.

Lemma append_assoc (a b c : string) : (a +:+ b) +:+ c = a +:+ (b +:+ c).
Proof.
  induction a as [|x a IH]; [reflexivity|].
  change (String x ((a +:+ b) +:+ c) = String x (a +:+ b +:+ c)).
  f_equal. exact IH.
Qed.

End Prefix.

(** ** The context accessor never writes [undefined] (C10) *)

Section ContextAccessor.
Import LoggerContextService.

Lemma seed_cons (kv : string * value) (context : list (string * value))
      (store : record) :
  seed (kv :: context) store = seed context (set kv.1 kv.2 store).
Proof. reflexivity. Qed.

Lemma set_lookup_undefined (key k : string) (v : value) (store : record) :
  set key v store !! k = Some VUndefined -> store !! k = Some VUndefined.
Proof.
  unfold set, Cls.set. destruct v; simpl; try done;
    (destruct (decide (key = k)) as [->|Hne];
     [rewrite lookup_insert_eq; intros [=] | by rewrite lookup_insert_ne]).
Qed.

Lemma seed_lookup_undefined (context : list (string * value)) :
  forall (store : record) (k : string),
    seed context store !! k = Some VUndefined -> store !! k = Some VUndefined.
Proof.
  induction context as [|kv context IH]; intros store k H; [exact H|].
  rewrite seed_cons in H. apply IH in H. eapply set_lookup_undefined, H.
Qed.

Lemma seed_skips_undefined (context : list (string * value)) :
  forall store : record,
    seed context store
    = seed (List.filter (fun kv => negb (Js.is_undefined kv.2)) context) store.
Proof.
  induction context as [|[k v] context IH]; intros store; [reflexivity|].
  rewrite seed_cons. simpl List.filter.
  destruct (Js.is_undefined v) eqn:Hv; simpl negb; cbv iota.
  - unfold set. simpl. rewrite Hv. apply IH.
  - rewrite seed_cons. apply IH.
Qed.

End ContextAccessor.

(** C10. [set(key, undefined)] leaves the store as it is: nothing is
    written, nothing is cleared.  [run] seeds the store exactly as it
    would from the context with its undefined-valued entries left out.
    Hence a key bound to [undefined] after [set] or [run] was bound to
    [undefined] before: the accessor itself never stores [undefined]. *)
Theorem context_accessor_skips_undefined :
  forall (key : string) (v : value) (context : list (string * value))
         (store : record),
    LoggerContextService.set key VUndefined store = store
    /\ LoggerContextService.seed context store
       = LoggerContextService.seed
           (List.filter (fun kv => negb (Js.is_undefined kv.2)) context) store
    /\ (forall A (callback : record -> A),
          LoggerContextService.run context callback store
          = callback (LoggerContextService.seed
                        (List.filter (fun kv => negb (Js.is_undefined kv.2)) context)
                        store))
    /\ (forall k : string,
          LoggerContextService.set key v store !! k = Some VUndefined ->
          store !! k = Some VUndefined)
    /\ (forall k : string,
          LoggerContextService.seed context store !! k = Some VUndefined ->
          store !! k = Some VUndefined).
Proof.
  intros key v context store. split; [reflexivity|].
  split; [apply seed_skips_undefined|].
  split.
  - intros A callback. unfold LoggerContextService.run.
    f_equal. apply seed_skips_undefined.
  - split; intros k.
    + apply set_lookup_undefined.
    + apply seed_lookup_undefined.
Qed.

(** ** Trace headers (C8) *)


(** C8, as stated, fails: with no [traceparent] header but an
    [x-traceparent] one, the discrete headers are not consulted. *)
Lemma traceparent_absent_no_fallback :
  ~ (forall headers : gmap string header,
       headers !! "traceparent" = None ->
       traceId (extractTraceContext headers)
       = Headers.first (headers !! "x-trace-id")
       /\ spanId (extractTraceContext headers)
          = Headers.first (headers !! "x-span-id")).
Proof.
  intros H. specialize (H x_traceparent_only).
  destruct H as [H _]; [reflexivity|].
  vm_compute in H. discriminate H.
Qed.

Lemma split_length_nonempty (tp : string) :
  4 <= List.length (Str.split "-" tp) -> Str.nonempty tp = true.
Proof. destruct tp; simpl; [lia | reflexivity]. Qed.

Lemma extract_of_traceparent (headers : gmap string header) (tp : string) :
  Headers.either headers "traceparent" "x-traceparent" = Some (HStr tp) ->
  4 <= List.length (Str.split "-" tp) ->
  extractTraceContext headers = parsedTrace tp.
Proof.
  intros He Hlen. unfold extractTraceContext. rewrite He.
  rewrite (split_length_nonempty _ Hlen).
  destruct (Nat.leb_spec 4 (List.length (Str.split "-" tp))); [reflexivity | lia].
Qed.

(** C8, amended.  A single-valued [traceparent] with at least four
    hyphen-delimited parts gives its second, third and fourth part as
    [traceId], [parentSpanId] and [traceFlags] (all three defined, no
    [spanId]); without a [traceparent] header the same is read from an
    [x-traceparent] header; the discrete headers are the fallback when
    both are absent. *)
Theorem extractTraceContext_spec :
  forall (headers : gmap string header),
    (forall tp : string,
        headers !! "traceparent" = Some (HStr tp) ->
        4 <= List.length (Str.split "-" tp) ->
        extractTraceContext headers = parsedTrace tp
        /\ is_Some (traceId (parsedTrace tp))
        /\ is_Some (parentSpanId (parsedTrace tp))
        /\ is_Some (traceFlags (parsedTrace tp)))
    /\ (forall tp : string,
          headers !! "traceparent" = None ->
          headers !! "x-traceparent" = Some (HStr tp) ->
          4 <= List.length (Str.split "-" tp) ->
          extractTraceContext headers = parsedTrace tp)
    /\ (headers !! "traceparent" = None ->
        headers !! "x-traceparent" = None ->
        extractTraceContext headers = discreteTrace headers).
Proof.
  intros headers. split; [|split].
  - intros tp Htp Hlen. split.
    + apply extract_of_traceparent; [|exact Hlen].
      unfold Headers.either. rewrite Htp. simpl.
      by rewrite (split_length_nonempty _ Hlen).
    + unfold parsedTrace; simpl.
      repeat split; apply lookup_lt_is_Some; lia.
  - intros tp Hnone Htp Hlen. apply extract_of_traceparent; [|exact Hlen].
    unfold Headers.either. rewrite Hnone. simpl. exact Htp.
  - intros H1 H2. unfold extractTraceContext, Headers.either at 1.
    rewrite H1. simpl. rewrite H2. reflexivity.
Qed.


Lemma extractTraceContext_spec_witness :
  extractTraceContext w3c_headers
  = {| traceId := Some "4bf92f3577b34da6a3ce929d0e0e4736"; spanId := None;
       parentSpanId := Some "00f067aa0ba902b7"; traceFlags := Some "01" |}
  /\ extractTraceContext (∅ : gmap string header) = discreteTrace ∅.
Proof.
  split.
  - refine (proj1 (proj1 (extractTraceContext_spec w3c_headers)
                     "00-4bf92f3577b34da6a3ce929d0e0e4736-00f067aa0ba902b7-01" _ _)).
    + reflexivity.
    + vm_compute. lia.
  - apply (proj2 (proj2 (extractTraceContext_spec ∅))); reflexivity.
Defined.

(** ** Message labels (C5) *)


(** C5, as stated, fails: a message that starts with [[L]] but not with
    [[L]] and a space is left as it is, not prefixed. *)
Lemma prefix_without_space_not_prefixed :
  ~ (forall (RT : JsRuntime) (m L : string),
       (Str.startsWith m (bracket L +:+ " ") = true -> formatUnder L m = m)
       /\ (Str.startsWith m (bracket L +:+ " ") = false ->
           formatUnder L m = bracket L +:+ " " +:+ m)).
Proof.
  intros H. destruct (H sampleRuntime "[A]x" "A") as [_ H2].
  specialize (H2 eq_refl). vm_compute in H2. discriminate H2.
Qed.

Section FormatMessage.
Context `{RT : JsRuntime}.

Lemma formatMessage_labelled (m L : string) (context : record) :
  context !! "context" = Some (VStr L) ->
  Str.nonempty L = true ->
  Logger.formatMessage (VStr m) (Some context)
  = if Str.startsWith m (bracket L) then m else bracket L +:+ " " +:+ m.
Proof.
  intros Hc HL. unfold Logger.formatMessage, Js.field.
  rewrite Hc. simpl. rewrite HL. reflexivity.
Qed.

Lemma formatMessage_unlabelled (m : string) (context : record) :
  Js.truthy (Js.field "context" context) = false ->
  Logger.formatMessage (VStr m) (Some context) = m.
Proof.
  intros Hc. unfold Logger.formatMessage.
  destruct (Js.field "context" context) as [| | | |s| | | |]; try reflexivity.
  simpl in Hc. rewrite Hc. reflexivity.
Qed.

End FormatMessage.

(** C5, amended.  Under a non-empty label [L] a message that starts with
    [[L]] (so, in particular, one that starts with [[L]] and a space) is
    returned unchanged, and any other message gets [[L]] and a space in
    front; formatting is therefore idempotent.  The same holds for any
    other non-empty label [L'].  Without a label, or under the empty
    one, the message is returned unchanged. *)
Theorem formatMessage_prefix_spec :
  forall (RT : JsRuntime) (m L : string) (context : record),
    context !! "context" = Some (VStr L) ->
    Str.nonempty L = true ->
    let f := fun s => Logger.formatMessage (VStr s) (Some context) in
    (Str.startsWith m (bracket L) = true -> f m = m)
    /\ (Str.startsWith m (bracket L +:+ " ") = true -> f m = m)
    /\ (Str.startsWith m (bracket L) = false -> f m = bracket L +:+ " " +:+ m)
    /\ f (f m) = f m
    /\ (forall L' : string,
          Str.nonempty L' = true ->
          Str.startsWith m (bracket L') = false ->
          Logger.formatMessage (VStr m) (Some (<["context" := VStr L']> context))
          = bracket L' +:+ " " +:+ m)
    /\ Logger.formatMessage (VStr m) (Some (<["context" := VStr ""]> context)) = m
    /\ Logger.formatMessage (VStr m) (Some (delete "context" context)) = m.
Proof.
  intros RT m L context Hc HL f.
  assert (Hf : forall s, f s = if Str.startsWith s (bracket L) then s
                               else bracket L +:+ " " +:+ s).
  { intros s. apply formatMessage_labelled; assumption. }
  repeat split.
  - intros Hp. by rewrite Hf, Hp.
  - intros Hp. rewrite Hf.
    unfold Str.startsWith in *. by rewrite (prefix_append_l _ _ _ Hp).
  - intros Hp. by rewrite Hf, Hp.
  - rewrite (Hf m). destruct (Str.startsWith m (bracket L)) eqn:Hp.
    + by rewrite Hf, Hp.
    + rewrite Hf. unfold Str.startsWith. by rewrite prefix_append.
  - intros L' HL' Hp.
    rewrite (formatMessage_labelled m L'); [by rewrite Hp | | exact HL'].
    apply lookup_insert_eq.
  - apply formatMessage_unlabelled. unfold Js.field.
    by rewrite lookup_insert_eq.
  - apply formatMessage_unlabelled. unfold Js.field.
    by rewrite lookup_delete_eq.
Qed.

Lemma formatMessage_prefix_spec_witness :
  Logger.formatMessage (RT := sampleRuntime) (VStr "[Users] created")
                       (Some (<["context" := VStr "Users"]> ∅))
  = "[Users] created".
Proof.
  refine (proj1 (proj2 (formatMessage_prefix_spec sampleRuntime "[Users] created"
                          "Users" (<["context" := VStr "Users"]> ∅) _ _)) _);
    reflexivity.
Defined.

(** ** Stack lines and causes (C7) *)

Section Trim.

Lemma append_cons (c : ascii) (r s : string) :
  String c r +:+ s = String c (r +:+ s).
Proof. reflexivity. Qed.

Lemma append_empty_r (s : string) : s +:+ "" = s.
Proof. induction s as [|c r IH]; [reflexivity|]. by rewrite append_cons, IH. Qed.

Lemma Str_rev_append (a b : string) : Str.rev (a +:+ b) = Str.rev b +:+ Str.rev a.
Proof.
  induction a as [|c r IH].
  - change ("" +:+ b) with b. simpl. by rewrite append_empty_r.
  - rewrite append_cons. simpl. by rewrite IH, append_assoc.
Qed.

Lemma Str_rev_involutive (s : string) : Str.rev (Str.rev s) = s.
Proof.
  induction s as [|c r IH]; [reflexivity|].
  simpl. by rewrite Str_rev_append, IH.
Qed.

Lemma short_rev (token : string) : short token -> short (Str.rev token).
Proof. by destruct token as [|a [|b [|c [|d t]]]]. Qed.

Lemma white_In (token : string) :
  Str.white token = true <-> In token Str.WHITE_SPACE.
Proof.
  unfold Str.white. rewrite existsb_exists. split.
  - intros [x [Hx Heq]]. apply String.eqb_eq in Heq. by subst.
  - intros H. exists token. split; [exact H | apply String.eqb_refl].
Qed.

Lemma white_short (token : string) : In token Str.WHITE_SPACE -> short token.
Proof.
  intros H. vm_compute in H.
  repeat (destruct H as [<-|H]; [exact I|]). contradiction.
Qed.

Lemma dropWhite_spec (w : string -> bool) (n : nat) :
  forall s, (String.length s <= n)%nat ->
    exists pre, blankW w pre /\ s = pre +:+ Str.dropWhite w s
                /\ headFree w (Str.dropWhite w s).
Proof.
  induction n as [|n IH]; intros s Hn.
  - destruct s; [|simpl in Hn; lia].
    exists "". repeat split; [constructor|].
    intros [|a t] rest Hs _; [contradiction | discriminate].
  - destruct s as [|c1 r1].
    { exists "". repeat split; [constructor|].
      intros [|a t] rest Hs _; [contradiction | discriminate]. }
    simpl in Hn. simpl Str.dropWhite.
    destruct (w (String c1 "")) eqn:H1.
    { destruct (IH r1 ltac:(lia)) as [pre [Hb [He Hf]]].
      exists (String c1 "" +:+ pre). split; [by constructor|].
      split; [|exact Hf]. rewrite append_cons. change ("" +:+ pre) with pre.
      rewrite append_cons. by rewrite <- He. }
    destruct r1 as [|c2 r2].
    { exists "". repeat split; [constructor|].
      intros [|a [|b t]] rest Hs Hw Heq; [contradiction| |discriminate].
      rewrite append_cons in Heq. injection Heq as -> _. congruence. }
    simpl in Hn.
    destruct (w (String c1 (String c2 ""))) eqn:H2.
    { destruct (IH r2 ltac:(lia)) as [pre [Hb [He Hf]]].
      exists (String c1 (String c2 "") +:+ pre). split; [by constructor|].
      split; [|exact Hf]. rewrite !append_cons. change ("" +:+ pre) with pre.
      by rewrite <- He. }
    destruct r2 as [|c3 r3].
    { exists "". repeat split; [constructor|].
      intros [|a [|b [|c t]]] rest Hs Hw Heq; try contradiction;
        rewrite !append_cons in Heq.
      - injection Heq as -> _. congruence.
      - injection Heq as -> -> _. congruence.
      - discriminate. }
    simpl in Hn.
    destruct (w (String c1 (String c2 (String c3 "")))) eqn:H3.
    { destruct (IH r3 ltac:(lia)) as [pre [Hb [He Hf]]].
      exists (String c1 (String c2 (String c3 "")) +:+ pre).
      split; [by constructor|].
      split; [|exact Hf]. rewrite !append_cons. change ("" +:+ pre) with pre.
      by rewrite <- He. }
    exists "". repeat split; [constructor|].
    intros [|a [|b [|c [|d t]]]] rest Hs Hw Heq; try contradiction;
      rewrite !append_cons in Heq.
    + injection Heq as -> _. congruence.
    + injection Heq as -> -> _. congruence.
    + injection Heq as -> -> -> _. congruence.
Qed.

Lemma blank_app (a b : string) : blank a -> blank b -> blank (a +:+ b).
Proof.
  intros Ha Hb. induction Ha as [|token rest Ht _ IH]; [exact Hb|].
  rewrite append_assoc. by constructor.
Qed.

Lemma blank_token (token : string) : In token Str.WHITE_SPACE -> blank token.
Proof.
  intros H. rewrite <- (append_empty_r token). constructor; [exact H | constructor].
Qed.

Lemma trimStart_spec (s : string) :
  exists pre, blank pre /\ s = pre +:+ Str.trimStart s
              /\ forall token rest,
                   In token Str.WHITE_SPACE -> Str.trimStart s <> token +:+ rest.
Proof.
  destruct (dropWhite_spec Str.white (String.length s) s (le_n _))
    as [pre [Hb [He Hf]]].
  exists pre. split; [|split; [exact He|]].
  - clear He Hf. induction Hb as [|token rest Ht _ IH]; [constructor|].
    constructor; [by apply white_In | exact IH].
  - intros token rest Ht. apply Hf; [by apply white_short | by apply white_In].
Qed.

Lemma trimEnd_spec (s : string) :
  exists post, blank post /\ s = Str.trimEnd s +:+ post
               /\ forall token rest,
                    In token Str.WHITE_SPACE -> Str.trimEnd s <> rest +:+ token.
Proof.
  unfold Str.trimEnd.
  destruct (dropWhite_spec (fun t => Str.white (Str.rev t))
                           (String.length (Str.rev s)) (Str.rev s) (le_n _))
    as [pre [Hb [He Hf]]].
  exists (Str.rev pre). split; [|split].
  - clear He Hf. induction Hb as [|token rest Ht _ IH]; [constructor|].
    rewrite Str_rev_append. apply blank_app; [exact IH|].
    apply blank_token. by apply white_In.
  - rewrite <- Str_rev_append, <- He. by rewrite Str_rev_involutive.
  - intros token rest Ht Heq.
    apply (Hf (Str.rev token) (Str.rev rest)).
    + by apply short_rev, white_short.
    + rewrite Str_rev_involutive. by apply white_In.
    + rewrite <- Str_rev_append, <- Heq. by rewrite Str_rev_involutive.
Qed.

Lemma trim_strippedTo (raw : string) : strippedTo raw (Str.trim raw).
Proof.
  unfold Str.trim.
  destruct (trimStart_spec raw) as [pre [Hpre [Hraw Hhead]]].
  destruct (trimEnd_spec (Str.trimStart raw)) as [post [Hpost [Hmid Htail]]].
  exists pre, post.
  split; [exact Hpre|]. split; [exact Hpost|]. split; [by rewrite <- Hmid|].
  intros token rest Ht. split.
  - intros Heq. apply (Hhead token (rest +:+ post) Ht).
    rewrite Hmid. by rewrite Heq, append_assoc.
  - by apply Htail.
Qed.

Lemma split_cons (s : string) :
  exists line rest, Str.split Str.LF s = line :: rest.
Proof.
  destruct s as [|c r]; simpl; [eauto|].
  destruct (Ascii.eqb c Str.LF); [eauto|].
  destruct (Str.split Str.LF r); eauto.
Qed.

Lemma joinLines_cons (c : ascii) (line : string) (rest : list string) :
  joinLines (String c line :: rest) = String c (joinLines (line :: rest)).
Proof. destruct rest; reflexivity. Qed.

Lemma joinLines_split (s : string) : joinLines (Str.split Str.LF s) = s.
Proof.
  induction s as [|c r IH]; [reflexivity|].
  simpl Str.split. destruct (Ascii.eqb c Str.LF) eqn:Hc.
  - apply Ascii.eqb_eq in Hc. subst c.
    destruct (split_cons r) as [line [rest Hr]]. rewrite Hr in IH |- *.
    change (joinLines ("" :: line :: rest))
      with (String Str.LF (joinLines (line :: rest))).
    by rewrite IH.
  - destruct (split_cons r) as [line [rest Hr]]. rewrite Hr in IH |- *.
    by rewrite joinLines_cons, IH.
Qed.

Lemma split_lineFeedFree (s : string) :
  Forall lineFeedFree (Str.split Str.LF s).
Proof.
  induction s as [|c r IH].
  - constructor; [|constructor]. intros [|a t] b; discriminate.
  - simpl Str.split. destruct (Ascii.eqb c Str.LF) eqn:Hc.
    + constructor; [|exact IH]. intros [|a t] b; discriminate.
    + destruct (split_cons r) as [line [rest Hr]]. rewrite Hr in IH |- *.
      inversion IH as [|? ? Hline Hrest]; subst.
      constructor; [|exact Hrest].
      intros [|a t] b Heq.
      * injection Heq as -> _. by rewrite Ascii.eqb_refl in Hc.
      * rewrite append_cons in Heq. injection Heq as _ Heq. by apply (Hline t b).
Qed.

Lemma strippedTo_lineFeedFree (raw line : string) :
  strippedTo raw line -> lineFeedFree raw -> lineFeedFree line.
Proof.
  intros [pre [post [_ [_ [-> _]]]]] Hraw a b ->.
  apply (Hraw (pre +:+ a) (b +:+ post)).
  by rewrite !append_assoc.
Qed.

Lemma formatStackTrace_split (stack : string) :
  exists raws cores : list string,
    stack = joinLines raws
    /\ Forall lineFeedFree raws
    /\ Forall2 strippedTo raws cores
    /\ formatStackTrace stack = List.filter Str.nonempty cores.
Proof.
  exists (Str.split Str.LF stack), (List.map Str.trim (Str.split Str.LF stack)).
  split; [by rewrite joinLines_split|].
  split; [apply split_lineFeedFree|]. split; [|reflexivity].
  induction (Str.split Str.LF stack) as [|raw raws IH]; constructor;
    [apply trim_strippedTo | exact IH].
Qed.

Lemma formatStackTrace_line (stack line : string) :
  In line (formatStackTrace stack) ->
  line <> "" /\ tight line /\ lineFeedFree line.
Proof.
  unfold formatStackTrace. rewrite filter_In, in_map_iff.
  intros [[raw [<- Hraw]] Hne]. split; [by destruct (Str.trim raw)|].
  pose proof (trim_strippedTo raw) as Hs. split.
  - by destruct Hs as [? [? [_ [_ [_ Ht]]]]].
  - apply (strippedTo_lineFeedFree raw); [exact Hs|].
    pose proof (split_lineFeedFree stack) as Hall.
    rewrite List.Forall_forall in Hall. by apply Hall.
Qed.

End Trim.

(** ** The logging operations, one engine call each *)

Section Operations.
Context `{RT : JsRuntime}.
Variable this : LoggerService.

Lemma resolveCaller_emitted (site : CallSite) (context : record) (w : World) :
  emitted (Logger.resolveCaller this site context w).2 = emitted w.
Proof.
  unfold Logger.resolveCaller, Logger.svc_set, with_cls, walked.
  repeat (case_match; simpl); reflexivity.
Qed.

Lemma getAutoContext_emitted (site : CallSite) (w : World) :
  emitted (Logger.getAutoContext this site w).2 = emitted w.
Proof.
  unfold Logger.getAutoContext.
  pose proof (resolveCaller_emitted site (Logger.svc_getAll this w) w) as H.
  destruct (Logger.resolveCaller this site (Logger.svc_getAll this w) w) as [c w1].
  exact H.
Qed.

Lemma getAutoContext_world (site : CallSite) (w : World) :
  (Logger.getAutoContext this site w).2
  = (Logger.resolveCaller this site (Logger.svc_getAll this w) w).2.
Proof.
  unfold Logger.getAutoContext.
  destruct (Logger.resolveCaller this site (Logger.svc_getAll this w) w) as [c w1].
  reflexivity.
Qed.

Lemma valid_key_not_context (k : string) (v : value) :
  isValidContextValue v (Some k) = true -> k <> "context".
Proof. intros H ->. simpl in H. discriminate H. Qed.

Lemma cleanLogData_context (r : record) : cleanLogData r !! "context" = None.
Proof.
  unfold cleanLogData. apply map_lookup_filter_None_2.
  destruct (r !! "context") as [v|]; [right | by left].
  intros x _ H. simpl in H. discriminate H.
Qed.

Lemma cleanLogData_lookup (r : record) (k : string) (v : value) :
  cleanLogData r !! k = Some v <->
  r !! k = Some v /\ isValidContextValue v (Some k) = true.
Proof. unfold cleanLogData. apply map_lookup_filter_Some. Qed.

Lemma mergeMeta_cons (k : string) (v : value) (meta : list (string * value))
      (r : record) :
  Logger.mergeMeta ((k, v) :: meta) r
  = Logger.mergeMeta meta
      (if isValidContextValue v (Some k) then <[k := v]> r else r).
Proof. reflexivity. Qed.

Lemma mergeMetaInfo_cons (k : string) (v : value) (meta : list (string * value))
      (r : record) :
  Logger.mergeMetaInfo ((k, v) :: meta) r
  = Logger.mergeMetaInfo meta
      (if isValidContextValue v (Some k)
          && (Logger.shouldIncludeServiceMethod r
              || (negb (String.eqb k "service") && negb (String.eqb k "method")))
       then <[k := v]> r else r).
Proof. reflexivity. Qed.

Lemma mergeMeta_context (meta : list (string * value)) :
  forall r : record, r !! "context" = None ->
    Logger.mergeMeta meta r !! "context" = None.
Proof.
  induction meta as [|[k v] meta IH]; intros r Hr; [exact Hr|].
  rewrite mergeMeta_cons. apply IH.
  destruct (isValidContextValue v (Some k)) eqn:Hv; [|exact Hr].
  rewrite lookup_insert_ne; [exact Hr|].
  by apply valid_key_not_context in Hv.
Qed.

Lemma mergeMetaInfo_context (meta : list (string * value)) :
  forall r : record, r !! "context" = None ->
    Logger.mergeMetaInfo meta r !! "context" = None.
Proof.
  induction meta as [|[k v] meta IH]; intros r Hr; [exact Hr|].
  rewrite mergeMetaInfo_cons. apply IH.
  destruct (isValidContextValue v (Some k)) eqn:Hv; [|exact Hr].
  rewrite andb_true_l. case_match; [|exact Hr].
  rewrite lookup_insert_ne; [exact Hr|].
  by apply valid_key_not_context in Hv.
Qed.

Lemma withErrorFields_other (name : string) (stack : option string)
      (cause : value) (base : record) (k : string) :
  k <> "errorName" -> k <> "stack" -> k <> "cause" ->
  Logger.withErrorFields name stack cause base !! k = base !! k.
Proof.
  intros H1 H2 H3. unfold Logger.withErrorFields.
  repeat case_match; rewrite ?lookup_insert_ne by done; reflexivity.
Qed.

Lemma withErrorFields_stack (name stack : string) (cause : value) (base : record) :
  Str.nonempty stack = true ->
  Logger.withErrorFields name (Some stack) cause base !! "stack"
  = Some (stackLines stack).
Proof.
  intros Hs. unfold Logger.withErrorFields. rewrite Hs.
  case_match; rewrite ?lookup_insert_ne by done; apply lookup_insert_eq.
Qed.

Lemma withErrorFields_cause (name : string) (stack : option string)
      (cause : value) (base : record) :
  cause <> VUndefined ->
  Logger.withErrorFields name stack cause base !! "cause"
  = Some (formatCause cause).
Proof.
  intros Hc. unfold Logger.withErrorFields.
  destruct cause; try congruence; simpl Js.is_undefined; cbv iota;
    apply lookup_insert_eq.
Qed.

Lemma getAutoContext_context (site : CallSite) (w : World) :
  (Logger.getAutoContext this site w).1 !! "context" = None.
Proof.
  unfold Logger.getAutoContext.
  destruct (Logger.resolveCaller this site (Logger.svc_getAll this w) w) as [c w1].
  apply cleanLogData_context.
Qed.

(** Every operation is [getAutoContext] followed by one engine call,
    whose fields have no [context] key. *)
Lemma perform_emit (call : LogCall) (site : CallSite) (w : World) :
  exists (level : Level) (fields : record) (msg : string),
    perform this call site w
    = emit level fields msg (Logger.getAutoContext this site w).2
    /\ fields !! "context" = None.
Proof.
  pose proof (getAutoContext_context site w) as Hctx.
  destruct call; simpl;
    [ unfold Logger.log | unfold Logger.error | unfold Logger.warn
    | unfold Logger.debug | unfold Logger.verbose | unfold Logger.info
    | unfold Logger.fatal ];
    destruct (Logger.getAutoContext this site w) as [auto w1]; simpl in *.
  - do 3 eexists. split; [reflexivity|]. apply lookup_delete_eq.
  - assert (Hbase : match meta with
                    | Some entries => Logger.mergeMeta entries (cleanLogData auto)
                    | None => cleanLogData auto
                    end !! "context" = None).
    { destruct meta; [apply mergeMeta_context|]; apply cleanLogData_context. }
    destruct message; do 3 eexists; (split; [reflexivity|]); try exact Hbase.
    by rewrite withErrorFields_other.
  - destruct metaOrContext as [[entries|c]|]; simpl.
    + do 3 eexists. split; [reflexivity|].
      apply mergeMeta_context, cleanLogData_context.
    + destruct (Str.nonempty c); do 3 eexists;
        (split; [reflexivity | apply cleanLogData_context]).
    + do 3 eexists. split; [reflexivity | apply cleanLogData_context].
  - do 3 eexists. split; [reflexivity | apply cleanLogData_context].
  - do 3 eexists. split; [reflexivity | apply cleanLogData_context].
  - do 3 eexists. split; [reflexivity | apply cleanLogData_context].
  - destruct message; do 3 eexists; (split; [reflexivity|]);
      try apply cleanLogData_context.
    rewrite withErrorFields_other by done. apply cleanLogData_context.
Qed.

Lemma perform_emitted (call : LogCall) (site : CallSite) (w : World) :
  exists c : EngineCall,
    emitted (perform this call site w) = emitted w ++ [c]
    /\ ec_fields c !! "context" = None.
Proof.
  destruct (perform_emit call site w) as (level & fields & msg & -> & Hf).
  eexists. unfold emit; simpl. rewrite getAutoContext_emitted.
  split; [reflexivity | exact Hf].
Qed.

Lemma perform_cls (call : LogCall) (site : CallSite) (w : World) :
  cls (perform this call site w)
  = cls (Logger.resolveCaller this site (Logger.svc_getAll this w) w).2
  /\ stackWalks (perform this call site w)
     = stackWalks (Logger.resolveCaller this site (Logger.svc_getAll this w) w).2.
Proof.
  destruct (perform_emit call site w) as (level & fields & msg & -> & _).
  rewrite getAutoContext_world. split; reflexivity.
Qed.

End Operations.

(** ** Reserved keys in the record (C4) *)

(** C4, as stated, fails for [_cachedCaller]: the caller cached by a first
    call is part of the store, and the second call copies it into its
    record. *)
Lemma cachedCaller_surfaces_in_record :
  ~ (forall (RT : JsRuntime) (this : LoggerService) (call : LogCall)
            (site : CallSite) (w : World),
       lastFields (perform this call site w) !! "context" = None
       /\ lastFields (perform this call site w) !! "_cachedCaller" = None).
Proof.
  intros H.
  destruct (H sampleRuntime moduleLogger (CallDebug (VStr "second") None)
              (siteOf serviceStack)
              (perform (H := sampleRuntime) moduleLogger
                       (CallDebug (VStr "first") None)
                       (siteOf serviceStack) (freshWorld ∅))) as [_ Hc].
  vm_compute in Hc. discriminate Hc.
Qed.

(** C4, amended.  Whatever the operation, the message and the state of
    the context store, no record handed to the engine has a field named
    [context]; and for a message that has a text the operation hands over
    exactly one record. *)
Theorem record_never_has_context_field :
  forall (RT : JsRuntime) (this : LoggerService) (call : LogCall)
         (site : CallSite) (w : World),
    (exists records : list EngineCall,
        emitted (perform this call site w) = emitted w ++ records
        /\ Forall (fun c => ec_fields c !! "context" = None) records)
    /\ (Logger.formattable (callMessage call) = true ->
        exists c : EngineCall,
          emitted (perform this call site w) = emitted w ++ [c]
          /\ ec_fields c !! "context" = None
          /\ lastFields (perform this call site w) = ec_fields c).
Proof.
  intros RT this call site w.
  destruct (perform_emitted this call site w) as (c & He & Hc).
  split.
  - exists [c]. split; [exact He|]. by repeat constructor.
  - intros _. exists c. split; [exact He|]. split; [exact Hc|].
    unfold lastFields. rewrite He, last_snoc. reflexivity.
Qed.

Lemma record_never_has_context_field_witness :
  exists c : EngineCall,
    emitted (perform (H := sampleRuntime) moduleLogger
                     (CallWarn (VStr "disk almost full") None (Some "Storage"))
                     (siteOf serviceStack)
                     (freshWorld (<["context" := VStr "Billing"]> httpStore)))
    = [c]
    /\ ec_fields c !! "context" = None.
Proof.
  destruct (proj2 (record_never_has_context_field sampleRuntime moduleLogger
                     (CallWarn (VStr "disk almost full") None (Some "Storage"))
                     (siteOf serviceStack)
                     (freshWorld (<["context" := VStr "Billing"]> httpStore)))
                  eq_refl) as (c & He & Hc & _).
  exists c. split; [exact He | exact Hc].
Defined.

(** ** Stack and cause of an [Error] message (C7) *)

(** C7.  For [error] and for [fatal], when the message is an [Error] with
    a stack, the record carries under [stack] the lines of that stack, in
    order, each without the white space around it, the empty ones left
    out; and, when the error has a cause, under [cause] the cause reduced
    to its name, message and stack lines if it is an [Error] itself, and
    the cause as it is otherwise.  The lines are those of the stack: it is
    the text of some lines without a line feed in them, joined by line
    feeds, and the field holds, for each of them in turn that is not white
    space only, what is left of it between the white space at its two
    ends. *)
Theorem error_fatal_attach_stack_and_cause :
  forall (RT : JsRuntime) (this : LoggerService)
         (name msg stack : string) (cause : value)
         (members : list (string * value))
         (meta : option (list (string * value))) (context : option string)
         (site : CallSite) (w : World),
    Str.nonempty stack = true ->
    let e := VError name msg (Some stack) cause members in
    (exists c : EngineCall,
        emitted (Logger.error this e meta context site w) = emitted w ++ [c]
        /\ ec_level c = LError
        /\ ec_fields c !! "stack" = Some (VArr (List.map VStr (formatStackTrace stack)))
        /\ (cause <> VUndefined ->
            ec_fields c !! "cause" = Some (formatCause cause)))
    /\ (exists c : EngineCall,
          emitted (Logger.fatal this e context site w) = emitted w ++ [c]
          /\ ec_level c = LFatal
          /\ ec_fields c !! "stack" = Some (VArr (List.map VStr (formatStackTrace stack)))
          /\ (cause <> VUndefined ->
              ec_fields c !! "cause" = Some (formatCause cause)))
    /\ (exists raws cores : list string,
          stack = joinLines raws
          /\ Forall lineFeedFree raws
          /\ Forall2 strippedTo raws cores
          /\ formatStackTrace stack = List.filter Str.nonempty cores)
    /\ (forall line : string,
          In line (formatStackTrace stack) ->
          line <> "" /\ tight line /\ lineFeedFree line)
    /\ (forall (n m : string) (st : option string) (c : value)
               (ms : list (string * value)),
          cause = VError n m st c ms ->
          formatCause cause
          = VObj ([("name", VStr n); ("message", VStr m)]
                  ++ match st with
                     | Some s =>
                         if Str.nonempty s
                         then [("stack", VArr (List.map VStr (formatStackTrace s)))]
                         else []
                     | None => []
                     end))
    /\ (Js.instanceofError cause = false -> formatCause cause = cause).
Proof.
  intros RT this name msg stack cause members meta context site w Hs e.
  pose proof (getAutoContext_emitted this site w) as Hem.
  split; [|split; [|split; [apply formatStackTrace_split|split; [|split]]]].
  - unfold Logger.error, e.
    destruct (Logger.getAutoContext this site w) as [auto w1]. simpl in *.
    eexists. rewrite Hem. split; [reflexivity|]. split; [reflexivity|]. simpl.
    split; [by apply withErrorFields_stack | by apply withErrorFields_cause].
  - unfold Logger.fatal, e.
    destruct (Logger.getAutoContext this site w) as [auto w1]. simpl in *.
    eexists. rewrite Hem. split; [reflexivity|]. split; [reflexivity|]. simpl.
    split; [by apply withErrorFields_stack | by apply withErrorFields_cause].
  - apply formatStackTrace_line.
  - intros n m st c ms ->. reflexivity.
  - destruct cause; simpl; intros H; [reflexivity.. | discriminate H].
Qed.

Lemma error_fatal_attach_stack_and_cause_witness :
  exists c : EngineCall,
    emitted (Logger.error (RT := sampleRuntime) moduleLogger
               (VError "TypeError" "boom" (Some raggedStack) (VStr "timeout") [])
               None None (siteOf serviceStack) (freshWorld ∅)) = [c]
    /\ ec_fields c !! "stack"
       = Some (VArr [ VStr "TypeError: boom";
                      VStr "at UserService.create (user.service.js:22:21)";
                      VStr "at main (main.js:3:1)" ])
    /\ ec_fields c !! "cause" = Some (VStr "timeout").
Proof.
  destruct (proj1 (error_fatal_attach_stack_and_cause sampleRuntime moduleLogger
                     "TypeError" "boom" raggedStack (VStr "timeout") [] None None
                     (siteOf serviceStack) (freshWorld ∅) eq_refl))
    as (c & He & _ & Hst & Hca).
  exists c. split; [exact He|]. split; [exact Hst|].
  apply Hca. discriminate.
Defined.

(** ** The cached caller (C3) *)

(** C3, as stated, fails: a stack walk that finds no caller stores
    nothing, so the next call walks the stack again, and may find one. *)
Lemma empty_resolution_is_not_cached :
  ~ (forall (RT : JsRuntime) (this : LoggerService) (site1 site2 : CallSite)
            (m1 m2 : value) (store : record),
       Logger.needsCaller (LoggerContextService.getAll store) = true ->
       let w1 := perform this (CallDebug m1 None) site1 (freshWorld store) in
       let w2 := perform this (CallDebug m2 None) site2 w1 in
       stackWalks w2 <= 1
       /\ lastFields w1 !! "service" = lastFields w2 !! "service"
       /\ lastFields w1 !! "method" = lastFields w2 !! "method").
Proof.
  intros H.
  assert (Hn : Logger.needsCaller (LoggerContextService.getAll ∅) = true)
    by (vm_compute; reflexivity).
  destruct (H sampleRuntime moduleLogger (siteOf functionStack)
              (siteOf serviceStack) (VStr "first") (VStr "second") ∅ Hn)
    as [Hwalks _].
  vm_compute in Hwalks. lia.
Qed.

Section CachedCaller.
Context `{RT : JsRuntime}.
Variable this : LoggerService.
Hypothesis Hsvc : lg_contextService this = true.

Lemma otel_other (site : CallSite) (context : record) (k : string) :
  k <> "traceId" -> k <> "spanId" ->
  Logger.getOpenTelemetryContext site context !! k = None.
Proof.
  intros H1 H2. unfold Logger.getOpenTelemetryContext.
  repeat case_match; rewrite ?lookup_insert_ne by done; apply lookup_empty.
Qed.

Lemma resolveCaller_cached (site : CallSite) (context : record) (w : World) :
  Js.truthy (Cls.get "_cachedCaller" (cls w)) = true ->
  Logger.resolveCaller this site context w
  = (if Logger.needsCaller context then Cls.get "_cachedCaller" (cls w)
     else VUndefined, w).
Proof.
  intros Hc. unfold Logger.resolveCaller, Logger.svc_getValue.
  rewrite Hsvc. unfold LoggerContextService.getValue. rewrite Hc.
  by destruct (Logger.needsCaller context).
Qed.

Lemma nonempty_caller_defined (caller : value) :
  Js.truthy (Js.prop "service" caller) || Js.truthy (Js.prop "method" caller) = true ->
  Js.truthy caller = true /\ Js.is_undefined caller = false.
Proof. destruct caller; simpl; intros H; try discriminate H; by split. Qed.

Lemma resolveCaller_walk (site : CallSite) (context : record) (w : World) :
  Logger.needsCaller context = true ->
  Js.truthy (Cls.get "_cachedCaller" (cls w)) = false ->
  let caller := Caller.getCallerContext (cs_stack site) in
  Logger.resolveCaller this site context w
  = (caller,
     if Js.truthy (Js.prop "service" caller) || Js.truthy (Js.prop "method" caller)
     then with_cls (Cls.set "_cachedCaller" caller) (walked w)
     else walked w).
Proof.
  intros Hn Hc caller. unfold Logger.resolveCaller, Logger.svc_getValue, Logger.svc_set.
  rewrite Hn, Hsvc. unfold LoggerContextService.getValue. rewrite Hc.
  fold caller.
  destruct (Js.truthy (Js.prop "service" caller) || Js.truthy (Js.prop "method" caller))
    eqn:He; [|reflexivity].
  unfold LoggerContextService.set, with_cls.
  destruct (nonempty_caller_defined _ He) as [_ ->]. reflexivity.
Qed.

Lemma perform_cached (call : LogCall) (site : CallSite) (w : World) :
  Js.truthy (Cls.get "_cachedCaller" (cls w)) = true ->
  cls (perform this call site w) = cls w
  /\ stackWalks (perform this call site w) = stackWalks w.
Proof.
  intros Hc. destruct (perform_cls this call site w) as [-> ->].
  by rewrite resolveCaller_cached.
Qed.

Lemma performAll_cached (calls : list (LogCall * CallSite)) :
  forall w : World,
    Js.truthy (Cls.get "_cachedCaller" (cls w)) = true ->
    cls (performAll this calls w) = cls w
    /\ stackWalks (performAll this calls w) = stackWalks w.
Proof.
  induction calls as [|[call site] calls IH]; intros w Hc; [by split|].
  destruct (perform_cached call site w Hc) as [Hcls Hwalks].
  change (performAll this ((call, site) :: calls) w)
    with (performAll this calls (perform this call site w)).
  destruct (IH (perform this call site w)) as [-> ->];
    [by rewrite Hcls | by split].
Qed.

Lemma withCaller_lookup (caller : value) (context a b : record) (k : string) :
  a !! k = b !! k ->
  Logger.withCaller caller context a !! k = Logger.withCaller caller context b !! k.
Proof.
  intros Hab. unfold Logger.withCaller.
  repeat case_match; rewrite ?lookup_insert; repeat case_decide; done.
Qed.

Lemma autoContext_cached_field (site1 site2 : CallSite) (w : World) (k : string) :
  Js.truthy (Cls.get "_cachedCaller" (cls w)) = true ->
  k <> "traceId" -> k <> "spanId" ->
  (Logger.getAutoContext this site1 w).1 !! k
  = (Logger.getAutoContext this site2 w).1 !! k.
Proof.
  intros Hc H1 H2. unfold Logger.getAutoContext.
  rewrite !resolveCaller_cached by exact Hc.
  cbn [fst]. unfold cleanLogData. rewrite !map_lookup_filter.
  f_equal. apply withCaller_lookup.
  rewrite !lookup_union_r by (by apply otel_other). reflexivity.
Qed.

Lemma withCaller_congr (caller : value) (c1 c2 a b : record) (k : string) :
  Js.field "service" c1 = Js.field "service" c2 ->
  Js.field "method" c1 = Js.field "method" c2 ->
  Js.field "component" c1 = Js.field "component" c2 ->
  a !! k = b !! k ->
  Logger.withCaller caller c1 a !! k = Logger.withCaller caller c2 b !! k.
Proof.
  intros Hs Hm Hc Hab. unfold Logger.withCaller, Logger.shouldIncludeServiceMethod.
  rewrite Hs, Hm, Hc.
  repeat case_match; rewrite ?lookup_insert; repeat case_decide; done.
Qed.

Lemma getAll_insert_other (store : record) (key k : string) (v : value) :
  k <> key ->
  LoggerContextService.getAll (<[key := v]> store) !! k
  = LoggerContextService.getAll store !! k.
Proof.
  intros Hne. unfold LoggerContextService.getAll, LoggerContextService.get.
  simpl. rewrite !map_lookup_filter, lookup_insert_ne by done. reflexivity.
Qed.

Lemma needsCaller_congr (c1 c2 : record) :
  c1 !! "service" = c2 !! "service" ->
  c1 !! "method" = c2 !! "method" ->
  c1 !! "component" = c2 !! "component" ->
  Logger.needsCaller c1 = Logger.needsCaller c2.
Proof.
  intros Hs Hm Hc.
  unfold Logger.needsCaller, Logger.shouldIncludeServiceMethod, Js.field.
  by rewrite Hs, Hm, Hc.
Qed.

(** The automatic context is a function of the store and the call site. *)
Lemma autoContext_resolved (site site2 : CallSite) (w0 w' : World) (k : string) :
  Logger.needsCaller (Logger.svc_getAll this w0) = true ->
  Js.truthy (Cls.get "_cachedCaller" (cls w0)) = false ->
  let caller := Caller.getCallerContext (cs_stack site) in
  Js.truthy (Js.prop "service" caller) || Js.truthy (Js.prop "method" caller) = true ->
  cls w' = Cls.set "_cachedCaller" caller (cls w0) ->
  k = "service" \/ k = "method" ->
  Logger.needsCaller (Logger.svc_getAll this w') = true
  /\ (Logger.getAutoContext this site2 w').1 !! k
     = (Logger.getAutoContext this site w0).1 !! k.
Proof.
  intros Hn Hc0 caller He Hcls Hk.
  assert (Hctx : forall k', k' <> "_cachedCaller" ->
            Logger.svc_getAll this w' !! k' = Logger.svc_getAll this w0 !! k').
  { intros k' Hne. unfold Logger.svc_getAll. rewrite Hsvc, Hcls.
    by apply getAll_insert_other. }
  assert (Hn' : Logger.needsCaller (Logger.svc_getAll this w') = true).
  { rewrite <- Hn. apply needsCaller_congr; by apply Hctx. }
  split; [exact Hn'|].
  assert (Hc' : Js.truthy (Cls.get "_cachedCaller" (cls w')) = true).
  { rewrite Hcls. unfold Cls.get, Cls.set, Js.field. rewrite lookup_insert_eq.
    by apply nonempty_caller_defined. }
  unfold Logger.getAutoContext.
  rewrite (resolveCaller_cached site2 _ w' Hc'), Hn'.
  rewrite (resolveCaller_walk site _ w0 Hn Hc0). fold caller.
  cbn [fst]. rewrite Hcls. unfold Cls.get at 1, Cls.set, Js.field at 1.
  rewrite lookup_insert_eq.
  unfold cleanLogData. rewrite !map_lookup_filter. f_equal.
  assert (Hf : forall k', k' <> "_cachedCaller" ->
            Js.field k' (Logger.svc_getAll this w')
            = Js.field k' (Logger.svc_getAll this w0)).
  { intros k' Hne. unfold Js.field. by rewrite Hctx. }
  apply withCaller_congr; try (by apply Hf).
  rewrite !lookup_union_r by (destruct Hk as [-> | ->]; by apply otel_other).
  apply Hctx. by destruct Hk as [-> | ->].
Qed.

Lemma needsCaller_parts (context : record) :
  Logger.needsCaller context = true ->
  Logger.shouldIncludeServiceMethod context = true
  /\ Js.truthy (Js.field "service" context) = false
  /\ Js.truthy (Js.field "method" context) = false.
Proof.
  unfold Logger.needsCaller. intros H.
  apply andb_prop in H as [H Hm]. apply andb_prop in H as [Hi Hs].
  apply negb_true_iff in Hm, Hs. by repeat split.
Qed.

(** With a caller in the cache, [service] and [method] are the cached
    caller's, unless they name an internal class or method. *)
Lemma autoContext_cached_value (site : CallSite) (w : World) (s : string) :
  Js.truthy (Cls.get "_cachedCaller" (cls w)) = true ->
  Logger.needsCaller (Logger.svc_getAll this w) = true ->
  Str.nonempty s = true ->
  s ∉ INVALID_CONTEXT_VALUES ->
  (Js.prop "service" (Cls.get "_cachedCaller" (cls w)) = VStr s ->
   s ∉ INTERNAL_CLASSES ->
   (Logger.getAutoContext this site w).1 !! "service" = Some (VStr s))
  /\ (Js.prop "method" (Cls.get "_cachedCaller" (cls w)) = VStr s ->
      s ∉ INTERNAL_METHODS ->
      (Logger.getAutoContext this site w).1 !! "method" = Some (VStr s)).
Proof.
  intros Hc Hn Hs Hv.
  destruct (needsCaller_parts _ Hn) as (Hi & Hfs & Hfm).
  assert (Hvalid : forall k, k = "service" \/ k = "method" ->
            isValidContextValue (VStr s) (Some k) = true).
  { intros k [-> | ->]; unfold isValidContextValue; simpl;
      by rewrite bool_decide_eq_false_2. }
  unfold Logger.getAutoContext. rewrite (resolveCaller_cached site _ w Hc), Hn.
  cbn [fst]. split; intros Hp Hint; apply cleanLogData_lookup;
    (split; [|apply Hvalid; by auto]);
    unfold Logger.withCaller; rewrite Hp, Hfs, Hfm, Hi; simpl Js.truthy;
    rewrite Hs; unfold set_has; rewrite (bool_decide_eq_false_2 _ Hint);
    cbn [andb negb].
  - case_match; rewrite ?lookup_insert_ne by done; by rewrite lookup_insert_eq.
  - by rewrite lookup_insert_eq.
Qed.

Lemma autoContext_clean (site : CallSite) (w : World) (k : string) :
  cleanLogData (Logger.getAutoContext this site w).1 !! k
  = (Logger.getAutoContext this site w).1 !! k.
Proof.
  unfold Logger.getAutoContext.
  destruct (Logger.resolveCaller this site (Logger.svc_getAll this w) w)
    as [caller w1].
  cbn [fst]. apply option_eq. intros v. rewrite !cleanLogData_lookup. tauto.
Qed.

(** An operation without metadata passes [service] and [method] on as
    the automatic context has them. *)
Lemma bare_fields (call : LogCall) (site : CallSite) (w : World) (k : string) :
  bare call = true ->
  k = "service" \/ k = "method" ->
  lastFields (perform this call site w) !! k
  = (Logger.getAutoContext this site w).1 !! k.
Proof.
  intros Hb Hk.
  assert (Hne : k <> "context" /\ k <> "errorName" /\ k <> "stack" /\ k <> "cause")
    by (destruct Hk as [-> | ->]; by repeat split).
  destruct Hne as (H1 & H2 & H3 & H4).
  pose proof (autoContext_clean site w k) as Hcl.
  destruct call; try discriminate Hb; unfold perform, lastFields;
    [unfold Logger.log | unfold Logger.debug | unfold Logger.verbose
     | unfold Logger.fatal];
    destruct (Logger.getAutoContext this site w) as [auto w1];
    cbn [fst] in Hcl |- *.
  - simpl. rewrite last_snoc. simpl. by rewrite lookup_delete_ne.
  - simpl. rewrite last_snoc. simpl. exact Hcl.
  - simpl. rewrite last_snoc. simpl. exact Hcl.
  - destruct message; simpl; rewrite last_snoc; simpl; try exact Hcl.
    by rewrite withErrorFields_other.
Qed.

End CachedCaller.

(** C3, amended.  Once the store holds a resolved caller under
    [_cachedCaller], no later log call of the scope walks the stack or
    touches the store, the [service] and [method] values of the
    automatic context do not depend on the call site, and they are the
    cached caller's.  The first stack walk that finds a caller stores it,
    and every later call of the scope, still in need of a caller, gets
    the [service] and [method] of the call that resolved it without
    another walk (in the record too, when both operations take no
    metadata and their messages have a text); a walk that finds none
    stores nothing, which leaves the next call to walk the stack again. *)
Theorem cached_caller_is_stable :
  forall (RT : JsRuntime) (this : LoggerService) (w : World)
         (calls : list (LogCall * CallSite)),
    lg_contextService this = true ->
    Js.truthy (Cls.get "_cachedCaller" (cls w)) = true ->
    stackWalks (performAll this calls w) = stackWalks w
    /\ cls (performAll this calls w) = cls w
    /\ (forall site1 site2 : CallSite,
          (Logger.getAutoContext this site1 w).1 !! "service"
          = (Logger.getAutoContext this site2 w).1 !! "service"
          /\ (Logger.getAutoContext this site1 w).1 !! "method"
             = (Logger.getAutoContext this site2 w).1 !! "method")
    /\ (forall (site : CallSite) (s : string),
          Logger.needsCaller (Logger.svc_getAll this w) = true ->
          Str.nonempty s = true ->
          s ∉ INVALID_CONTEXT_VALUES ->
          (Js.prop "service" (Cls.get "_cachedCaller" (cls w)) = VStr s ->
           s ∉ INTERNAL_CLASSES ->
           (Logger.getAutoContext this site w).1 !! "service" = Some (VStr s))
          /\ (Js.prop "method" (Cls.get "_cachedCaller" (cls w)) = VStr s ->
              s ∉ INTERNAL_METHODS ->
              (Logger.getAutoContext this site w).1 !! "method" = Some (VStr s)))
    /\ (forall (w0 : World) (call : LogCall) (site : CallSite),
          Logger.needsCaller (Logger.svc_getAll this w0) = true ->
          Js.truthy (Cls.get "_cachedCaller" (cls w0)) = false ->
          let caller := Caller.getCallerContext (cs_stack site) in
          let w1 := perform this call site w0 in
          stackWalks w1 = S (stackWalks w0)
          /\ (Js.truthy (Js.prop "service" caller)
              || Js.truthy (Js.prop "method" caller) = true ->
              Cls.get "_cachedCaller" (cls w1) = caller
              /\ Js.truthy caller = true
              /\ forall (later : list (LogCall * CallSite))
                        (call2 : LogCall) (site2 : CallSite) (k : string),
                   k = "service" \/ k = "method" ->
                   let w2 := performAll this later w1 in
                   Logger.needsCaller (Logger.svc_getAll this w2) = true
                   /\ stackWalks (perform this call2 site2 w2) = S (stackWalks w0)
                   /\ (Logger.getAutoContext this site2 w2).1 !! k
                      = (Logger.getAutoContext this site w0).1 !! k
                   /\ (bare call = true -> bare call2 = true ->
                       Logger.formattable (callMessage call) = true ->
                       Logger.formattable (callMessage call2) = true ->
                       lastFields (perform this call2 site2 w2) !! k
                       = lastFields w1 !! k))
          /\ (Js.truthy (Js.prop "service" caller)
              || Js.truthy (Js.prop "method" caller) = false ->
              cls w1 = cls w0)).
Proof.
  intros RT this w calls Hsvc Hc.
  destruct (performAll_cached this Hsvc calls w Hc) as [Hcls Hwalks].
  split; [exact Hwalks|]. split; [exact Hcls|]. split; [|split].
  - intros site1 site2.
    split; by apply autoContext_cached_field.
  - intros site s. by apply autoContext_cached_value.
  - intros w0 call site Hn Hc0 caller w1.
    destruct (perform_cls this call site w0) as [Hcls1 Hwalks1].
    fold w1 in Hcls1, Hwalks1.
    rewrite (resolveCaller_walk this Hsvc site _ w0 Hn Hc0) in Hcls1, Hwalks1.
    fold caller in Hcls1, Hwalks1.
    destruct (Js.truthy (Js.prop "service" caller)
              || Js.truthy (Js.prop "method" caller)) eqn:He;
      cbn [snd with_cls walked cls stackWalks] in Hcls1, Hwalks1.
    + split; [exact Hwalks1|]. split; [|intros [=]]. intros _.
      assert (Hget : Cls.get "_cachedCaller" (cls w1) = caller)
        by (rewrite Hcls1; unfold Cls.get, Cls.set, Js.field;
            by rewrite lookup_insert_eq).
      destruct (nonempty_caller_defined caller He) as [Ht _].
      split; [exact Hget|]. split; [exact Ht|].
      intros later call2 site2 k Hk w2.
      assert (Hc1 : Js.truthy (Cls.get "_cachedCaller" (cls w1)) = true)
        by (by rewrite Hget).
      destruct (performAll_cached this Hsvc later w1 Hc1) as [Hcls2 Hwalks2].
      fold w2 in Hcls2, Hwalks2.
      assert (Hc2 : Js.truthy (Cls.get "_cachedCaller" (cls w2)) = true)
        by (by rewrite Hcls2).
      assert (Hcls2' : cls w2 = Cls.set "_cachedCaller" caller (cls w0))
        by (by rewrite Hcls2).
      destruct (autoContext_resolved this Hsvc site site2 w0 w2 k Hn Hc0 He
                  Hcls2' Hk) as [Hn2 Hauto].
      split; [exact Hn2|]. split; [|split; [exact Hauto|]].
      * destruct (perform_cached this Hsvc call2 site2 w2 Hc2) as [_ ->].
        by rewrite Hwalks2.
      * intros Hb Hb2 _ _. rewrite (bare_fields this call2 site2 w2 k Hb2 Hk).
        unfold w1. rewrite (bare_fields this call site w0 k Hb Hk). exact Hauto.
    + split; [exact Hwalks1|]. split; [intros [=] | intros _; exact Hcls1].
Qed.

Lemma cached_caller_is_stable_witness :
  let w := perform (H := sampleRuntime) moduleLogger (CallDebug (VStr "first") None)
                   (siteOf serviceStack) (freshWorld ∅) in
  stackWalks
    (performAll (H := sampleRuntime) moduleLogger
       [(CallInfo (VStr "second") None None, siteOf functionStack);
        (CallWarn (VStr "third") None None, siteOf serviceStack)] w) = 1
  /\ (Logger.getAutoContext moduleLogger (siteOf functionStack) w).1 !! "service"
     = Some (VStr "UserService")
  /\ (Logger.getAutoContext moduleLogger (siteOf functionStack) w).1 !! "method"
     = Some (VStr "create").
Proof.
  intros w.
  pose proof (cached_caller_is_stable sampleRuntime moduleLogger w
                [(CallInfo (VStr "second") None None, siteOf functionStack);
                 (CallWarn (VStr "third") None None, siteOf serviceStack)]
                eq_refl eq_refl) as (Hwalks & _ & _ & Hvalue & _).
  split; [exact Hwalks|]. split.
  - refine (proj1 (Hvalue (siteOf functionStack) "UserService" _ _ _) _ _);
      try reflexivity; apply (bool_decide_unpack _); by vm_compute.
  - refine (proj2 (Hvalue (siteOf functionStack) "create" _ _ _) _ _);
      try reflexivity; apply (bool_decide_unpack _); by vm_compute.
Defined.

(** ** The exception filter (C1, C9) *)

Section Members.

Lemma assoc_set_assoc_eq (k : string) (v : value) (l : list (string * value)) :
  Js.assoc k (set_assoc k v l) = Some v.
Proof.
  induction l as [|[k' v'] l IH]; simpl.
  - by rewrite String.eqb_refl.
  - destruct (String.eqb k' k) eqn:E; simpl.
    + by rewrite String.eqb_refl.
    + rewrite String.eqb_sym, E. exact IH.
Qed.

Lemma assoc_set_assoc_ne (k k2 : string) (v : value) (l : list (string * value)) :
  k <> k2 -> Js.assoc k2 (set_assoc k v l) = Js.assoc k2 l.
Proof.
  intros Hne. apply String.eqb_neq in Hne. rewrite String.eqb_sym in Hne.
  induction l as [|[k' v'] l IH]; simpl.
  - by rewrite Hne.
  - destruct (String.eqb k' k) eqn:E; simpl.
    + apply String.eqb_eq in E. subst k'. by rewrite Hne.
    + by rewrite IH.
Qed.

Lemma member_set_assoc_ne (n m : string) (s : option string) (c : value)
      (ms : list (string * value)) (k k2 : string) (v : value) :
  k <> k2 ->
  Js.member k2 (VError n m s c (set_assoc k v ms)) = Js.member k2 (VError n m s c ms).
Proof.
  intros Hne. simpl. unfold Js.error_member.
  repeat case_match; try reflexivity. by apply assoc_set_assoc_ne.
Qed.

Lemma tagIfUnset_frame (transport : string) (e : value) (k : string) :
  k <> "transport" -> Js.prop k (tagIfUnset transport e) = Js.prop k e.
Proof.
  intros Hne. unfold tagIfUnset. destruct e; try reflexivity.
  case_match; [reflexivity|]. unfold Js.prop.
  by rewrite member_set_assoc_ne.
Qed.

Lemma member_withLoggable (b : bool) (e : value) (k : string) :
  k <> "loggable" -> Js.member k (withLoggable b e) = Js.member k e.
Proof.
  intros Hne. destruct e; try reflexivity.
  unfold withLoggable. by apply member_set_assoc_ne.
Qed.

Lemma loggable_withLoggable (b : bool) (e : value) :
  Js.instanceofError e = true ->
  Js.member "loggable" (withLoggable b e) = Some (VBool b).
Proof.
  destruct e; try discriminate. intros _. simpl. unfold Js.error_member. simpl.
  apply assoc_set_assoc_eq.
Qed.

Lemma isBaseError_withLoggable (b : bool) (e : value) :
  isBaseError e = true -> isBaseError (withLoggable b e) = true.
Proof.
  unfold isBaseError, Js.has, Js.prop. intros H.
  repeat (apply andb_prop in H; destruct H as [H ?]).
  rewrite (loggable_withLoggable b e H).
  rewrite !member_withLoggable by done.
  repeat (apply andb_true_intro; split); try assumption; try reflexivity.
  by destruct e.
Qed.

End Members.

(** An error package for the examples: the tag is set when unset, the
    client and the RPC payload carry code and message. *)
Definition sampleErrors : BaseErrorApi :=
  {| setTransportIfUnset := tagIfUnset;
     getClientSafeError := fun e =>
       <["message" := Js.prop "message" e]> (<["code" := Js.prop "code" e]> ∅);
     getRpcError := fun e =>
       VObj [("code", Js.prop "code" e); ("message", Js.prop "message" e)];
     setTransportIfUnset_frame := tagIfUnset_frame |}.

Section FilterFacts.
Context `{RT : JsRuntime} `{BE : BaseErrorApi}.
Variable logger : LoggerService.

Lemma resolveCaller_cls_other (site : CallSite) (context : record) (w : World)
      (k : string) :
  k <> "_cachedCaller" ->
  cls (Logger.resolveCaller logger site context w).2 !! k = cls w !! k.
Proof.
  intros Hne.
  unfold Logger.resolveCaller, Logger.svc_set, with_cls,
    LoggerContextService.set, Cls.set, walked.
  repeat (case_match; simpl); rewrite ?lookup_insert_ne by done; reflexivity.
Qed.

Lemma error_cls_other (message : value) (meta : option (list (string * value)))
      (context : option string) (site : CallSite) (w : World) (k : string) :
  k <> "_cachedCaller" ->
  cls (Logger.error logger message meta context site w) !! k = cls w !! k.
Proof.
  intros Hne.
  destruct (perform_cls logger (CallError message meta context) site w) as [H _].
  simpl in H. rewrite H. by apply resolveCaller_cls_other.
Qed.

Lemma error_emits_once (message : value) (meta : option (list (string * value)))
      (context : option string) (site : CallSite) (w : World) :
  exists c : EngineCall,
    emitted (Logger.error logger message meta context site w) = emitted w ++ [c]
    /\ ec_level c = LError.
Proof.
  pose proof (getAutoContext_emitted logger site w) as Hem.
  unfold Logger.error.
  destruct (Logger.getAutoContext logger site w) as [auto w1]. simpl in Hem.
  destruct message; eexists; unfold emit; simpl; rewrite Hem;
    (split; reflexivity).
Qed.

Lemma requestIdHeader_error (message : value)
      (meta : option (list (string * value))) (context : option string)
      (site : CallSite) (w : World) :
  Filter.requestIdHeader (Logger.error logger message meta context site w)
  = Filter.requestIdHeader w.
Proof.
  unfold Filter.requestIdHeader, Cls.get, Js.field.
  by rewrite error_cls_other.
Qed.

Lemma tagTransport_frame (contextType : ContextType) (e : value) (k : string) :
  k <> "transport" ->
  Js.prop k (Filter.tagTransport contextType e) = Js.prop k e.
Proof.
  intros Hne. destruct contextType; simpl;
    [apply setTransportIfUnset_frame.. | reflexivity]; exact Hne.
Qed.

Lemma typeof_string (v : value) :
  String.eqb (Js.typeof v) "string" = true <-> exists s, v = VStr s.
Proof.
  split; [destruct v; simpl; intros H; try discriminate H; eauto|].
  by intros [s ->].
Qed.

Lemma typeof_boolean (v : value) :
  String.eqb (Js.typeof v) "boolean" = true <-> exists b, v = VBool b.
Proof.
  split; [destruct v; simpl; intros H; try discriminate H; eauto|].
  by intros [b ->].
Qed.

Lemma isBaseError_shape (error : value) :
  isBaseError error = true <->
  Js.instanceofError error = true
  /\ (exists code : string, Js.member "code" error = Some (VStr code))
  /\ (exists loggable : bool, Js.member "loggable" error = Some (VBool loggable))
  /\ is_Some (Js.member "setTransportIfUnset" error).
Proof.
  unfold isBaseError, Js.has, Js.prop. split.
  - intros H. repeat (apply andb_prop in H; destruct H as [H ?]).
    split; [exact H|].
    destruct (Js.member "code" error) as [c|] eqn:Hc; [|discriminate].
    destruct (Js.member "loggable" error) as [l|] eqn:Hl; [|discriminate].
    destruct (Js.member "setTransportIfUnset" error) as [f|]; [|discriminate].
    simpl in *.
    match goal with Hs : String.eqb (Js.typeof c) _ = true |- _ =>
      apply typeof_string in Hs; destruct Hs as [s ->] end.
    match goal with Hb : String.eqb (Js.typeof l) _ = true |- _ =>
      apply typeof_boolean in Hb; destruct Hb as [b ->] end.
    eauto.
  - intros (He & [c Hc] & [b Hb] & [f Hf]).
    rewrite He, Hc, Hb, Hf. reflexivity.
Qed.

End FilterFacts.

(** C1.  For a [BaseError] whose [loggable] flag is [false] the filter
    leaves the world as it found it, so the engine is not called; it
    still answers on every transport: over http with the client-safe
    payload of the error, a timestamp and the request path, at the status
    code of the error or 500 when that is unset; over rpc and ws by
    throwing the transport's exception around the RPC payload.  The same
    error with [loggable] set to [true] is logged once, at error
    severity, and answered identically, given that the payload builders
    of the error package do not look at the flag. *)
Theorem unloggable_error_is_silent_and_answered :
  forall (RT : JsRuntime) (BE : BaseErrorApi) (logger : LoggerService)
         (e : value) (host : ArgumentsHost) (site : CallSite) (w : World),
    isBaseError e = true ->
    Js.prop "loggable" e = VBool false ->
    let tagged := Filter.tagTransport (h_type host) e in
    let r := Filter.catch logger e host site w in
    r.2 = w
    /\ emitted r.2 = emitted w
    /\ r.1 = match h_type host with
             | Http =>
                 Replied
                   {| rp_headers := Filter.requestIdHeader w;
                      rp_status := Js.or (Js.prop "statusCode" e) (VNum 500);
                      rp_body :=
                        <["path" := VStr (h_url host)]>
                          (<["timestamp" := VStr (h_now host)]>
                             (getClientSafeError tagged)) |}
             | Rpc => Thrown (RpcException (getRpcError tagged))
             | Ws => Thrown (WsException (getRpcError tagged))
             | OtherContext _ => Nothing
             end
    /\ (let e1 := withLoggable true e in
        let tagged1 := Filter.tagTransport (h_type host) e1 in
        getClientSafeError tagged1 = getClientSafeError tagged ->
        getRpcError tagged1 = getRpcError tagged ->
        let r1 := Filter.catch logger e1 host site w in
        r1.1 = r.1
        /\ exists c : EngineCall,
            emitted r1.2 = emitted w ++ [c] /\ ec_level c = LError).
Proof.
  intros RT BE logger e host site w Hbase Hlog tagged r.
  assert (Hr : r = (match h_type host with
                    | Http => Filter.handleHttpException tagged host w
                    | Rpc => Filter.handleRpcException tagged
                    | Ws => Filter.handleWsException tagged
                    | OtherContext _ => Nothing
                    end, w)).
  { unfold r, Filter.catch. rewrite Hbase. unfold Filter.catchBaseError.
    cbv zeta. rewrite tagTransport_frame by done. rewrite Hlog. simpl.
    by destruct (h_type host). }
  assert (Hstatus : forall b, Js.prop "statusCode"
                                (Filter.tagTransport (h_type host) (withLoggable b e))
                              = Js.prop "statusCode" e).
  { intros b. rewrite tagTransport_frame by done. unfold Js.prop.
    by rewrite member_withLoggable. }
  assert (Hstatus0 : Js.prop "statusCode" tagged = Js.prop "statusCode" e).
  { unfold tagged. by rewrite tagTransport_frame. }
  rewrite Hr. split; [reflexivity|]. split; [reflexivity|]. split.
  - simpl. destruct (h_type host); try reflexivity.
    unfold Filter.handleHttpException, Filter.stamped. by rewrite Hstatus0.
  - intros e1 tagged1 Hclient Hrpc r1.
    assert (He : Js.instanceofError e = true).
    { by apply isBaseError_shape in Hbase as [He _]. }
    assert (Hb1 : isBaseError e1 = true) by by apply isBaseError_withLoggable.
    unfold r1, Filter.catch. rewrite Hb1.
    unfold Filter.catchBaseError. cbv zeta. fold tagged1.
    assert (Hl : Js.prop "loggable" tagged1 = VBool true).
    { unfold tagged1. rewrite tagTransport_frame by done. unfold Js.prop, e1.
      by rewrite loggable_withLoggable. }
    rewrite Hl. simpl Js.truthy. cbv iota.
    set (w1 := Logger.error logger tagged1 _ None site w).
    split.
    + simpl. destruct (h_type host); simpl; try reflexivity.
      * unfold Filter.handleHttpException.
        unfold w1. rewrite requestIdHeader_error.
        unfold tagged1, e1. rewrite Hstatus. fold e1. fold tagged1.
        by rewrite Hstatus0, Hclient.
      * unfold Filter.handleRpcException. by rewrite Hrpc.
      * unfold Filter.handleWsException. by rewrite Hrpc.
    + destruct (error_emits_once logger tagged1
                  (Some (map_to_list (Filter.buildErrorContext tagged1 w)))
                  None site w) as (c & Hc & Hlev).
      exists c. split; [|exact Hlev]. rewrite <- Hc.
      by destruct (h_type host).
Qed.

Lemma unloggable_error_is_silent_and_answered_witness :
  let w := freshWorld (<["requestId" := VStr "r1"]> (<["component" := VStr "http"]> ∅)) in
  let r := Filter.catch (RT := sampleRuntime) (BE := sampleErrors) moduleLogger
                        (userNotFound false) httpHost (siteOf serviceStack) w in
  emitted r.2 = []
  /\ (Filter.catch (RT := sampleRuntime) (BE := sampleErrors) moduleLogger
                   (withLoggable true (userNotFound false)) httpHost
                   (siteOf serviceStack) w).1 = r.1.
Proof.
  intros w r.
  destruct (unloggable_error_is_silent_and_answered sampleRuntime sampleErrors
              moduleLogger (userNotFound false) httpHost (siteOf serviceStack) w
              eq_refl eq_refl) as (_ & Hem & _ & Hsame).
  split; [exact Hem|].
  apply Hsame; reflexivity.
Defined.

(** C9.  A caught value takes the domain-error branch exactly when it is
    an [Error] that has a string [code], a boolean [loggable] and a
    [setTransportIfUnset] member.  Any other value, a plain object with
    these very members included, takes the generic branch, which calls
    the engine once, at error severity, whatever a [loggable] member
    says. *)
Theorem domain_branch_iff_base_error_shape :
  forall (RT : JsRuntime) (BE : BaseErrorApi) (logger : LoggerService)
         (exception : value) (host : ArgumentsHost) (site : CallSite) (w : World),
    (isBaseError exception = true <->
       Js.instanceofError exception = true
       /\ (exists code : string, Js.member "code" exception = Some (VStr code))
       /\ (exists loggable : bool,
             Js.member "loggable" exception = Some (VBool loggable))
       /\ is_Some (Js.member "setTransportIfUnset" exception))
    /\ (isBaseError exception = true ->
        Filter.catch logger exception host site w
        = Filter.catchBaseError logger exception host site w)
    /\ (isBaseError exception = false ->
        Filter.catch logger exception host site w
        = Filter.catchRegularError logger exception host site w
        /\ exists c : EngineCall,
            emitted (Filter.catch logger exception host site w).2
            = emitted w ++ [c]
            /\ ec_level c = LError)
    /\ (forall props : list (string * value),
          isBaseError (VObj props) = false).
Proof.
  intros RT BE logger exception host site w.
  split; [apply isBaseError_shape|]. split; [|split].
  - intros H. unfold Filter.catch. by rewrite H.
  - intros H. unfold Filter.catch. rewrite H. split; [reflexivity|].
    unfold Filter.catchRegularError.
    match goal with
    | |- context [Logger.error logger ?m ?meta ?c site w] =>
        destruct (error_emits_once logger m meta c site w) as (c0 & Hc & Hlev)
    end.
    exists c0. split; [|exact Hlev]. rewrite <- Hc.
    by destruct (h_type host).
  - reflexivity.
Qed.

(** ** Redaction (C6) *)


Section Redaction.





End Redaction.



(** ** [service] and [method] on http (C2) *)

Section InfoOnHttp.
Context `{RT : JsRuntime}.
Variable this : LoggerService.
Hypothesis Hsvc : lg_contextService this = true.

Lemma withCaller_other (caller : value) (context a : record) (k : string) :
  k <> "service" -> k <> "method" ->
  Logger.withCaller caller context a !! k = a !! k.
Proof.
  intros H1 H2. unfold Logger.withCaller.
  repeat case_match; rewrite ?lookup_insert_ne by done; reflexivity.
Qed.

Lemma getAutoContext_component (site : CallSite) (w : World) :
  cls w !! "component" = Some (VStr "http") ->
  (Logger.getAutoContext this site w).1 !! "component" = Some (VStr "http").
Proof.
  intros Hc. unfold Logger.getAutoContext.
  destruct (Logger.resolveCaller this site (Logger.svc_getAll this w) w) as [c w1].
  cbn [fst]. apply cleanLogData_lookup. split; [|reflexivity].
  rewrite withCaller_other by done.
  rewrite lookup_union_r by (by apply otel_other).
  unfold Logger.svc_getAll. rewrite Hsvc.
  unfold LoggerContextService.getAll, LoggerContextService.get. simpl.
  by apply map_lookup_filter_Some_2.
Qed.

Lemma mergeMetaInfo_http (meta : list (string * value)) :
  Forall (fun kv => kv.1 <> "component") meta ->
  forall r : record, httpClean r -> httpClean (Logger.mergeMetaInfo meta r).
Proof.
  induction 1 as [|[k v] meta Hk _ IH]; intros r Hr; [exact Hr|].
  rewrite mergeMetaInfo_cons. apply IH. simpl in Hk.
  destruct Hr as (Hc & Hs & Hm).
  assert (Hinc : Logger.shouldIncludeServiceMethod r = false).
  { unfold Logger.shouldIncludeServiceMethod, Js.field. by rewrite Hc. }
  rewrite Hinc. simpl orb.
  destruct (isValidContextValue v (Some k)); [|by repeat split].
  destruct (String.eqb_spec k "service") as [->|Hks]; [by repeat split|].
  destruct (String.eqb_spec k "method") as [->|Hkm]; [by repeat split|].
  simpl. unfold httpClean. by rewrite !lookup_insert_ne.
Qed.

Lemma cleanLogData_absent (r : record) (k : string) :
  r !! k = None -> cleanLogData r !! k = None.
Proof. intros H. unfold cleanLogData. apply map_lookup_filter_None_2. by left. Qed.

(** On http, [info] keeps [service] and [method] out of the record, as
    long as the metadata does not rebind [component]. *)
Lemma info_http_has_no_service_method (message : value)
      (meta : option (list (string * value))) (context : option string)
      (site : CallSite) (w : World) :
  cls w !! "component" = Some (VStr "http") ->
  (forall entries, meta = Some entries ->
                   Forall (fun kv => kv.1 <> "component") entries) ->
  lastFields (Logger.info this message meta context site w) !! "service" = None
  /\ lastFields (Logger.info this message meta context site w) !! "method" = None.
Proof.
  intros Hc Hmeta. pose proof (getAutoContext_component site w Hc) as Hauto.
  unfold Logger.info.
  destruct (Logger.getAutoContext this site w) as [auto w1]. cbn [fst] in Hauto.
  unfold lastFields, emit. cbn [emitted]. rewrite last_snoc. cbn [ec_fields].
  assert (Hclean : cleanLogData auto !! "component" = Some (VStr "http")).
  { by apply cleanLogData_lookup. }
  assert (Hinc : Logger.shouldIncludeServiceMethod (cleanLogData auto) = false).
  { unfold Logger.shouldIncludeServiceMethod, Js.field. by rewrite Hclean. }
  rewrite Hinc. simpl negb. cbv iota.
  assert (Hd : httpClean (delete "method" (delete "service" (cleanLogData auto)))).
  { repeat split.
    - by rewrite !lookup_delete_ne.
    - rewrite lookup_delete_ne by done. apply lookup_delete_eq.
    - apply lookup_delete_eq. }
  assert (Hm : httpClean
                 match meta with
                 | Some entries =>
                     Logger.mergeMetaInfo entries
                       (delete "method" (delete "service" (cleanLogData auto)))
                 | None => delete "method" (delete "service" (cleanLogData auto))
                 end).
  { destruct meta as [entries|]; [|exact Hd].
    apply mergeMetaInfo_http; [by apply Hmeta | exact Hd]. }
  destruct Hm as (_ & Hs & Hm). split; by apply cleanLogData_absent.
Qed.

End InfoOnHttp.

(** C2, evaluated.  In a scope whose [component] is [http], [warn] hands
    over the [service] and [method] of its metadata, where [info], given
    the same store and metadata, drops them; [info] lets them through as
    well once an earlier entry of the metadata has rebound [component]. *)
Theorem warn_on_http_keeps_service_and_method :
  let warned :=
    Logger.warn (RT := sampleRuntime) moduleLogger (VStr "slow")
                (Some (Meta billingMeta)) None (siteOf serviceStack)
                (freshWorld httpStore) in
  let informed :=
    Logger.info (RT := sampleRuntime) moduleLogger (VStr "slow")
                (Some billingMeta) None (siteOf serviceStack)
                (freshWorld httpStore) in
  let rebound :=
    Logger.info (RT := sampleRuntime) moduleLogger (VStr "slow")
                (Some (("component", VStr "rpc") :: billingMeta)) None
                (siteOf serviceStack) (freshWorld httpStore) in
  lastFields warned !! "component" = Some (VStr "http")
  /\ lastFields warned !! "service" = Some (VStr "Billing")
  /\ lastFields warned !! "method" = Some (VStr "charge")
  /\ lastFields informed !! "component" = Some (VStr "http")
  /\ lastFields informed !! "service" = None
  /\ lastFields informed !! "method" = None
  /\ lastFields rebound !! "service" = Some (VStr "Billing")
  /\ lastFields rebound !! "method" = Some (VStr "charge").
Proof. vm_compute. repeat split. Qed.

(** * Further properties of the code *)

(** ** Status and timing categories *)

(** X1.  [getStatusCategory] splits the status codes at 200, 300, 400 and
    500: everything below 200 is [unknown], and everything from 500 up,
    without an upper bound, is [5xx]. *)
Theorem getStatusCategory_ranges :
  forall statusCode : Z,
    (getStatusCategory statusCode = "unknown" <-> (statusCode < 200)%Z)
    /\ (getStatusCategory statusCode = "2xx" <-> (200 <= statusCode < 300)%Z)
    /\ (getStatusCategory statusCode = "3xx" <-> (300 <= statusCode < 400)%Z)
    /\ (getStatusCategory statusCode = "4xx" <-> (400 <= statusCode < 500)%Z)
    /\ (getStatusCategory statusCode = "5xx" <-> (500 <= statusCode)%Z).
Proof.
  intros n. unfold getStatusCategory.
  destruct (Z.leb_spec 200 n), (Z.ltb_spec n 300), (Z.leb_spec 300 n),
    (Z.ltb_spec n 400), (Z.leb_spec 400 n), (Z.ltb_spec n 500),
    (Z.leb_spec 500 n); simpl;
    repeat split; intros; try discriminate; try lia.
Qed.

(** X2.  [getTimeBucket] splits the durations at 100, 500, 1000 and 5000
    milliseconds; a negative duration falls into the first bucket. *)
Theorem getTimeBucket_ranges :
  forall durationMs : Z,
    (getTimeBucket durationMs = "0-100ms" <-> (durationMs < 100)%Z)
    /\ (getTimeBucket durationMs = "100-500ms" <-> (100 <= durationMs < 500)%Z)
    /\ (getTimeBucket durationMs = "500-1000ms" <-> (500 <= durationMs < 1000)%Z)
    /\ (getTimeBucket durationMs = "1-5s" <-> (1000 <= durationMs < 5000)%Z)
    /\ (getTimeBucket durationMs = "5s+" <-> (5000 <= durationMs)%Z).
Proof.
  intros d. unfold getTimeBucket.
  destruct (Z.ltb_spec d 100), (Z.ltb_spec d 500), (Z.ltb_spec d 1000),
    (Z.ltb_spec d 5000); simpl;
    repeat split; intros; try discriminate; try lia.
Qed.

(** ** Trace headers, the edges *)

(** X3.  A single-valued, non-empty [traceparent] with fewer than four
    parts yields no trace field at all: the discrete headers are not
    consulted.  A multi-valued [traceparent] is ignored in favour of the
    discrete headers. *)
Theorem malformed_traceparent_blocks_fallback :
  forall (headers : gmap string header),
    (forall tp : string,
        headers !! "traceparent" = Some (HStr tp) ->
        Str.nonempty tp = true ->
        List.length (Str.split "-" tp) < 4 ->
        extractTraceContext headers = noTrace)
    /\ (forall values : list string,
          headers !! "traceparent" = Some (HArr values) ->
          extractTraceContext headers = discreteTrace headers).
Proof.
  intros headers. split.
  - intros tp Htp Hne Hlen.
    assert (He : Headers.either headers "traceparent" "x-traceparent"
                 = Some (HStr tp)).
    { unfold Headers.either. rewrite Htp. simpl. by rewrite Hne. }
    unfold extractTraceContext. rewrite He, Hne.
    destruct (Nat.leb_spec 4 (List.length (Str.split "-" tp))); [lia | reflexivity].
  - intros values Htp. unfold extractTraceContext, Headers.either at 1.
    rewrite Htp. reflexivity.
Qed.

Lemma malformed_traceparent_blocks_fallback_witness :
  extractTraceContext
    (<["traceparent" := HStr "00-abc"]> (<["x-trace-id" := HStr "t-1"]> ∅))
  = noTrace.
Proof.
  refine (proj1 (malformed_traceparent_blocks_fallback _) "00-abc" _ _ _).
  - reflexivity.
  - reflexivity.
  - vm_compute. lia.
Defined.

(** ** The context accessor, reading back *)

Section AccessorReads.
Import LoggerContextService.

Lemma getAll_lookup (store : record) (k : string) (v : value) :
  getAll store !! k = Some v <-> store !! k = Some v /\ Js.is_undefined v = false.
Proof. unfold getAll, get. simpl. apply map_lookup_filter_Some. Qed.

Lemma seed_other (context : list (string * value)) :
  forall (store : record) (k : string),
    k ∉ context.*1 -> seed context store !! k = store !! k.
Proof.
  induction context as [|[k0 v0] context IH]; intros store k Hk; [reflexivity|].
  rewrite seed_cons. simpl in Hk. apply not_elem_of_cons in Hk as [Hne Hk].
  rewrite IH by exact Hk. unfold set, Cls.set. simpl.
  destruct (Js.is_undefined v0); [reflexivity | by rewrite lookup_insert_ne].
Qed.

Lemma seed_defined (context : list (string * value)) :
  forall (store : record) (k : string) (v : value),
    NoDup context.*1 -> (k, v) ∈ context -> Js.is_undefined v = false ->
    seed context store !! k = Some v.
Proof.
  induction context as [|[k0 v0] context IH]; intros store k v Hnd Hin Hv.
  - by apply elem_of_nil in Hin.
  - rewrite seed_cons. simpl in Hnd. apply NoDup_cons in Hnd as [Hk0 Hnd].
    apply elem_of_cons in Hin as [[= -> ->]|Hin].
    + rewrite seed_other by exact Hk0. unfold set, Cls.set. simpl.
      rewrite Hv. apply lookup_insert_eq.
    + by apply IH.
Qed.

End AccessorReads.

(** X4.  For keys without a dot: a defined value written with [set] is
    what [getValue] and [getAll] read back under that key, and no other
    key is affected; [getAll] holds exactly the entries of the store whose
    value is not [undefined]. *)
Theorem context_set_then_read :
  forall (key : string) (v : value) (store : record),
    Cls.plain key = true ->
    Js.is_undefined v = false ->
    LoggerContextService.getValue key (LoggerContextService.set key v store) = v
    /\ LoggerContextService.getAll (LoggerContextService.set key v store) !! key
       = Some v
    /\ (forall k : string,
          Cls.plain k = true ->
          k <> key ->
          LoggerContextService.getValue k (LoggerContextService.set key v store)
          = LoggerContextService.getValue k store
          /\ LoggerContextService.getAll (LoggerContextService.set key v store) !! k
             = LoggerContextService.getAll store !! k)
    /\ (forall (k : string) (x : value),
          Cls.plain k = true ->
          (LoggerContextService.getAll store !! k = Some x <->
           store !! k = Some x /\ x <> VUndefined)).
Proof.
  intros key v store _ Hv.
  unfold LoggerContextService.set. rewrite Hv.
  unfold LoggerContextService.getValue, Cls.get, Cls.set, Js.field.
  split; [by rewrite lookup_insert_eq|]. split; [|split].
  - apply getAll_lookup. split; [apply lookup_insert_eq | exact Hv].
  - intros k _ Hk. rewrite lookup_insert_ne by done. split; [reflexivity|].
    unfold LoggerContextService.getAll, LoggerContextService.get. simpl.
    rewrite !map_lookup_filter. by rewrite lookup_insert_ne.
  - intros k x _. rewrite getAll_lookup.
    split; intros [H1 H2]; (split; [exact H1|]); by destruct x.
Qed.

Lemma context_set_then_read_witness :
  LoggerContextService.getValue "userId"
    (LoggerContextService.set "userId" (VStr "u1") httpStore) = VStr "u1".
Proof.
  exact (proj1 (context_set_then_read "userId" (VStr "u1") httpStore
                  eq_refl eq_refl)).
Defined.

(** X5.  [run] does not open a scope of its own: the callback runs on
    the current store, in which every defined entry of the context is
    readable and every key the context does not name keeps its binding;
    this for a context whose keys have no dot, and for such keys. *)
Theorem run_seeds_the_current_store :
  forall (A : Type) (context : list (string * value))
         (callback : record -> A) (store : record),
    NoDup context.*1 ->
    Forall (fun kv => Cls.plain kv.1 = true) context ->
    exists seeded : record,
      LoggerContextService.run context callback store = callback seeded
      /\ (forall (k : string) (v : value),
            (k, v) ∈ context -> v <> VUndefined ->
            LoggerContextService.getValue k seeded = v)
      /\ (forall k : string,
            Cls.plain k = true -> k ∉ context.*1 ->
            LoggerContextService.getValue k seeded
            = LoggerContextService.getValue k store).
Proof.
  intros A context callback store Hnd _.
  exists (LoggerContextService.seed context store).
  split; [reflexivity|]. split.
  - intros k v Hin Hv. unfold LoggerContextService.getValue, Cls.get, Js.field.
    rewrite (seed_defined context store k v Hnd Hin); [reflexivity|].
    by destruct v.
  - intros k _ Hk.
    unfold LoggerContextService.getValue, Cls.get, Js.field.
    by rewrite seed_other.
Qed.

Lemma run_seeds_the_current_store_witness :
  exists seeded : record,
    LoggerContextService.run [("tenantId", VStr "t1"); ("userId", VUndefined)]
                             (fun st => st) httpStore = seeded
    /\ LoggerContextService.getValue "tenantId" seeded = VStr "t1"
    /\ LoggerContextService.getValue "component" seeded = VStr "http".
Proof.
  destruct (run_seeds_the_current_store record
              [("tenantId", VStr "t1"); ("userId", VUndefined)]
              (fun st => st) httpStore) as (seeded & Hrun & Hin & Hother).
  - apply (bool_decide_unpack _). by vm_compute.
  - by repeat constructor.
  - exists seeded. split; [exact Hrun|]. split.
    + apply Hin; [apply list_elem_of_here | discriminate].
    + rewrite Hother; [reflexivity | reflexivity |].
      apply (bool_decide_unpack _). by vm_compute.
Defined.

(** ** Cleaning and redacting *)

Section Validity.

Lemma isValidContextValue_key (v : value) (k : string) :
  isValidContextValue v (Some k)
  = negb (String.eqb k "context") && negb (set_has v INVALID_CONTEXT_VALUES).
Proof.
  destruct (String.eqb_spec k "context") as [->|Hne]; [reflexivity|].
  simpl. unfold isValidContextValue.
  do 7 (destruct k as [|[[] [] [] [] [] [] [] []] k]; try reflexivity).
  destruct k; [congruence | reflexivity].
Qed.

Lemma isValidContextValue_iff (v : value) (k : string) :
  isValidContextValue v (Some k) = true <->
  k <> "context" /\ (forall s, v = VStr s -> s ∉ INVALID_CONTEXT_VALUES).
Proof.
  rewrite isValidContextValue_key, andb_true_iff, !negb_true_iff.
  rewrite String.eqb_neq. apply and_iff_compat_l. split.
  - intros H s ->. simpl in H. by apply bool_decide_eq_false in H.
  - intros H. destruct v; try reflexivity.
    simpl. apply bool_decide_eq_false. by apply H.
Qed.




End Validity.



(** ** The automatic context *)

Section AutoContext.
Context `{RT : JsRuntime}.
Variable this : LoggerService.
Hypothesis Hsvc : lg_contextService this = true.

Lemma field_getAll (store : record) (k : string) :
  Js.field k (LoggerContextService.getAll store) = Js.field k store.
Proof.
  unfold Js.field, LoggerContextService.getAll, LoggerContextService.get. simpl.
  rewrite map_lookup_filter. destruct (store !! k) as [v|]; [|reflexivity].
  simpl. by destruct v.
Qed.

Lemma field_svc_getAll (w : World) (k : string) :
  Js.field k (Logger.svc_getAll this w) = Cls.get k (cls w).
Proof. unfold Logger.svc_getAll. rewrite Hsvc. apply field_getAll. Qed.

Lemma lookup_svc_getAll (w : World) (k : string) (v : value) :
  cls w !! k = Some v -> v <> VUndefined ->
  Logger.svc_getAll this w !! k = Some v.
Proof.
  intros Hk Hv. unfold Logger.svc_getAll. rewrite Hsvc.
  apply getAll_lookup. split; [exact Hk | by destruct v].
Qed.

Lemma otel_truthy (site : CallSite) (context : record) (k : string) :
  Js.truthy (Js.field k context) = true ->
  Logger.getOpenTelemetryContext site context !! k = None.
Proof.
  intros Ht. unfold Logger.getOpenTelemetryContext.
  destruct (cs_span site) as [sc|]; [|apply lookup_empty].
  destruct (decide (k = "traceId")) as [->|Hk1].
  - rewrite Ht. simpl. case_match; rewrite ?lookup_insert_ne by done;
      apply lookup_empty.
  - destruct (decide (k = "spanId")) as [->|Hk2].
    + rewrite Ht. simpl. case_match; rewrite ?lookup_insert_ne by done;
        apply lookup_empty.
    + repeat case_match; rewrite ?lookup_insert_ne by done; apply lookup_empty.
Qed.

Lemma withCaller_truthy (caller : value) (context a : record) (k : string) :
  Js.truthy (Js.field k context) = true ->
  Logger.withCaller caller context a !! k = a !! k.
Proof.
  intros Ht. unfold Logger.withCaller.
  destruct (decide (k = "service")) as [->|Hk1].
  - rewrite Ht. simpl negb. rewrite andb_false_r. simpl.
    case_match; rewrite ?lookup_insert_ne by done; reflexivity.
  - destruct (decide (k = "method")) as [->|Hk2].
    + rewrite Ht. simpl negb. rewrite (andb_false_r (Js.truthy (Js.prop "method" caller))).
      simpl. case_match; rewrite ?lookup_insert_ne by done; reflexivity.
    + repeat case_match; rewrite ?lookup_insert_ne by done; reflexivity.
Qed.

Lemma resolveCaller_not_needed (site : CallSite) (context : record) (w : World) :
  Logger.needsCaller context = false ->
  Logger.resolveCaller this site context w = (VUndefined, w).
Proof. intros H. unfold Logger.resolveCaller. by rewrite H. Qed.

Lemma performAll_not_needed (calls : list (LogCall * CallSite)) :
  forall w : World,
    Logger.needsCaller (Logger.svc_getAll this w) = false ->
    cls (performAll this calls w) = cls w
    /\ stackWalks (performAll this calls w) = stackWalks w
    /\ List.length (emitted (performAll this calls w))
       = List.length (emitted w) + List.length calls.
Proof.
  induction calls as [|[call site] calls IH]; intros w Hn.
  - simpl. repeat split. lia.
  - change (performAll this ((call, site) :: calls) w)
      with (performAll this calls (perform this call site w)).
    destruct (perform_cls this call site w) as [Hcls Hwalks].
    rewrite resolveCaller_not_needed in Hcls, Hwalks by exact Hn.
    simpl in Hcls, Hwalks.
    destruct (perform_emitted this call site w) as (c & Hem & _).
    destruct (IH (perform this call site w)) as (-> & -> & ->).
    + unfold Logger.svc_getAll in *. by rewrite Hcls.
    + rewrite Hem, length_app. simpl. repeat split; [exact Hcls | exact Hwalks | lia].
Qed.

End AutoContext.

(** X8.  Every entry of the store with a defined, valid value reaches
    the automatic context unchanged; only a falsy [traceId], [spanId],
    [service] or [method] may be replaced on the way. *)
Theorem store_entries_reach_auto_context :
  forall (this : LoggerService) (site : CallSite) (w : World)
         (k : string) (v : value),
    lg_contextService this = true ->
    cls w !! k = Some v ->
    v <> VUndefined ->
    isValidContextValue v (Some k) = true ->
    Js.truthy v = true
    \/ (k <> "traceId" /\ k <> "spanId" /\ k <> "service" /\ k <> "method") ->
    (Logger.getAutoContext this site w).1 !! k = Some v.
Proof.
  intros this site w k v Hsvc Hk Hv Hvalid Hor.
  pose proof (lookup_svc_getAll this Hsvc w k v Hk Hv) as Hctx.
  unfold Logger.getAutoContext.
  destruct (Logger.resolveCaller this site (Logger.svc_getAll this w) w) as [c w1].
  cbn [fst]. apply cleanLogData_lookup. split; [|exact Hvalid].
  destruct Hor as [Ht|(H1 & H2 & H3 & H4)].
  - assert (Hf : Js.truthy (Js.field k (Logger.svc_getAll this w)) = true).
    { unfold Js.field. by rewrite Hctx. }
    rewrite withCaller_truthy by exact Hf.
    by rewrite lookup_union_r by (by apply otel_truthy).
  - rewrite withCaller_other by done.
    by rewrite lookup_union_r by (by apply otel_other).
Qed.

Lemma store_entries_reach_auto_context_witness :
  (Logger.getAutoContext moduleLogger
     (siteOf serviceStack) (freshWorld httpStore)).1 !! "requestId"
  = Some (VStr "r1").
Proof.
  apply (store_entries_reach_auto_context moduleLogger
           (siteOf serviceStack) (freshWorld httpStore) "requestId" (VStr "r1"));
    [reflexivity | reflexivity | discriminate | reflexivity | by left].
Defined.

(** X9.  The trace id of the active OpenTelemetry span fills a gap only:
    it is the [traceId] of the automatic context when the store has none
    (or a falsy one), and the same holds for [spanId]. *)
Theorem otel_ids_fill_gaps_only :
  forall (this : LoggerService) (site : CallSite) (w : World)
         (spanContext : SpanContext),
    lg_contextService this = true ->
    cs_span site = Some spanContext ->
    (forall t : string,
        sc_traceId spanContext = Some t -> Str.nonempty t = true ->
        t ∉ INVALID_CONTEXT_VALUES ->
        Js.truthy (Cls.get "traceId" (cls w)) = false ->
        (Logger.getAutoContext this site w).1 !! "traceId" = Some (VStr t))
    /\ (forall s : string,
          sc_spanId spanContext = Some s -> Str.nonempty s = true ->
          s ∉ INVALID_CONTEXT_VALUES ->
          Js.truthy (Cls.get "spanId" (cls w)) = false ->
          (Logger.getAutoContext this site w).1 !! "spanId" = Some (VStr s)).
Proof.
  intros this site w sc Hsvc Hspan.
  split.
  - intros t Ht Hne Hinv Hfalsy.
    unfold Logger.getAutoContext.
    destruct (Logger.resolveCaller this site (Logger.svc_getAll this w) w) as [c w1].
    cbn [fst]. apply cleanLogData_lookup. split.
    + rewrite withCaller_other by done.
      apply lookup_union_Some_raw. left.
      unfold Logger.getOpenTelemetryContext. rewrite Hspan.
      rewrite !(field_svc_getAll this Hsvc), Hfalsy, Ht. simpl. rewrite Hne.
      case_match; rewrite ?lookup_insert_ne by done; apply lookup_insert_eq.
    + apply isValidContextValue_iff. split; [done|]. by intros s [= <-].
  - intros s Hs Hne Hinv Hfalsy.
    unfold Logger.getAutoContext.
    destruct (Logger.resolveCaller this site (Logger.svc_getAll this w) w) as [c w1].
    cbn [fst]. apply cleanLogData_lookup. split.
    + rewrite withCaller_other by done.
      apply lookup_union_Some_raw. left.
      unfold Logger.getOpenTelemetryContext. rewrite Hspan.
      rewrite !(field_svc_getAll this Hsvc), Hfalsy, Hs. simpl. rewrite Hne.
      apply lookup_insert_eq.
    + apply isValidContextValue_iff. split; [done|]. by intros s' [= <-].
Qed.

Lemma otel_ids_fill_gaps_only_witness :
  (Logger.getAutoContext moduleLogger
     {| cs_stack := None;
        cs_span := Some {| sc_traceId := Some "4bf92f35"; sc_spanId := None |} |}
     (freshWorld httpStore)).1 !! "traceId"
  = Some (VStr "4bf92f35").
Proof.
  refine (proj1 (otel_ids_fill_gaps_only moduleLogger
                   {| cs_stack := None;
                      cs_span := Some {| sc_traceId := Some "4bf92f35";
                                         sc_spanId := None |} |}
                   (freshWorld httpStore)
                   {| sc_traceId := Some "4bf92f35"; sc_spanId := None |}
                   eq_refl eq_refl)
            "4bf92f35" eq_refl eq_refl _ eq_refl).
  apply (bool_decide_unpack _). by vm_compute.
Defined.

(** X10.  While the store names the component [http], or a truthy
    [service] or [method], no log call walks the stack or writes to the
    store, however many calls are made; and when every message has a
    text, each call reaches the engine. *)
Theorem no_stack_walk_without_need :
  forall (RT : JsRuntime) (this : LoggerService)
         (calls : list (LogCall * CallSite)) (w : World),
    lg_contextService this = true ->
    Js.is_string "http" (Cls.get "component" (cls w))
    || Js.truthy (Cls.get "service" (cls w))
    || Js.truthy (Cls.get "method" (cls w)) = true ->
    stackWalks (performAll this calls w) = stackWalks w
    /\ cls (performAll this calls w) = cls w
    /\ (Forall (fun c => Logger.formattable (callMessage c.1) = true) calls ->
        List.length (emitted (performAll this calls w))
        = List.length (emitted w) + List.length calls).
Proof.
  intros RT this calls w Hsvc Hor.
  destruct (performAll_not_needed this calls w) as (H1 & H2 & H3).
  - unfold Logger.needsCaller, Logger.shouldIncludeServiceMethod.
    rewrite !(field_svc_getAll this Hsvc).
    destruct (Js.is_string "http" (Cls.get "component" (cls w))); [reflexivity|].
    destruct (Js.truthy (Cls.get "service" (cls w))); [reflexivity|].
    simpl in Hor. by rewrite Hor.
  - by repeat split.
Qed.

Lemma no_stack_walk_without_need_witness :
  let w :=
    performAll (H := sampleRuntime) moduleLogger
       [(CallDebug (VStr "a") None, siteOf serviceStack);
        (CallInfo (VStr "b") None None, siteOf serviceStack)]
       (freshWorld httpStore) in
  stackWalks w = 0 /\ List.length (emitted w) = 2.
Proof.
  intros w.
  destruct (no_stack_walk_without_need sampleRuntime moduleLogger
              [(CallDebug (VStr "a") None, siteOf serviceStack);
               (CallInfo (VStr "b") None None, siteOf serviceStack)]
              (freshWorld httpStore) eq_refl eq_refl) as (Hwalks & _ & Hlen).
  split; [exact Hwalks|]. apply Hlen. by repeat constructor.
Defined.

(** ** What every operation hands to the engine *)

Section Shape.
Context `{RT : JsRuntime}.
Variable this : LoggerService.

Lemma validFields_clean (r : record) : validFields (cleanLogData r).
Proof. intros k v Hk _ _ _. by apply cleanLogData_lookup in Hk as [_ Hv]. Qed.

Lemma validFields_mergeMeta (meta : list (string * value)) :
  forall r : record, validFields r -> validFields (Logger.mergeMeta meta r).
Proof.
  induction meta as [|[k0 v0] meta IH]; intros r Hr; [exact Hr|].
  rewrite mergeMeta_cons. apply IH.
  destruct (isValidContextValue v0 (Some k0)) eqn:Hv; [|exact Hr].
  intros k v Hk H1 H2 H3. apply lookup_insert_Some in Hk as [[<- <-]|[_ Hk]];
    [exact Hv | by apply Hr].
Qed.

Lemma validFields_auto (site : CallSite) (w : World) :
  validFields (Logger.getAutoContext this site w).1.
Proof.
  unfold Logger.getAutoContext.
  destruct (Logger.resolveCaller this site (Logger.svc_getAll this w) w).
  apply validFields_clean.
Qed.

Lemma validFields_withErrorFields (name : string) (stack : option string)
      (cause : value) (base : record) :
  validFields base -> validFields (Logger.withErrorFields name stack cause base).
Proof.
  intros Hb k v Hk H1 H2 H3. rewrite withErrorFields_other in Hk by done.
  by apply Hb.
Qed.

Lemma prefixed_starts (formatted p : string) :
  Str.startsWith (if Str.startsWith formatted p then formatted
                  else p +:+ " " +:+ formatted) p = true.
Proof.
  destruct (Str.startsWith formatted p) eqn:Hp; [exact Hp|].
  unfold Str.startsWith. apply prefix_append.
Qed.

Lemma formatMessage_starts (message : value) (context : record) (L : string) :
  context !! "context" = Some (VStr L) ->
  Str.nonempty L = true ->
  Str.startsWith (Logger.formatMessage message (Some context)) (bracket L) = true.
Proof.
  intros Hc HL. unfold Logger.formatMessage, Js.field. rewrite Hc. simpl.
  rewrite HL. apply prefixed_starts.
Qed.

Lemma label_explicit (L : string) (autoContext : record) :
  Str.nonempty L = true -> Logger.label this (Some L) autoContext = VStr L.
Proof. intros HL. unfold Logger.label, Js.or. simpl. by rewrite HL. Qed.

Lemma labelled_starts (message : value) (logData : record) (L : string)
      (autoContext : record) :
  Str.nonempty L = true ->
  Str.startsWith
    (Logger.formatMessage message
       (Logger.labelled logData (Logger.label this (Some L) autoContext)))
    (bracket L) = true.
Proof.
  intros HL. rewrite label_explicit by exact HL. unfold Logger.labelled.
  apply formatMessage_starts; [apply lookup_insert_eq | exact HL].
Qed.

Lemma perform_shape (call : LogCall) (site : CallSite) (w : World) :
  exists (fields : record) (msg : string),
    perform this call site w
    = emit (levelOf call) fields msg (Logger.getAutoContext this site w).2
    /\ validFields fields
    /\ (forall L : string,
          explicitLabel call = Some L -> Str.nonempty L = true ->
          Str.startsWith msg (bracket L) = true).
Proof.
  pose proof (validFields_auto site w) as Hauto.
  destruct call; simpl;
    [ unfold Logger.log | unfold Logger.error | unfold Logger.warn
    | unfold Logger.debug | unfold Logger.verbose | unfold Logger.info
    | unfold Logger.fatal ];
    destruct (Logger.getAutoContext this site w) as [auto w1];
    cbn [fst snd] in *.
  - do 2 eexists. split; [reflexivity|]. split; [|intros L [=]].
    intros k v Hk H1 H2 H3. apply lookup_delete_Some in Hk as [_ Hk].
    by apply Hauto.
  - assert (Hbase : validFields match meta with
                                | Some entries =>
                                    Logger.mergeMeta entries (cleanLogData auto)
                                | None => cleanLogData auto
                                end).
    { destruct meta; [apply validFields_mergeMeta|]; apply validFields_clean. }
    destruct message; do 2 eexists; (split; [reflexivity|]);
      (split; [first [exact Hbase | by apply validFields_withErrorFields]|]);
      intros L -> HL; by apply labelled_starts.
  - destruct metaOrContext as [[entries|c]|]; cbn [explicitLabel].
    + do 2 eexists. split; [reflexivity|].
      split; [apply validFields_mergeMeta, validFields_clean|].
      intros L -> HL. by apply labelled_starts.
    + destruct (Str.nonempty c) eqn:Hc; do 2 eexists;
        (split; [reflexivity|]); (split; [apply validFields_clean|]).
      * intros L [= <-] HL. by apply labelled_starts.
      * intros L -> HL. by apply labelled_starts.
    + do 2 eexists. split; [reflexivity|]. split; [apply validFields_clean|].
      intros L -> HL. by apply labelled_starts.
  - do 2 eexists. split; [reflexivity|]. split; [apply validFields_clean|].
    intros L -> HL. by apply labelled_starts.
  - do 2 eexists. split; [reflexivity|]. split; [apply validFields_clean|].
    intros L -> HL. by apply labelled_starts.
  - do 2 eexists. split; [reflexivity|]. split; [apply validFields_clean|].
    intros L -> HL. by apply labelled_starts.
  - destruct message; do 2 eexists; (split; [reflexivity|]);
      (split; [first [apply validFields_clean
                     | apply validFields_withErrorFields, validFields_clean]|]);
      intros L -> HL; by apply labelled_starts.
Qed.

Lemma perform_last (call : LogCall) (site : CallSite) (w : World) :
  exists c : EngineCall,
    emitted (perform this call site w) = emitted w ++ [c]
    /\ ec_level c = levelOf call
    /\ validFields (ec_fields c)
    /\ (forall L : string,
          explicitLabel call = Some L -> Str.nonempty L = true ->
          Str.startsWith (ec_msg c) (bracket L) = true).
Proof.
  destruct (perform_shape call site w) as (fields & msg & -> & Hv & Hl).
  eexists. unfold emit; simpl. rewrite getAutoContext_emitted.
  split; [reflexivity|]. by repeat split.
Qed.

Lemma resolveCaller_walks (site : CallSite) (context : record) (w : World) :
  stackWalks (Logger.resolveCaller this site context w).2 <= S (stackWalks w).
Proof.
  unfold Logger.resolveCaller, Logger.svc_set, with_cls, walked.
  repeat (case_match; simpl); lia.
Qed.

Lemma mergeMeta_other (meta : list (string * value)) :
  forall (r : record) (k : string),
    k ∉ meta.*1 -> Logger.mergeMeta meta r !! k = r !! k.
Proof.
  induction meta as [|[k0 v0] meta IH]; intros r k Hk; [reflexivity|].
  rewrite mergeMeta_cons. simpl in Hk. apply not_elem_of_cons in Hk as [Hne Hk].
  rewrite IH by exact Hk.
  destruct (isValidContextValue v0 (Some k0)); [by rewrite lookup_insert_ne | done].
Qed.

Lemma mergeMeta_entry (meta : list (string * value)) :
  forall (r : record) (k : string) (v : value),
    NoDup meta.*1 -> (k, v) ∈ meta -> isValidContextValue v (Some k) = true ->
    Logger.mergeMeta meta r !! k = Some v.
Proof.
  induction meta as [|[k0 v0] meta IH]; intros r k v Hnd Hin Hv.
  - by apply elem_of_nil in Hin.
  - rewrite mergeMeta_cons. simpl in Hnd. apply NoDup_cons in Hnd as [Hk0 Hnd].
    apply elem_of_cons in Hin as [[= -> ->]|Hin].
    + rewrite mergeMeta_other by exact Hk0. rewrite Hv. apply lookup_insert_eq.
    + by apply IH.
Qed.

End Shape.

(** X11.  Each of the seven operations, given a message that has a text,
    calls the engine exactly once, at its own level ([log] at info,
    [verbose] at trace); whatever the message, it walks the stack at most
    once and leaves every key of the store but [_cachedCaller] as it
    was. *)
Theorem each_operation_calls_the_engine_once :
  forall (RT : JsRuntime) (this : LoggerService) (call : LogCall)
         (site : CallSite) (w : World),
    (Logger.formattable (callMessage call) = true ->
     exists c : EngineCall,
       emitted (perform this call site w) = emitted w ++ [c]
       /\ ec_level c = levelOf call)
    /\ stackWalks w <= stackWalks (perform this call site w) <= S (stackWalks w)
    /\ (forall k : string,
          k <> "_cachedCaller" -> cls (perform this call site w) !! k = cls w !! k).
Proof.
  intros RT this call site w.
  destruct (perform_last this call site w) as (c & Hem & Hlev & _).
  destruct (perform_cls this call site w) as [Hcls Hwalks].
  split; [by exists c|]. split.
  - rewrite Hwalks. split; [|apply resolveCaller_walks].
    unfold Logger.resolveCaller, Logger.svc_set, with_cls, walked.
    repeat (case_match; simpl); lia.
  - intros k Hk. rewrite Hcls. by apply resolveCaller_cls_other.
Qed.

Lemma each_operation_calls_the_engine_once_witness :
  exists c : EngineCall,
    emitted (perform (H := sampleRuntime) moduleLogger
                     (CallVerbose (VObj [("step", VNum 3)]) (Some "Import"))
                     (siteOf serviceStack) (freshWorld httpStore)) = [c]
    /\ ec_level c = LTrace.
Proof.
  exact (proj1 (each_operation_calls_the_engine_once sampleRuntime moduleLogger
                  (CallVerbose (VObj [("step", VNum 3)]) (Some "Import"))
                  (siteOf serviceStack) (freshWorld httpStore)) eq_refl).
Defined.

(** X12.  Whatever the store and the metadata hold, no field of a record,
    the [errorName], [stack] and [cause] of an [Error] message apart, is
    named [context] or holds one of the invalid context values. *)
Theorem record_values_are_valid :
  forall (RT : JsRuntime) (this : LoggerService) (call : LogCall)
         (site : CallSite) (w : World) (k : string) (v : value),
    lastFields (perform this call site w) !! k = Some v ->
    k <> "errorName" -> k <> "stack" -> k <> "cause" ->
    k <> "context" /\ (forall s, v = VStr s -> s ∉ INVALID_CONTEXT_VALUES).
Proof.
  intros RT this call site w k v Hk H1 H2 H3.
  destruct (perform_last this call site w) as (c & Hem & _ & Hv & _).
  unfold lastFields in Hk. rewrite Hem, last_snoc in Hk.
  apply isValidContextValue_iff. by apply (Hv k v).
Qed.

Lemma record_values_are_valid_witness :
  "userId" <> "context"
  /\ (forall s, VStr "u1" = VStr s -> s ∉ INVALID_CONTEXT_VALUES).
Proof.
  apply (record_values_are_valid sampleRuntime moduleLogger
           (CallWarn (VStr "m")
                     (Some (Meta [("userId", VStr "u1"); ("kind", VStr "Array")]))
                     None)
           (siteOf serviceStack) (freshWorld httpStore) "userId" (VStr "u1"));
    [reflexivity | discriminate..].
Defined.

(** X13.  A non-empty label passed explicitly to [error], [warn], [debug],
    [verbose], [info] or [fatal] (for [warn] also as a string in the
    second position, which then wins over the third) opens the emitted
    message, in brackets, when the message argument has a text. *)
Theorem explicit_label_opens_the_message :
  forall (RT : JsRuntime) (this : LoggerService) (call : LogCall)
         (site : CallSite) (w : World) (L : string),
    Logger.formattable (callMessage call) = true ->
    explicitLabel call = Some L ->
    Str.nonempty L = true ->
    Str.startsWith (lastMessage (perform this call site w)) ("[" +:+ L +:+ "]")
    = true.
Proof.
  intros RT this call site w L _ HL Hne.
  destruct (perform_last this call site w) as (c & Hem & _ & _ & Hl).
  unfold lastMessage. rewrite Hem, last_snoc. by apply Hl.
Qed.

Lemma explicit_label_opens_the_message_witness :
  Str.startsWith
    (lastMessage
       (perform (H := sampleRuntime) moduleLogger
                (CallWarn (VStr "disk almost full") (Some (Context "Storage"))
                          (Some "Ignored"))
                (siteOf serviceStack) (freshWorld httpStore)))
    "[Storage]" = true.
Proof.
  apply (explicit_label_opens_the_message sampleRuntime moduleLogger
           (CallWarn (VStr "disk almost full") (Some (Context "Storage"))
                     (Some "Ignored"))
           (siteOf serviceStack) (freshWorld httpStore) "Storage"); reflexivity.
Defined.



(** ** The exception filter, the rest of it *)

Section FilterMore.
Context `{RT : JsRuntime} `{BE : BaseErrorApi}.
Variable logger : LoggerService.

Lemma extractClsContext_other (w : World) (k : string) :
  k ∉ Filter.relevantKeys -> Filter.extractClsContext w !! k = None.
Proof.
  unfold Filter.extractClsContext.
  assert (H : forall (keys : list string) (init : record),
             k ∉ keys ->
             fold_left (fun clsContext key =>
                          let v := Cls.get key (cls w) in
                          if Js.is_undefined v then clsContext
                          else <[key := v]> clsContext) keys init !! k
             = init !! k).
  { induction keys as [|key keys IH]; intros init Hk; [reflexivity|].
    apply not_elem_of_cons in Hk as [Hne Hk]. simpl. rewrite IH by exact Hk.
    destruct (Js.is_undefined (Cls.get key (cls w)));
      [reflexivity | by rewrite lookup_insert_ne]. }
  intros Hk. by rewrite H.
Qed.

Lemma buildErrorContext_errorCode (exception : value) (w : World) :
  Filter.buildErrorContext exception w !! "errorCode"
  = Some (Js.prop "code" exception).
Proof.
  unfold Filter.buildErrorContext.
  rewrite lookup_union_r.
  - unfold Filter.withStack, Filter.spreadIf.
    repeat case_match; rewrite ?lookup_insert_ne by done; apply lookup_insert_eq.
  - apply extractClsContext_other. apply (bool_decide_unpack _). by vm_compute.
Qed.

Lemma error_record_meta (message : value) (meta : record)
      (site : CallSite) (w : World) (k : string) (v : value) :
  meta !! k = Some v ->
  isValidContextValue v (Some k) = true ->
  k <> "errorName" -> k <> "stack" -> k <> "cause" ->
  lastFields (Logger.error logger message (Some (map_to_list meta)) None site w) !! k
  = Some v.
Proof.
  intros Hk Hv H1 H2 H3.
  assert (Hm : forall r, Logger.mergeMeta (map_to_list meta) r !! k = Some v).
  { intros r. apply mergeMeta_entry; [apply NoDup_fst_map_to_list | | exact Hv].
    by apply elem_of_map_to_list. }
  unfold Logger.error.
  destruct (Logger.getAutoContext logger site w) as [auto w1]. cbn [fst snd].
  destruct message; unfold lastFields, emit; cbn [emitted]; rewrite last_snoc;
    cbn [ec_fields]; rewrite ?withErrorFields_other by done; apply Hm.
Qed.

End FilterMore.

(** X15.  How a caught value is answered depends on the context type
    alone: a reply over http, an [RpcException] over rpc, a
    [WsException] over ws; under any other context type the filter
    neither replies nor throws. *)
Theorem outcome_follows_the_context_type :
  forall (RT : JsRuntime) (BE : BaseErrorApi) (logger : LoggerService)
         (exception : value) (host : ArgumentsHost) (site : CallSite) (w : World),
    let outcome := (Filter.catch logger exception host site w).1 in
    (h_type host = Http -> exists reply, outcome = Replied reply)
    /\ (h_type host = Rpc -> exists payload, outcome = Thrown (RpcException payload))
    /\ (h_type host = Ws -> exists payload, outcome = Thrown (WsException payload))
    /\ (forall name, h_type host = OtherContext name -> outcome = Nothing).
Proof.
  intros RT BE logger exception host site w outcome. unfold outcome.
  unfold Filter.catch, Filter.catchBaseError, Filter.catchRegularError.
  destruct (isBaseError exception); cbv zeta;
    (repeat split; [intros H | intros H | intros H | intros name H];
     rewrite H; cbn [fst]; eauto).
Qed.

(** X16.  A value that is not a [BaseError] is answered generically.  Over
    http the status is 500 and the body has the four fields [code],
    [message], [timestamp] and [path] and no other: the message is the
    error's own, or [An error occurred] when that is empty; the
    [x-request-id] header is the one the store had before logging.  Over
    rpc and ws the exception carries the same code and message. *)
Theorem regular_error_is_answered_generically :
  forall (RT : JsRuntime) (BE : BaseErrorApi) (logger : LoggerService)
         (exception : value) (host : ArgumentsHost) (site : CallSite) (w : World),
    isBaseError exception = false ->
    let outcome := (Filter.catch logger exception host site w).1 in
    let message := Js.or (VStr (messageOf exception)) (VStr "An error occurred") in
    (h_type host = Http ->
     exists reply : HttpReply,
       outcome = Replied reply
       /\ rp_status reply = VNum 500
       /\ rp_headers reply = Filter.requestIdHeader w
       /\ dom (rp_body reply) = {[ "code"; "message"; "timestamp"; "path" ]}
       /\ rp_body reply !! "code" = Some (VStr "INTERNAL_SERVER_ERROR")
       /\ rp_body reply !! "message" = Some message
       /\ rp_body reply !! "timestamp" = Some (VStr (h_now host))
       /\ rp_body reply !! "path" = Some (VStr (h_url host)))
    /\ (h_type host = Rpc ->
        outcome = Thrown (RpcException
                            (VObj [("code", VStr "INTERNAL_SERVER_ERROR");
                                   ("message", message)])))
    /\ (h_type host = Ws ->
        outcome = Thrown (WsException
                            (VObj [("code", VStr "INTERNAL_SERVER_ERROR");
                                   ("message", message)]))).
Proof.
  intros RT BE logger exception host site w Hbase outcome message.
  unfold outcome, Filter.catch. rewrite Hbase.
  unfold Filter.catchRegularError. cbv zeta.
  set (error := if Js.instanceofError exception then exception
                else VError "Error" (String_of exception) (h_newErrorStack host)
                            VUndefined []).
  assert (Hmsg : Js.or (Js.prop "message" error) (VStr "An error occurred") = message).
  { unfold message, error, messageOf. by destruct exception. }
  split; [|split]; intros Ht; rewrite Ht; cbn [fst].
  - eexists. split; [reflexivity|]. cbn [rp_status rp_headers rp_body].
    split; [reflexivity|]. split; [apply requestIdHeader_error|].
    unfold Filter.stamped, Filter.genericPayload. rewrite Hmsg.
    split.
    + rewrite !dom_insert_L, dom_empty_L. set_solver.
    + repeat split; rewrite ?lookup_insert_ne by done; apply lookup_insert_eq.
  - unfold Filter.handleRpcExceptionForRegularError, Filter.genericRpcPayload.
    by rewrite Hmsg.
  - unfold Filter.handleWsExceptionForRegularError, Filter.genericRpcPayload.
    by rewrite Hmsg.
Qed.

Lemma regular_error_is_answered_generically_witness :
  (Filter.catch (RT := sampleRuntime) (BE := sampleErrors) moduleLogger
                (VObj [("reason", VStr "boom")])
                {| h_type := Rpc; h_url := ""; h_now := ""; h_newErrorStack := None |}
                (siteOf serviceStack) (freshWorld ∅)).1
  = Thrown (RpcException (VObj [("code", VStr "INTERNAL_SERVER_ERROR");
                                ("message", VStr "[object Object]")])).
Proof.
  exact (proj1 (proj2 (regular_error_is_answered_generically sampleRuntime
                         sampleErrors moduleLogger (VObj [("reason", VStr "boom")])
                         {| h_type := Rpc; h_url := ""; h_now := "";
                            h_newErrorStack := None |}
                         (siteOf serviceStack) (freshWorld ∅) eq_refl))
               eq_refl).
Defined.

(** X17.  A [BaseError] whose [loggable] flag is [true] is logged exactly
    once, at error severity, and the record carries its [code] under
    [errorCode] (unless the code is one of the invalid context values). *)
Theorem loggable_error_is_logged_with_its_code :
  forall (RT : JsRuntime) (BE : BaseErrorApi) (logger : LoggerService)
         (e : value) (host : ArgumentsHost) (site : CallSite) (w : World)
         (code : string),
    isBaseError e = true ->
    Js.prop "loggable" e = VBool true ->
    Js.prop "code" e = VStr code ->
    code ∉ INVALID_CONTEXT_VALUES ->
    exists c : EngineCall,
      emitted (Filter.catch logger e host site w).2 = emitted w ++ [c]
      /\ ec_level c = LError
      /\ ec_fields c !! "errorCode" = Some (VStr code).
Proof.
  intros RT BE logger e host site w code Hbase Hlog Hcode Hinv.
  unfold Filter.catch. rewrite Hbase. unfold Filter.catchBaseError. cbv zeta.
  rewrite tagTransport_frame by done. rewrite Hlog. simpl Js.truthy. cbv iota.
  set (tagged := Filter.tagTransport (h_type host) e).
  set (meta := Filter.buildErrorContext tagged w).
  assert (Hsnd : (match h_type host with
                  | Http => (Filter.handleHttpException tagged host
                               (Logger.error logger tagged (Some (map_to_list meta))
                                             None site w),
                             Logger.error logger tagged (Some (map_to_list meta))
                                          None site w)
                  | Rpc => (Filter.handleRpcException tagged,
                            Logger.error logger tagged (Some (map_to_list meta))
                                         None site w)
                  | Ws => (Filter.handleWsException tagged,
                           Logger.error logger tagged (Some (map_to_list meta))
                                        None site w)
                  | OtherContext _ =>
                      (Nothing,
                       Logger.error logger tagged (Some (map_to_list meta))
                                    None site w)
                  end).2
                 = Logger.error logger tagged (Some (map_to_list meta)) None site w).
  { by destruct (h_type host). }
  rewrite Hsnd. clear Hsnd.
  destruct (error_emits_once logger tagged (Some (map_to_list meta)) None site w)
    as (c & Hc & Hlev).
  exists c. split; [exact Hc|]. split; [exact Hlev|].
  assert (Hlast : lastFields (Logger.error logger tagged (Some (map_to_list meta))
                                           None site w) !! "errorCode"
                  = Some (VStr code)).
  { apply error_record_meta; try done.
    - unfold meta. rewrite buildErrorContext_errorCode.
      unfold tagged. rewrite tagTransport_frame by done. by rewrite Hcode.
    - apply isValidContextValue_iff. split; [done|]. by intros s [= <-]. }
  unfold lastFields in Hlast. by rewrite Hc, last_snoc in Hlast.
Qed.

Lemma loggable_error_is_logged_with_its_code_witness :
  exists c : EngineCall,
    emitted (Filter.catch (RT := sampleRuntime) (BE := sampleErrors) moduleLogger
               (userNotFound true) httpHost (siteOf serviceStack)
               (freshWorld httpStore)).2 = [c]
    /\ ec_fields c !! "errorCode" = Some (VStr "USER_NOT_FOUND").
Proof.
  destruct (loggable_error_is_logged_with_its_code sampleRuntime sampleErrors
              moduleLogger (userNotFound true) httpHost (siteOf serviceStack)
              (freshWorld httpStore) "USER_NOT_FOUND" eq_refl eq_refl eq_refl)
    as (c & Hc & _ & Hcode).
  - apply (bool_decide_unpack _). by vm_compute.
  - exists c. split; [exact Hc | exact Hcode].
Defined.

(** ** The caller resolver *)

Section CallerFacts.

Lemma inspect_acceptable (line : string) (caller : value) :
  Caller.inspect line = Some caller ->
  exists service method,
    caller = Caller.found service method /\ acceptable service method.
Proof.
  unfold Caller.inspect. intros H.
  repeat (case_match; try discriminate H); injection H as <-;
    do 2 eexists; (split; [reflexivity|]); unfold acceptable;
    repeat match goal with
      | Hb : _ && _ = true |- _ => apply andb_prop in Hb as [? ?]
      | Hb : _ || _ = false |- _ => apply orb_false_elim in Hb as [? ?]
      | Hb : negb _ = true |- _ => apply negb_true_iff in Hb
      | Hb : negb _ = false |- _ => apply negb_false_iff in Hb
      | Hb : bool_decide _ = false |- _ => apply bool_decide_eq_false in Hb
      end;
    repeat split; try assumption;
    try (intros m' [= <-]; intros; try reflexivity);
    try (intros m' [=]).
  all: try match goal with
      | Hb : _ && _ = false |- _ =>
          apply andb_false_iff in Hb as [Hb|Hb];
          [congruence | by apply bool_decide_eq_false in Hb]
      end.
Qed.

Lemma scan_acceptable (lines : list string) :
  Caller.scan lines = Caller.empty
  \/ (exists service method,
         Caller.scan lines = Caller.found service method
         /\ acceptable service method).
Proof.
  induction lines as [|line lines IH]; [by left|].
  simpl. destruct (Caller.inspect line) as [caller|] eqn:Hi; [|exact IH].
  right. by apply inspect_acceptable in Hi.
Qed.

End CallerFacts.

(** X18.  For every stack, [getCallerContext] returns the empty object or
    a caller whose service is a non-empty name that is no internal class
    (so never [LoggerService] itself) and contains neither [Internal]
    nor [Operator]; its method is no internal method name, except
    [constructor] for a constructor frame. *)
Theorem caller_is_never_internal :
  forall stack : option string,
    Caller.getCallerContext stack = VObj []
    \/ (exists (service : string) (method : option string),
           Caller.getCallerContext stack
           = VObj [("service", VStr service); ("method", Js.ofString method)]
           /\ Str.nonempty service = true
           /\ (service ∉ INTERNAL_CLASSES)
           /\ service <> "LoggerService"
           /\ Str.includes service "Internal" = false
           /\ Str.includes service "Operator" = false
           /\ (forall m, method = Some m -> Str.nonempty m = true ->
                          m ∈ INTERNAL_METHODS -> m = "constructor")).
Proof.
  intros stack. unfold Caller.getCallerContext.
  destruct stack as [stack|]; [|by left].
  destruct (Str.nonempty stack); simpl; [|by left].
  match goal with |- context [Caller.scan ?l] =>
    destruct (scan_acceptable l) as [->|(service & method & -> & Ha)] end;
    [by left|].
  right. exists service, method. destruct Ha as (H1 & H2 & H3 & H4 & H5).
  repeat split; try assumption.
  intros ->. apply H2. apply (bool_decide_unpack _). by vm_compute.
Qed.

(** ** The HTTP interceptor, before the handler runs *)

Section Interceptor.
Import HttpInterceptor.

Lemma orElse_nonempty (a : option string) (b : string) :
  Str.nonempty b = true -> Str.nonempty (orElse a b) = true.
Proof.
  intros Hb. unfold orElse. destruct a as [s|]; [|exact Hb].
  by destruct (Str.nonempty s) eqn:Hs.
Qed.

Lemma setContext_seed (entries : list (string * value)) (store : record) :
  setContext entries store = LoggerContextService.seed entries store.
Proof. reflexivity. Qed.

Lemma loggerCtx_NoDup (request : HttpRequest) (activeSpan : option SpanContext)
      (uuids : Uuids) :
  NoDup (loggerCtx request activeSpan uuids).*1.
Proof.
  unfold loggerCtx.
  destruct (truthy (traceFlags (extractTraceContext (rq_headers request))));
    apply (bool_decide_unpack _); by vm_compute.
Qed.

Lemma loggerCtx_keys (request : HttpRequest) (activeSpan : option SpanContext)
      (uuids : Uuids) (k : string) :
  k ∉ ["requestId"; "userId"; "userRole"; "component"; "traceId"; "spanId";
       "parentSpanId"; "traceFlags"] ->
  k ∉ (loggerCtx request activeSpan uuids).*1.
Proof.
  unfold loggerCtx.
  destruct (truthy (traceFlags (extractTraceContext (rq_headers request))));
    simpl; rewrite !not_elem_of_cons; tauto.
Qed.

Lemma prepared_lookup (request : HttpRequest) (activeSpan : option SpanContext)
      (uuids : Uuids) (store : record) (k : string) (v : value) :
  (k, v) ∈ loggerCtx request activeSpan uuids ->
  Js.is_undefined v = false ->
  setContext (loggerCtx request activeSpan uuids) store !! k = Some v.
Proof.
  intros Hin Hv. rewrite setContext_seed.
  apply seed_defined; [apply loggerCtx_NoDup | exact Hin | exact Hv].
Qed.

End Interceptor.

(** X19.  For a request that is not skipped, and given that [uuid()]
    returns non-empty strings, the interceptor binds a non-empty
    [requestId], the component [http] and a non-empty [spanId] in the
    store, and sets [x-request-id] first and [x-span-id] last on the
    response, to the same ids.  Whenever it sets [x-trace-id], the store
    holds that trace id and a [traceparent] header is set from it and the
    span id.  Keys of the store it has no value for stay as they were. *)
Theorem prepare_binds_ids_and_headers :
  forall (options : HttpLoggingInterceptorOptions) (request : HttpRequest)
         (activeSpan : option SpanContext) (uuids : Uuids) (store store' : record)
         (headers : list (string * string)),
    HttpInterceptor.prepare options request activeSpan uuids store
    = Some (headers, store') ->
    Str.nonempty (uuid_request uuids) = true ->
    Str.nonempty (uuid_span uuids) = true ->
    let rid := HttpInterceptor.requestId request uuids in
    let sid := HttpInterceptor.finalSpanId request activeSpan uuids in
    Str.nonempty rid = true
    /\ Str.nonempty sid = true
    /\ store' !! "requestId" = Some (VStr rid)
    /\ store' !! "component" = Some (VStr "http")
    /\ store' !! "spanId" = Some (VStr sid)
    /\ head headers = Some ("x-request-id", rid)
    /\ last headers = Some ("x-span-id", sid)
    /\ (forall t : string,
          ("x-trace-id", t) ∈ headers ->
          Str.nonempty t = true
          /\ store' !! "traceId" = Some (VStr t)
          /\ ("traceparent", "00-" +:+ t +:+ "-" +:+ sid +:+ "-01") ∈ headers)
    /\ (forall k : string,
          k ∉ ["requestId"; "userId"; "userRole"; "component"; "traceId";
               "spanId"; "parentSpanId"; "traceFlags"] ->
          store' !! k = store !! k).
Proof.
  intros options request span uuids store store' headers Hp Hu1 Hu2 rid sid.
  unfold HttpInterceptor.prepare in Hp.
  destruct (HttpInterceptor.skipped options request); [discriminate Hp|].
  assert (Hh : headers = HttpInterceptor.responseHeaders request span uuids)
    by congruence.
  assert (Hst : store' = HttpInterceptor.setContext
                           (HttpInterceptor.loggerCtx request span uuids) store)
    by congruence.
  clear Hp. subst headers. rename store' into st.
  assert (Hin : forall k v,
             In (k, v) (HttpInterceptor.loggerCtx request span uuids) ->
             Js.is_undefined v = false -> st !! k = Some v).
  { intros k v Hkv Hv. subst st. apply prepared_lookup; [|exact Hv].
    by apply list_elem_of_In. }
  split; [by apply orElse_nonempty|]. split; [by apply orElse_nonempty|].
  split; [apply Hin; [simpl; tauto | reflexivity]|].
  split; [apply Hin; [simpl; tauto | reflexivity]|].
  split; [apply Hin; [simpl; tauto | reflexivity]|].
  split; [reflexivity|].
  split; [unfold HttpInterceptor.responseHeaders; rewrite app_assoc; apply last_snoc|].
  split.
  - intros t Ht.
    assert (Htr : forall ft,
               HttpInterceptor.finalTraceId request span = Some ft ->
               st !! "traceId" = Some (VStr ft)).
    { intros ft Hft. apply Hin; [|reflexivity]. simpl. rewrite Hft. simpl. tauto. }
    unfold HttpInterceptor.responseHeaders in *. fold sid in Ht |- *.
    destruct (HttpInterceptor.finalTraceId request span) as [ft|];
      [destruct (Str.nonempty ft) eqn:Hne|]; simpl in Ht;
      repeat (apply elem_of_cons in Ht as [Ht|Ht]; try discriminate Ht);
      try (by apply elem_of_nil in Ht).
    injection Ht as ->. split; [exact Hne|]. split; [by apply Htr|].
    simpl. do 2 apply list_elem_of_further. apply list_elem_of_here.
  - intros k Hk. subst st. rewrite setContext_seed. apply seed_other.
    by apply loggerCtx_keys.
Qed.

Lemma prepare_binds_ids_and_headers_witness :
  exists (headers : list (string * string)) (store' : record),
    HttpInterceptor.prepare noOptions sampleRequest None sampleUuids ∅
    = Some (headers, store')
    /\ store' !! "requestId" = Some (VStr "req-7")
    /\ store' !! "component" = Some (VStr "http").
Proof.
  destruct (HttpInterceptor.prepare noOptions sampleRequest None sampleUuids ∅)
    as [[headers store']|] eqn:Hp; [|by vm_compute in Hp].
  exists headers, store'. split; [reflexivity|].
  destruct (prepare_binds_ids_and_headers noOptions sampleRequest None sampleUuids
              ∅ store' headers Hp eq_refl eq_refl) as (_ & _ & H1 & H2 & _).
  split; [exact H1 | exact H2].
Defined.

(** X20.  The request id is the inbound one when there is one: the
    [x-request-id] header (the first value of a multi-valued one), else
    the [x-correlation-id] header; a fresh uuid otherwise, also when
    [x-request-id] is an empty list of values. *)
Theorem inbound_request_id_is_kept :
  forall (request : HttpRequest) (uuids : Uuids),
    (forall s : string,
        rq_headers request !! "x-request-id" = Some (HStr s) ->
        Str.nonempty s = true ->
        HttpInterceptor.requestId request uuids = s)
    /\ (forall (s : string) (more : list string),
          rq_headers request !! "x-request-id" = Some (HArr (s :: more)) ->
          Str.nonempty s = true ->
          HttpInterceptor.requestId request uuids = s)
    /\ (forall s : string,
          rq_headers request !! "x-request-id" = None ->
          rq_headers request !! "x-correlation-id" = Some (HStr s) ->
          Str.nonempty s = true ->
          HttpInterceptor.requestId request uuids = s)
    /\ (rq_headers request !! "x-request-id" = None ->
        rq_headers request !! "x-correlation-id" = None ->
        HttpInterceptor.requestId request uuids = uuid_request uuids)
    /\ (rq_headers request !! "x-request-id" = Some (HArr []) ->
        HttpInterceptor.requestId request uuids = uuid_request uuids).
Proof.
  intros request uuids.
  unfold HttpInterceptor.requestId, Headers.either, HttpInterceptor.orElse.
  repeat split.
  - intros s H Hs. rewrite H. destruct s; [discriminate Hs | reflexivity].
  - intros s more H Hs. rewrite H. destruct s; [discriminate Hs | reflexivity].
  - intros s H1 H2 Hs. rewrite H1. cbn [Headers.truthy]. rewrite H2.
    destruct s; [discriminate Hs | reflexivity].
  - intros H1 H2. rewrite H1. cbn [Headers.truthy]. by rewrite H2.
  - intros H. by rewrite H.
Qed.

Lemma inbound_request_id_is_kept_witness :
  HttpInterceptor.requestId sampleRequest sampleUuids = "req-7".
Proof.
  apply (proj1 (inbound_request_id_is_kept sampleRequest sampleUuids) "req-7");
    reflexivity.
Defined.

(** X21.  Without an active span, a request that arrives with a W3C
    [traceparent] leaves with one: [x-trace-id] and the store carry the
    inbound trace id, the store carries the inbound parent span id, and
    the outbound [traceparent] joins the inbound trace id with a fresh
    span id, under version [00] and flags [01] whatever came in. *)
Theorem traceparent_is_continued :
  forall (options : HttpLoggingInterceptorOptions) (request : HttpRequest)
         (uuids : Uuids) (store store' : record)
         (headers : list (string * string))
         (tp version t p flags : string) (more : list string),
    HttpInterceptor.prepare options request None uuids store
    = Some (headers, store') ->
    rq_headers request !! "traceparent" = Some (HStr tp) ->
    Str.split "-" tp = version :: t :: p :: flags :: more ->
    Str.nonempty t = true ->
    Str.nonempty (uuid_span uuids) = true ->
    headers = [("x-request-id", HttpInterceptor.requestId request uuids);
               ("x-trace-id", t);
               ("traceparent", "00-" +:+ t +:+ "-" +:+ uuid_span uuids +:+ "-01");
               ("x-span-id", uuid_span uuids)]
    /\ store' !! "traceId" = Some (VStr t)
    /\ store' !! "spanId" = Some (VStr (uuid_span uuids))
    /\ store' !! "parentSpanId" = Some (VStr p).
Proof.
  intros options request uuids store store' headers tp version t p flags more
         Hp Htp Hsplit Ht Hu.
  unfold HttpInterceptor.prepare in Hp.
  destruct (HttpInterceptor.skipped options request); [discriminate Hp|].
  assert (Hh : headers = HttpInterceptor.responseHeaders request None uuids)
    by congruence.
  assert (Hst : store' = HttpInterceptor.setContext
                           (HttpInterceptor.loggerCtx request None uuids) store)
    by congruence.
  clear Hp. subst headers store'.
  assert (Hlen : 4 <= List.length (Str.split "-" tp)).
  { rewrite Hsplit. simpl. lia. }
  assert (Hx : extractTraceContext (rq_headers request) = parsedTrace tp).
  { apply extract_of_traceparent; [|exact Hlen].
    unfold Headers.either. rewrite Htp. simpl.
    by rewrite (split_length_nonempty _ Hlen). }
  assert (Hparsed : parsedTrace tp
                    = {| traceId := Some t; spanId := None;
                         parentSpanId := Some p; traceFlags := Some flags |}).
  { unfold parsedTrace. by rewrite Hsplit. }
  assert (Hft : HttpInterceptor.finalTraceId request None = Some t).
  { unfold HttpInterceptor.finalTraceId. rewrite Hx, Hparsed. reflexivity. }
  assert (Hfs : HttpInterceptor.finalSpanId request None uuids = uuid_span uuids).
  { unfold HttpInterceptor.finalSpanId. rewrite Hx, Hparsed. reflexivity. }
  assert (Hfp : HttpInterceptor.finalParentSpanId request None = Some p).
  { unfold HttpInterceptor.finalParentSpanId. rewrite Hx, Hparsed. reflexivity. }
  split.
  - unfold HttpInterceptor.responseHeaders. by rewrite Hft, Hfs, Ht.
  - repeat split; (apply prepared_lookup; [|reflexivity]);
      unfold HttpInterceptor.loggerCtx; rewrite Hft, Hfs, Hfp; simpl;
      rewrite !elem_of_cons; tauto.
Qed.

Lemma traceparent_is_continued_witness :
  exists (headers : list (string * string)) (store' : record),
    HttpInterceptor.prepare noOptions sampleRequest None sampleUuids ∅
    = Some (headers, store')
    /\ store' !! "traceId" = Some (VStr "4bf92f3577b34da6a3ce929d0e0e4736").
Proof.
  destruct (HttpInterceptor.prepare noOptions sampleRequest None sampleUuids ∅)
    as [[headers store']|] eqn:Hp; [|by vm_compute in Hp].
  exists headers, store'. split; [reflexivity|].
  exact (proj1 (proj2 (traceparent_is_continued noOptions sampleRequest sampleUuids
                         ∅ store' headers
                         "00-4bf92f3577b34da6a3ce929d0e0e4736-00f067aa0ba902b7-01"
                         "00" "4bf92f3577b34da6a3ce929d0e0e4736" "00f067aa0ba902b7"
                         "01" [] Hp eq_refl eq_refl eq_refl eq_refl))).
Defined.

(** X22.  A request is skipped exactly when its path contains one of the
    skip paths as a substring or its method is one of the skip methods;
    so an empty skip path skips every request.  A skipped request sets no
    header and leaves the store alone. *)
Theorem skipping_is_by_substring :
  forall (options : HttpLoggingInterceptorOptions) (request : HttpRequest)
         (activeSpan : option SpanContext) (uuids : Uuids) (store : record),
    let paths := default ["/health"; "/metrics"] (skipPaths options) in
    let methods := default [] (skipMethods options) in
    (HttpInterceptor.skipped options request = true <->
       (exists p, In p paths /\ Str.includes (rq_path request) p = true)
       \/ In (rq_method request) methods)
    /\ (In "" paths -> HttpInterceptor.skipped options request = true)
    /\ (HttpInterceptor.skipped options request = true <->
          HttpInterceptor.prepare options request activeSpan uuids store = None).
Proof.
  intros options request span uuids store paths methods.
  assert (Hiff : HttpInterceptor.skipped options request = true <->
                 (exists p, In p paths /\ Str.includes (rq_path request) p = true)
                 \/ In (rq_method request) methods).
  { unfold HttpInterceptor.skipped. fold paths. fold methods.
    rewrite orb_true_iff, !existsb_exists. apply or_iff_compat_l.
    split.
    - intros (m & Hin & Heq). apply String.eqb_eq in Heq. by subst.
    - intros Hin. exists (rq_method request). split; [exact Hin|].
      apply String.eqb_refl. }
  split; [exact Hiff|]. split.
  - intros Hin. apply Hiff. left. exists "". split; [exact Hin|].
    by destruct (rq_path request).
  - unfold HttpInterceptor.prepare.
    destruct (HttpInterceptor.skipped options request); split; congruence.
Qed.

(** X23.  In the scope the interceptor has prepared, [info] hands over
    neither [service] nor [method], whatever the metadata, as long as it
    does not rebind [component]: the HTTP method that the interceptor
    itself passes under the key [method] never reaches a record. *)
Theorem prepared_scope_drops_method :
  forall (RT : JsRuntime) (this : LoggerService)
         (options : HttpLoggingInterceptorOptions) (request : HttpRequest)
         (activeSpan : option SpanContext) (uuids : Uuids) (w : World)
         (headers : list (string * string)) (store' : record)
         (message : value) (meta : list (string * value))
         (context : option string) (site : CallSite),
    lg_contextService this = true ->
    HttpInterceptor.prepare options request activeSpan uuids (cls w)
    = Some (headers, store') ->
    Forall (fun kv => kv.1 <> "component") meta ->
    let w' := Logger.info this message (Some meta) context site
                          (with_cls (fun _ => store') w) in
    lastFields w' !! "method" = None
    /\ lastFields w' !! "service" = None
    /\ stackWalks w' = stackWalks w.
Proof.
  intros RT this options request span uuids w headers store' message meta
         context site Hsvc Hp Hmeta w'.
  assert (Hc : store' !! "component" = Some (VStr "http")).
  { unfold HttpInterceptor.prepare in Hp.
    destruct (HttpInterceptor.skipped options request); [discriminate Hp|].
    assert (Hst : store' = HttpInterceptor.setContext
                             (HttpInterceptor.loggerCtx request span uuids) (cls w))
      by congruence.
    rewrite Hst. apply prepared_lookup; [|reflexivity].
    unfold HttpInterceptor.loggerCtx. rewrite elem_of_app, !elem_of_cons. tauto. }
  destruct (info_http_has_no_service_method this Hsvc message (Some meta) context
              site (with_cls (fun _ => store') w) Hc) as [Hs Hm].
  { by intros entries [= <-]. }
  split; [exact Hm|]. split; [exact Hs|].
  destruct (performAll_not_needed this
              [(CallInfo message (Some meta) context, site)]
              (with_cls (fun _ => store') w)) as (_ & Hw & _).
  - unfold Logger.needsCaller, Logger.shouldIncludeServiceMethod.
    rewrite !(field_svc_getAll this Hsvc). simpl.
    unfold Cls.get, Js.field. by rewrite Hc.
  - exact Hw.
Qed.

Lemma prepared_scope_drops_method_witness :
  lastFields
    (Logger.info (RT := sampleRuntime) moduleLogger (VStr "REQUEST GET /users/42")
       (Some [("method", VStr "GET"); ("url", VStr "/users/42")]) (Some "HTTP")
       (siteOf serviceStack)
       (with_cls
          (fun _ =>
             HttpInterceptor.setContext
               (HttpInterceptor.loggerCtx sampleRequest None sampleUuids) ∅)
          (freshWorld ∅))) !! "method" = None.
Proof.
  refine (proj1 (prepared_scope_drops_method sampleRuntime moduleLogger noOptions
                   sampleRequest None sampleUuids (freshWorld ∅) _ _
                   (VStr "REQUEST GET /users/42")
                   [("method", VStr "GET"); ("url", VStr "/users/42")]
                   (Some "HTTP") (siteOf serviceStack) eq_refl eq_refl _)).
  repeat constructor; discriminate.
Defined.

(** ** Configuration and base fields *)



Section ClsContext.

Lemma copy_defined_lookup (w : World) (keys : list string) :
  forall (init : record) (k : string),
    NoDup keys -> k ∈ keys ->
    fold_left (fun clsContext key =>
                 let v := Cls.get key (cls w) in
                 if Js.is_undefined v then clsContext else <[key := v]> clsContext)
              keys init !! k
    = if Js.is_undefined (Cls.get k (cls w)) then init !! k
      else Some (Cls.get k (cls w)).
Proof.
  induction keys as [|key keys IH]; intros init k Hnd Hin.
  - by apply elem_of_nil in Hin.
  - apply NoDup_cons in Hnd as [Hkey Hnd]. simpl.
    apply elem_of_cons in Hin as [->|Hin].
    + assert (Hrest : forall init' : record,
                 fold_left (fun clsContext key0 =>
                              let v := Cls.get key0 (cls w) in
                              if Js.is_undefined v then clsContext
                              else <[key0 := v]> clsContext) keys init' !! key
                 = init' !! key).
      { clear -Hkey. induction keys as [|k0 keys IH]; intros init'; [reflexivity|].
        apply not_elem_of_cons in Hkey as [Hne Hkey]. simpl. rewrite IH by exact Hkey.
        destruct (Js.is_undefined (Cls.get k0 (cls w)));
          [reflexivity | by rewrite lookup_insert_ne]. }
      rewrite Hrest. destruct (Js.is_undefined (Cls.get key (cls w)));
        [reflexivity | apply lookup_insert_eq].
    + rewrite IH by assumption.
      destruct (Js.is_undefined (Cls.get k (cls w))); [|reflexivity].
      destruct (Js.is_undefined (Cls.get key (cls w))); [reflexivity|].
      rewrite lookup_insert_ne; [reflexivity|]. intros ->. by apply Hkey.
Qed.

End ClsContext.

(** X25.  The filter's [extractClsContext] holds exactly the entries of
    the store under the eight correlation keys whose value is not
    [undefined]; no other key of the store is copied. *)
Theorem extractClsContext_copies_correlation_keys :
  forall (w : World) (k : string) (v : value),
    Filter.extractClsContext w !! k = Some v <->
    k ∈ ["requestId"; "correlationId"; "traceId"; "spanId"; "userId";
         "component"; "service"; "method"]
    /\ cls w !! k = Some v
    /\ v <> VUndefined.
Proof.
  intros w k v.
  destruct (decide (k ∈ Filter.relevantKeys)) as [Hin|Hnin].
  - unfold Filter.extractClsContext.
    rewrite copy_defined_lookup;
      [| apply (bool_decide_unpack _); by vm_compute | exact Hin].
    unfold Cls.get, Js.field. rewrite lookup_empty.
    destruct (cls w !! k) as [x|] eqn:Hx; simpl.
    + destruct (Js.is_undefined x) eqn:Hu.
      * split; [discriminate|]. intros (_ & [= ->] & Hv). by destruct v.
      * split.
        -- intros [= <-]. repeat split; [exact Hin|]. by destruct x.
        -- by intros (_ & [= ->] & _).
    + split; [discriminate|]. by intros (_ & [=] & _).
  - rewrite extractClsContext_other by exact Hnin.
    split; [discriminate|]. by intros [Hin _].
Qed.

(** X26.  The base fields merged into every record take [version] from
    [getAppVersion()] and nothing else: the [serviceVersion] option and
    the version of [package.json] have no effect on them.  There are
    always the same fourteen fields, with [hostname] from the operating
    system and [app] from the option, else [APP_NAME], else
    [nestjs-app]. *)
Theorem base_fields_ignore_serviceVersion :
  forall (DEVELOPMENT : string) (environment appName : option string)
         (serviceVersion serviceVersion' : option string) (proc : Process),
    let base :=
      Infra.buildInfrastructureContext DEVELOPMENT environment appName
                                       serviceVersion proc in
    base = Infra.buildInfrastructureContext DEVELOPMENT environment appName
                                            serviceVersion' proc
    /\ base = Infra.buildInfrastructureContext
                DEVELOPMENT environment appName serviceVersion
                {| p_env := p_env proc; p_hostname := p_hostname proc;
                   p_pid := p_pid proc; p_appVersion := p_appVersion proc;
                   p_packageVersion := None |}
    /\ base !! "version" = Some (p_appVersion proc)
    /\ base !! "hostname" = Some (VStr (p_hostname proc))
    /\ base !! "app"
       = Some (Js.or (Js.or (Js.ofString appName)
                            (Js.ofString (p_env proc !! "APP_NAME")))
                     (VStr "nestjs-app"))
    /\ dom base
       = {[ "env"; "app"; "pid"; "hostname"; "version"; "pod"; "container";
            "node"; "namespace"; "region"; "zone"; "commit"; "build";
            "deployment" ]}.
Proof.
  intros D environment appName sv sv' proc base.
  assert (Hver : forall sv0 pv k,
             (Infra.buildInfrastructureContext D environment appName sv0
                {| p_env := p_env proc; p_hostname := p_hostname proc;
                   p_pid := p_pid proc; p_appVersion := p_appVersion proc;
                   p_packageVersion := pv |}) !! k
             = base !! k).
  { intros sv0 pv k. unfold base, Infra.buildInfrastructureContext.
    cbv zeta. rewrite !lookup_union.
    destruct (decide (k = "version")) as [->|Hk].
    - unfold Infra.getInfrastructureContext.
      by rewrite !lookup_insert_ne, !lookup_insert_eq by done.
    - f_equal. by rewrite !(lookup_insert_ne _ "version") by done. }
  split; [|split].
  - apply map_eq. intros k. symmetry.
    rewrite <- (Hver sv' (p_packageVersion proc) k). by destruct proc.
  - apply map_eq. intros k. symmetry. apply Hver.
  - unfold base, Infra.buildInfrastructureContext. cbv zeta.
    split; [|split; [|split]].
    + apply lookup_union_Some_raw. left. unfold Infra.getInfrastructureContext.
      by rewrite !lookup_insert_ne, lookup_insert_eq by done.
    + apply lookup_union_Some_raw. left. unfold Infra.getInfrastructureContext.
      by rewrite !lookup_insert_ne, lookup_insert_eq by done.
    + apply lookup_union_Some_raw. right. split.
      * unfold Infra.getInfrastructureContext.
        rewrite !lookup_insert_ne by done. apply lookup_empty.
      * by rewrite !lookup_insert_ne, lookup_insert_eq by done.
    + unfold Infra.getInfrastructureContext.
      rewrite dom_union_L, !dom_insert_L, !dom_empty_L. set_solver.
Qed.
